(** * Terminal-activity monitor and confirmation autopilot

    A shallow embedding of the tmux monitor (class [TmuxMonitor]) and of the
    tmux command injector (class [TmuxInjector]), with the properties of the
    completion-detection engine stated over it.

    JavaScript strings are sequences of UTF-16 code units; they are modelled
    as lists of code units so that [split], [trim], [includes] and the regular
    expressions of the source see exactly the units the source sees. *)

From Stdlib Require Import String.
From Stdlib Require Import List NArith Bool Ascii Arith Lia.
From Stdlib Require Import Numbers.DecimalString.
Import ListNotations.

(* ================================================================== *)
(** ** JavaScript strings *)
(* ================================================================== *)

Module JS.

Definition char := N.
Definition jsstring := list char.

(** Decoding of a UTF-8 byte sequence into UTF-16 code units; used only to
    write the literals of the source legibly. *)
Fixpoint decode (bs : list N) : jsstring :=
  match bs with
  | [] => []
  | b0 :: r0 =>
    if (b0 <? 128)%N then b0 :: decode r0
    else match r0 with
    | [] => []
    | b1 :: r1 =>
      if (b0 <? 224)%N then ((b0 - 192) * 64 + (b1 - 128))%N :: decode r1
      else match r1 with
      | [] => []
      | b2 :: r2 =>
        if (b0 <? 240)%N
        then ((b0 - 224) * 4096 + (b1 - 128) * 64 + (b2 - 128))%N :: decode r2
        else match r2 with
        | [] => []
        | b3 :: r3 =>
          let cp := ((b0 - 240) * 262144 + (b1 - 128) * 4096
                     + (b2 - 128) * 64 + (b3 - 128) - 65536)%N in
          (55296 + cp / 1024)%N :: (56320 + cp mod 1024)%N :: decode r3
        end
      end
    end
  end.

Definition u (s : String.string) : jsstring :=
  decode (map N_of_ascii (String.list_ascii_of_string s)).

Definition chr (s : String.string) : char := hd 0%N (u s).

Arguments u s%_string.
Arguments chr s%_string.

Definition LF : char := 10%N.
Definition ESC : char := 27%N.

(** ECMAScript [LineTerminator]. *)
Definition isLineTerminator (c : char) : bool :=
  ((c =? 10) || (c =? 13) || (c =? 8232) || (c =? 8233))%N.

(** ECMAScript [WhiteSpace]: TAB, VT, FF, SP, NBSP, ZWNBSP and category Zs. *)
Definition isWhiteSpace (c : char) : bool :=
  ((c =? 9) || (c =? 11) || (c =? 12) || (c =? 32) || (c =? 160)
   || (c =? 5760) || ((8192 <=? c) && (c <=? 8202)) || (c =? 8239)
   || (c =? 8287) || (c =? 12288) || (c =? 65279))%N.

(** What [\s] matches and what [String.prototype.trim] removes. *)
Definition isSpace (c : char) : bool := isWhiteSpace c || isLineTerminator c.

Definition isDigit (c : char) : bool := ((48 <=? c) && (c <=? 57))%N.
Definition isUpper (c : char) : bool := ((65 <=? c) && (c <=? 90))%N.
Definition isLower (c : char) : bool := ((97 <=? c) && (c <=? 122))%N.

Fixpoint dropWhile (p : char -> bool) (s : jsstring) : jsstring :=
  match s with
  | [] => []
  | c :: r => if p c then dropWhile p r else s
  end.

Definition trimStart (s : jsstring) : jsstring := dropWhile isSpace s.
Definition trimEnd (s : jsstring) : jsstring := rev (dropWhile isSpace (rev s)).
Definition trim (s : jsstring) : jsstring := trimEnd (trimStart s).

(** [s.split(sep)] for a one-unit separator. *)
Fixpoint split (sep : char) (s : jsstring) : list jsstring :=
  match s with
  | [] => [[]]
  | c :: r =>
    if (c =? sep)%N then [] :: split sep r
    else match split sep r with
         | h :: t => (c :: h) :: t
         | [] => [[c]]
         end
  end.

(** [a.join(sep)] for a one-unit separator. *)
Fixpoint join (sep : char) (l : list jsstring) : jsstring :=
  match l with
  | [] => []
  | [a] => a
  | a :: rest => a ++ sep :: join sep rest
  end.

Fixpoint startsWith (w s : jsstring) : bool :=
  match w, s with
  | [], _ => true
  | _ :: _, [] => false
  | a :: w', b :: s' => (a =? b)%N && startsWith w' s'
  end.

(** [s.includes(w)]. *)
Fixpoint includes (w s : jsstring) : bool :=
  startsWith w s ||
  match s with
  | [] => false
  | _ :: r => includes w r
  end.

Fixpoint eqb (a b : jsstring) : bool :=
  match a, b with
  | [], [] => true
  | x :: a', y :: b' => (x =? y)%N && eqb a' b'
  | _, _ => false
  end.

(** [a.slice(-n)] on arrays and strings: the last [n] elements
    ([-0] is [0], so [slice(-0)] is the whole sequence). *)
Definition sliceLast {A : Type} (n : nat) (l : list A) : list A :=
  match n with
  | O => l
  | _ => skipn (length l - n) l
  end.

(** [String(n)] for a non-negative integer. *)
Definition ofNat (n : nat) : jsstring :=
  map N_of_ascii
    (String.list_ascii_of_string (NilEmpty.string_of_uint (Nat.to_uint n))).

(** JavaScript truthiness of a string. *)
Definition truthy (s : jsstring) : bool :=
  match s with [] => false | _ => true end.

(** [a || b] on strings. *)
Definition orElse (a b : jsstring) : jsstring := if truthy a then a else b.

End JS.

(* ================================================================== *)
(** ** Regular expressions *)
(* ================================================================== *)

(** The fragment of ECMAScript regular expressions the source uses, with the
    backtracking semantics of the language definition: a matcher takes a
    continuation and the first successful alternative wins.  Every repetition
    in the source is over a single character class. *)

Module Regex.
Import JS.

Inductive regex : Type :=
| Eps : regex
| Cls : (char -> bool) -> regex
| Cat : regex -> regex -> regex
| Alt : regex -> regex -> regex
| Rep : (char -> bool) -> regex          (* greedy [c*] *)
| Bol : bool -> regex                    (* [^]; the flag is [m] *)
| Eol : bool -> regex.                   (* [$]; the flag is [m] *)

(** A position: the unit just before it, if any, and the remaining input. *)
Definition pos : Type := option char * jsstring.
Definition cont : Type := pos -> option pos.

Definition atLineStart (multiline : bool) (x : pos) : bool :=
  match fst x with
  | None => true
  | Some c => multiline && isLineTerminator c
  end.

Definition atLineEnd (multiline : bool) (x : pos) : bool :=
  match snd x with
  | [] => true
  | c :: _ => multiline && isLineTerminator c
  end.

Fixpoint rep (p : char -> bool) (k : cont) (prev : option char) (s : jsstring)
  : option pos :=
  match s with
  | c :: s' =>
    if p c then
      match rep p k (Some c) s' with
      | Some r => Some r
      | None => k (prev, s)
      end
    else k (prev, s)
  | [] => k (prev, [])
  end.

Fixpoint run (r : regex) (k : cont) (x : pos) : option pos :=
  match r with
  | Eps => k x
  | Cls p =>
    match snd x with
    | c :: s' => if p c then k (Some c, s') else None
    | [] => None
    end
  | Cat a b => run a (run b k) x
  | Alt a b =>
    match run a k x with
    | Some y => Some y
    | None => run b k x
    end
  | Rep p => rep p k (fst x) (snd x)
  | Bol ml => if atLineStart ml x then k x else None
  | Eol ml => if atLineEnd ml x then k x else None
  end.

(** The leftmost match: its index and the input left after it. *)
Fixpoint searchFrom (r : regex) (i : nat) (prev : option char) (s : jsstring)
  : option (nat * jsstring) :=
  match run r Some (prev, s) with
  | Some (_, rest) => Some (i, rest)
  | None =>
    match s with
    | [] => None
    | c :: s' => searchFrom r (S i) (Some c) s'
    end
  end.

Definition search (r : regex) (s : jsstring) : option (nat * jsstring) :=
  searchFrom r 0 None s.

(** [r.test(s)] for a regular expression without the [g] flag. *)
Definition test (r : regex) (s : jsstring) : bool :=
  match search r s with Some _ => true | None => false end.

(** [s.match(r)?.index]. *)
Definition matchIndex (r : regex) (s : jsstring) : option nat :=
  match search r s with Some (i, _) => Some i | None => None end.

(** [s.replace(r, '')] without the [g] flag. *)
Definition replaceFirst (r : regex) (s : jsstring) : jsstring :=
  match search r s with
  | Some (i, rest) => firstn i s ++ rest
  | None => s
  end.

(** [s.replace(r, '')] with the [g] flag; [skip] counts the units of the
    current match that are still to be dropped. *)
Fixpoint replaceAllFrom (r : regex) (prev : option char) (s : jsstring)
  (skip : nat) : jsstring :=
  match s with
  | [] => []
  | c :: s' =>
    match skip with
    | S n => replaceAllFrom r (Some c) s' n
    | O =>
      match run r Some (prev, s) with
      | Some (_, rest) =>
        match length s - length rest with
        | O => c :: replaceAllFrom r (Some c) s' 0
        | S n => replaceAllFrom r (Some c) s' n
        end
      | None => c :: replaceAllFrom r (Some c) s' 0
      end
    end
  end.

Definition replaceAll (r : regex) (s : jsstring) : jsstring :=
  replaceAllFrom r None s 0.

(** Derived forms. *)
Definition Plus (p : char -> bool) : regex := Cat (Cls p) (Rep p).
Definition Opt (r : regex) : regex := Alt r Eps.
Definition Chr (c : char) : regex := Cls (N.eqb c).
Definition Dot : regex := Cls (fun c => negb (isLineTerminator c)).
Definition DotStar : regex := Rep (fun c => negb (isLineTerminator c)).

Fixpoint seq (rs : list regex) : regex :=
  match rs with
  | [] => Eps
  | [r] => r
  | r :: rest => Cat r (seq rest)
  end.

(** A literal. *)
Definition Lit (w : jsstring) : regex := seq (map Chr w).

(** Equality of code units under the [i] flag.  Without the [u] flag a unit
    outside ASCII is never identified with an ASCII one, and the literals of
    the source contain, outside ASCII, only units without case. *)
Definition eqI (c x : char) : bool :=
  ((x =? c)
   || (isUpper c && (x =? c + 32))
   || (isLower c && (x =? c - 32)))%N.

(** A literal under the [i] flag. *)
Definition LitI (w : jsstring) : regex := seq (map (fun c => Cls (eqI c)) w).

End Regex.

(* ================================================================== *)
(** ** The tmux monitor *)
(* ================================================================== *)

Module Monitor.
Import JS Regex.

(** *** Glyphs and regular expressions of the source

    The expressions are quoted from the source; inside a non-capturing group
    a blank is left after the opening and before the closing parenthesis. *)

Definition c_prompt : char := Eval vm_compute in chr "›".
Definition c_bar : char := Eval vm_compute in chr "│".
Definition c_pipe : char := Eval vm_compute in chr "|".
Definition c_bullet : char := Eval vm_compute in chr "•".
Definition c_gt : char := Eval vm_compute in chr ">".

(** JS: [│|] *)
Definition border (c : char) : bool := ((c =? c_bar) || (c =? c_pipe))%N.

Definition boxGlyphs : jsstring := Eval vm_compute in u "╭╰│─┤┐┘┌└".

(** JS: [\s╭╰│─┤┐┘┌└] *)
Definition uiGlyph (c : char) : bool := isSpace c || existsb (N.eqb c) boxGlyphs.

(** JS: [0-9;] *)
Definition ansiParam (c : char) : bool := (isDigit c || (c =? 59))%N.

Definition nonSpace (c : char) : bool := negb (isSpace c).

(** JS: (?: [│|]\s* )? *)
Definition optBorder : regex := Opt (Cat (Cls border) (Rep isSpace)).

(** JS: /^\s*(?: [│|]\s* )?›\s+\S/ *)
Definition re_promptLine : regex :=
  seq [Bol false; Rep isSpace; optBorder; Chr c_prompt; Plus isSpace; Cls nonSpace].

(** JS: /^\s*(?: [│|]\s* )?›\s*(?: [│|]\s* )?$/ *)
Definition re_promptOnly : regex :=
  seq [Bol false; Rep isSpace; optBorder; Chr c_prompt; Rep isSpace; optBorder;
       Eol false].

(** JS: /^\s*(?: [│|]\s* )?›/ *)
Definition re_startsWithPrompt : regex :=
  seq [Bol false; Rep isSpace; optBorder; Chr c_prompt].

(** JS: /^\s*(?: [│|]\s* )?›\s+/, the prefix removed from a prompt line. *)
Definition re_promptPrefix : regex :=
  seq [Bol false; Rep isSpace; optBorder; Chr c_prompt; Plus isSpace].

(** JS: /\u001b\[[0-9;]*m/g *)
Definition re_ansi : regex :=
  seq [Chr ESC; Chr (chr "["); Rep ansiParam; Chr (chr "m")].

(** JS: /^[\s╭╰│─┤┐┘┌└]+$/ *)
Definition re_uiBorder : regex := seq [Bol false; Plus uiGlyph; Eol false].

(** JS: /a.*b/i *)
Definition gapI (a b : string) : regex := seq [LitI (u a); DotStar; LitI (u b)].
(** JS: /a.*b/ *)
Definition gap (a b : string) : regex := seq [Lit (u a); DotStar; Lit (u b)].
(** JS: /w/i *)
Definition wordI (w : string) : regex := LitI (u w).

(** JS: /Worked for \d+s/i *)
Definition re_workedFor : regex :=
  seq [LitI (u "Worked for "); Plus isDigit; LitI (u "s")].
(** JS: /─ Worked for \d+s/i *)
Definition re_ruleWorkedFor : regex :=
  seq [LitI (u "─ Worked for "); Plus isDigit; LitI (u "s")].
(** JS: /^•\s+/m *)
Definition re_bulletLine : regex := seq [Bol true; Chr c_bullet; Plus isSpace].
(** JS: /(^|\n)•\s+/m *)
Definition re_bulletAfterBreak : regex :=
  seq [Alt (Bol true) (Chr LF); Chr c_bullet; Plus isSpace].
(** JS: /•\s+w/i *)
Definition bulletI (w : string) : regex :=
  seq [LitI (u "•"); Plus isSpace; LitI (u w)].
(** JS: /Telegram done/i *)
Definition re_telegramDone : regex := wordI "Telegram done".
(** The instruction line that asks for the done marker, under the [i] flag. *)
Definition re_doneInstruction : regex :=
  LitI (u "After task is completed, write " ++ 34%N :: u "Telegram done"
        ++ 34%N :: u " here").

(** JS: this.completionPatterns *)
Definition completionPatterns : list regex :=
  [ gapI "task" "completed";
    gapI "successfully" "completed";
    gapI "completed" "successfully";
    gapI "implementation" "complete";
    gapI "changes" "made";
    gapI "created" "successfully";
    gapI "updated" "successfully";
    gapI "file" "created";
    gapI "file" "updated";
    wordI "finished";
    wordI "done";
    Lit (u "✅");
    wordI "All set";
    wordI "Ready";
    gapI "The file" "has been updated";
    wordI "File created successfully";
    wordI "Command executed successfully";
    wordI "Operation completed";
    wordI "context left";
    re_workedFor;
    bulletI "Edited";
    bulletI "Updated";
    re_bulletLine;
    wordI "(no output)";
    wordI "If you want";
    seq [Chr (chr "╰"); DotStar; Chr (chr "╯"); Rep isSpace; Eol false];
    seq [Bol false; Rep isSpace; Chr c_gt; Rep isSpace; Eol false];
    seq [Bol false; Rep isSpace; Chr c_prompt; Rep isSpace; Eol false] ].

(** JS: this.waitingPatterns, only counted by getStatus. *)
Definition waitingPatterns : list regex :=
  [ gapI "waiting" "for";
    gapI "need" "input";
    gapI "please" "provide";
    gapI "what" "would you like";
    gapI "how" "can I help";
    Lit (u "⏳");
    wordI "What would you like me to";
    wordI "Is there anything else";
    wordI "Any other";
    wordI "Do you want";
    wordI "Would you like";
    wordI "? for shortcuts";
    wordI "context left";
    seq [Chr (chr "╭"); DotStar; Chr (chr "─"); DotStar; Chr (chr "╮")];
    seq [Chr c_gt; Rep isSpace; Eol false];
    seq [Chr c_prompt; Rep isSpace; Eol false] ].

(** JS: completionIndicators of _detectResponseCompletion. *)
Definition completionIndicators : list regex :=
  [ gapI "The file" "has been updated";
    wordI "File created successfully";
    wordI "successfully";
    wordI "completed";
    Lit (u "✅");
    wordI "done";
    wordI "context left";
    re_workedFor;
    wordI "(no output)";
    re_bulletLine;
    wordI "If you want" ].

(** JS: meaningfulWaitingPatterns of _shouldTriggerWaitingNotification. *)
Definition meaningfulWaitingPatterns : list regex :=
  [ gapI "waiting" "for";
    gapI "need" "input";
    gapI "please" "provide";
    gapI "what" "would you like";
    wordI "Do you want";
    wordI "Would you like";
    wordI "context left" ].

Definition s_shortcuts : jsstring := Eval vm_compute in u "? for shortcuts".
Definition s_contextLeft : jsstring := Eval vm_compute in u "context left".
Definition s_recentCommand : jsstring := Eval vm_compute in u "Recent command".
Definition s_taskCompleted : jsstring := Eval vm_compute in u "Task completed".
Definition s_noUserInput : jsstring := Eval vm_compute in u "No user input".
Definition s_noResponse : jsstring := Eval vm_compute in u "No response".
Definition s_sep : jsstring := Eval vm_compute in u "::".

(** *** Line classification *)

Definition _stripAnsi (text : jsstring) : jsstring := replaceAll re_ansi text.

Definition _isPromptLine (line : jsstring) : bool :=
  test re_promptLine (_stripAnsi line).

Definition _isPromptOnlyLine (line : jsstring) : bool :=
  test re_promptOnly (_stripAnsi line).

Definition _startsWithPrompt (line : jsstring) : bool :=
  test re_startsWithPrompt (_stripAnsi line).

(** The local [isUiLine] of the extraction functions. *)
Definition isUiLine (line : jsstring) : bool :=
  includes s_shortcuts line || includes s_contextLeft line
  || test re_uiBorder line.

(** JS: line.trim().length > 0 *)
Definition nonBlank (line : jsstring) : bool := truthy (trim line).

(** *** Data *)

Record Conversation : Type := {
  userQuestion : jsstring;
  claudeResponse : jsstring;
  fullContext : option jsstring      (* absent in [extractConversation] *)
}.

Inductive EventKind : Type := TaskCompleted | WaitingForInput.

(** The payload of an emitted event, without its time stamp. *)
Record Event : Type := {
  kind : EventKind;
  evSession : jsstring;
  newOutput : list jsstring;
  conversation : Conversation;
  triggerText : jsstring
}.

Record Monitor : Type := {
  sessionName : jsstring;
  isMonitoring : bool;
  monitorInterval : option nat;
  lastPaneContent : jsstring;
  outputBuffer : list jsstring;
  lastCompletionTail : jsstring;
  lastCompletionKey : jsstring;
  lastTelegramDoneKey : jsstring
}.

Definition maxBufferSize : nat := 1000.

(** The state left by the constructor. *)
Definition create (name : jsstring) : Monitor :=
  {| sessionName := name; isMonitoring := false; monitorInterval := None;
     lastPaneContent := []; outputBuffer := []; lastCompletionTail := [];
     lastCompletionKey := []; lastTelegramDoneKey := [] |}.

Definition set_isMonitoring (b : bool) (m : Monitor) : Monitor :=
  {| sessionName := sessionName m; isMonitoring := b;
     monitorInterval := monitorInterval m;
     lastPaneContent := lastPaneContent m; outputBuffer := outputBuffer m;
     lastCompletionTail := lastCompletionTail m;
     lastCompletionKey := lastCompletionKey m;
     lastTelegramDoneKey := lastTelegramDoneKey m |}.

Definition set_monitorInterval (t : option nat) (m : Monitor) : Monitor :=
  {| sessionName := sessionName m; isMonitoring := isMonitoring m;
     monitorInterval := t;
     lastPaneContent := lastPaneContent m; outputBuffer := outputBuffer m;
     lastCompletionTail := lastCompletionTail m;
     lastCompletionKey := lastCompletionKey m;
     lastTelegramDoneKey := lastTelegramDoneKey m |}.

Definition set_lastPaneContent (c : jsstring) (m : Monitor) : Monitor :=
  {| sessionName := sessionName m; isMonitoring := isMonitoring m;
     monitorInterval := monitorInterval m;
     lastPaneContent := c; outputBuffer := outputBuffer m;
     lastCompletionTail := lastCompletionTail m;
     lastCompletionKey := lastCompletionKey m;
     lastTelegramDoneKey := lastTelegramDoneKey m |}.

Definition set_outputBuffer (b : list jsstring) (m : Monitor) : Monitor :=
  {| sessionName := sessionName m; isMonitoring := isMonitoring m;
     monitorInterval := monitorInterval m;
     lastPaneContent := lastPaneContent m; outputBuffer := b;
     lastCompletionTail := lastCompletionTail m;
     lastCompletionKey := lastCompletionKey m;
     lastTelegramDoneKey := lastTelegramDoneKey m |}.

Definition set_lastCompletionTail (t : jsstring) (m : Monitor) : Monitor :=
  {| sessionName := sessionName m; isMonitoring := isMonitoring m;
     monitorInterval := monitorInterval m;
     lastPaneContent := lastPaneContent m; outputBuffer := outputBuffer m;
     lastCompletionTail := t;
     lastCompletionKey := lastCompletionKey m;
     lastTelegramDoneKey := lastTelegramDoneKey m |}.

Definition set_lastCompletionKey (k : jsstring) (m : Monitor) : Monitor :=
  {| sessionName := sessionName m; isMonitoring := isMonitoring m;
     monitorInterval := monitorInterval m;
     lastPaneContent := lastPaneContent m; outputBuffer := outputBuffer m;
     lastCompletionTail := lastCompletionTail m;
     lastCompletionKey := k;
     lastTelegramDoneKey := lastTelegramDoneKey m |}.

Definition set_lastTelegramDoneKey (k : jsstring) (m : Monitor) : Monitor :=
  {| sessionName := sessionName m; isMonitoring := isMonitoring m;
     monitorInterval := monitorInterval m;
     lastPaneContent := lastPaneContent m; outputBuffer := outputBuffer m;
     lastCompletionTail := lastCompletionTail m;
     lastCompletionKey := lastCompletionKey m;
     lastTelegramDoneKey := k |}.

(** *** Conversation extraction *)

(** The backward loop that looks for the last prompt line with user text:
    it examines the indices [n-1], ..., [0] and returns the index and the
    trimmed line. *)
Fixpoint findPromptDown (lines : list jsstring) (n : nat)
  : option (nat * jsstring) :=
  match n with
  | O => None
  | S i =>
    let trimmed := trim (nth i lines []) in
    if _isPromptLine trimmed then Some (i, trimmed)
    else findPromptDown lines i
  end.

(** The forward loop that accumulates the response lines. *)
Fixpoint collectResponse (ls : list jsstring) : list jsstring :=
  match ls with
  | [] => []
  | l :: rest =>
    let trimmed := trim l in
    if negb (truthy trimmed) then collectResponse rest
    else if _isPromptLine trimmed then []
    else if _isPromptOnlyLine trimmed then collectResponse rest
    else if isUiLine trimmed then collectResponse rest
    else trimmed :: collectResponse rest
  end.

(** The backward loop of [_extractRecentConversation] that falls back to the
    last line that is neither chrome nor an empty prompt. *)
Fixpoint fallbackQuestion (lines : list jsstring) (n : nat) : jsstring :=
  match n with
  | O => []
  | S i =>
    let trimmed := trim (nth i lines []) in
    if truthy trimmed && negb (isUiLine trimmed)
       && negb (_isPromptOnlyLine trimmed)
    then trimmed
    else fallbackQuestion lines i
  end.

(** The backward loop of [extractConversation] that falls back to the last
    line that is not chrome. *)
Fixpoint fallbackQuestionPlain (lines : list jsstring) (n : nat) : jsstring :=
  match n with
  | O => []
  | S i =>
    let trimmed := trim (nth i lines []) in
    if truthy trimmed && negb (isUiLine trimmed) then trimmed
    else fallbackQuestionPlain lines i
  end.

(** [_extractRecentConversation(fullContent)]; an absent or empty argument
    is the empty string. *)
Definition _extractRecentConversation (m : Monitor) (fullContent : jsstring)
  : Conversation :=
  let lines :=
    sliceLast 200 (split LF (orElse fullContent (join LF (outputBuffer m)))) in
  let found := findPromptDown lines (length lines) in
  let userQuestion0 :=
    match found with
    | Some (_, trimmed) => trim (replaceFirst re_promptPrefix trimmed)
    | None => []
    end in
  let responseStart :=
    match found with
    | Some (i, _) => i + 1
    | None => length lines - 40
    end in
  let responseLines := collectResponse (skipn responseStart lines) in
  let userQuestion1 :=
    match found with
    | None =>
      if truthy userQuestion0 then userQuestion0
      else fallbackQuestion lines responseStart
    | Some _ => userQuestion0
    end in
  let claudeResponse0 := trim (join LF responseLines) in
  let claudeResponse1 :=
    if truthy claudeResponse0 then claudeResponse0
    else
      let fallbackLines :=
        filter (fun line => truthy line && negb (isUiLine line)
                            && negb (_isPromptOnlyLine line))
          (map trim (skipn (Nat.max responseStart (length lines - 40)) lines)) in
      trim (join LF fallbackLines) in
  {| userQuestion := orElse userQuestion1 s_recentCommand;
     claudeResponse := orElse claudeResponse1 s_taskCompleted;
     fullContext := Some (join LF lines) |}.

(** [extractConversation(text, sessionName)].  The call of
    [traceCapture.recordUserInput], made when a prompt is found and a session
    name is given, does not influence the result and is left out. *)
Definition extractConversation (text : jsstring) : Conversation :=
  let normalizedLines := split LF text in
  let found := findPromptDown normalizedLines (length normalizedLines) in
  let userQuestion0 :=
    match found with
    | Some (_, trimmed) => trim (replaceFirst re_promptPrefix trimmed)
    | None => []
    end in
  let responseLines :=
    match found with
    | Some (promptIndex, _) =>
      collectResponse (skipn (promptIndex + 1) normalizedLines)
    | None => []
    end in
  let userQuestion1 :=
    if truthy userQuestion0 then userQuestion0
    else fallbackQuestionPlain normalizedLines (length normalizedLines) in
  let claudeResponse0 := trim (join LF responseLines) in
  {| userQuestion := orElse userQuestion1 s_noUserInput;
     claudeResponse := orElse claudeResponse0 s_noResponse;
     fullContext := None |}.

(** *** The completion classifier *)

(** The backward loop that finds the last line carrying the done marker. *)
Fixpoint findDoneDown (lines : list jsstring) (n : nat) : option nat :=
  match n with
  | O => None
  | S i =>
    if test re_telegramDone (nth i lines []) then Some i
    else findDoneDown lines i
  end.

(** The backward loop, from the marker line, that finds the prompt line the
    key is derived from: indices [n-1], ..., [0]. *)
Fixpoint findKeyPromptDown (lines : list jsstring) (n : nat)
  : option (nat * jsstring) :=
  match n with
  | O => None
  | S i =>
    let line := nth i lines [] in
    if _isPromptLine line
    then Some (i, trim (replaceFirst re_promptPrefix (_stripAnsi line)))
    else findKeyPromptDown lines i
  end.

(** [i > promptIndex], where an absent prompt has index [-1]. *)
Definition afterPrompt (i : nat) (promptIndex : option nat) : bool :=
  match promptIndex with
  | None => true
  | Some p => p <? i
  end.

(** The forward loop of [_detectTelegramDoneCompletion]; [i] is the index of
    the head of [ls]. *)
Fixpoint collectDoneResponse (promptIndex : option nat) (i : nat)
  (ls : list jsstring) : list jsstring :=
  match ls with
  | [] => []
  | l :: rest =>
    let trimmed := trim (_stripAnsi l) in
    if negb (truthy trimmed) then collectDoneResponse promptIndex (S i) rest
    else if afterPrompt i promptIndex && _isPromptLine trimmed then []
    else if _isPromptOnlyLine trimmed
    then collectDoneResponse promptIndex (S i) rest
    else if isUiLine trimmed then collectDoneResponse promptIndex (S i) rest
    else if test re_doneInstruction trimmed
    then collectDoneResponse promptIndex (S i) rest
    else trimmed :: collectDoneResponse promptIndex (S i) rest
  end.

(** [lines.slice(a, b)] for non-negative bounds. *)
Definition sliceRange {A : Type} (a b : nat) (l : list A) : list A :=
  firstn (b - a) (skipn a l).

(** [_detectTelegramDoneCompletion(paneText)]: the conversation, or [None]
    for [null], and the monitor with its recorded key. *)
Definition _detectTelegramDoneCompletion (m : Monitor) (paneText : jsstring)
  : option Conversation * Monitor :=
  if negb (truthy paneText) then (None, m) else
  let lines := split LF paneText in
  match findDoneDown lines (length lines) with
  | None => (None, m)
  | Some lastIndex =>
    let found := findKeyPromptDown lines (S lastIndex) in
    let promptLine := match found with Some (_, q) => q | None => [] end in
    let promptIndex := match found with Some (i, _) => Some i | None => None end in
    let doneLine := trim (_stripAnsi (nth lastIndex lines [])) in
    let key :=
      if truthy promptLine then promptLine ++ s_sep ++ doneLine
      else ofNat lastIndex ++ s_sep ++ doneLine in
    if JS.eqb key (lastTelegramDoneKey m) then (None, m) else
    let m' := set_lastTelegramDoneKey key m in
    let responseStart :=
      match promptIndex with
      | Some p => p + 1
      | None => lastIndex - 40
      end in
    let responseLines :=
      collectDoneResponse promptIndex responseStart (skipn responseStart lines) in
    let claudeResponse0 := trim (join LF responseLines) in
    (Some {| userQuestion := orElse promptLine s_recentCommand;
             claudeResponse := orElse claudeResponse0 s_taskCompleted;
             fullContext :=
               Some (join LF (sliceRange (responseStart - 5)
                                (Nat.min (length lines) (lastIndex + 10)) lines)) |},
     m')
  end.

(** [_detectCompletionFromPane(paneText)] *)
Definition _detectCompletionFromPane (m : Monitor) (paneText : jsstring)
  : bool * Monitor :=
  if negb (truthy paneText) then (false, m) else
  let conversation := _extractRecentConversation m paneText in
  let response := claudeResponse conversation in
  if negb (truthy response) then (false, m) else
  let hasTelegramDone := test re_telegramDone response in
  let hasWorkedFor := test re_workedFor response || test re_ruleWorkedFor response in
  let hasSummary :=
    test re_bulletAfterBreak response || test (wordI "(no output)") response in
  if hasTelegramDone then
    let index := match matchIndex re_telegramDone response with
                 | Some i => i
                 | None => 0
                 end in
    let key := userQuestion conversation ++ s_sep ++ ofNat index in
    if JS.eqb key (lastCompletionKey m) then (false, m)
    else (true, set_lastCompletionKey key m)
  else if negb (hasWorkedFor || hasSummary) then (false, m)
  else
    let key := userQuestion conversation ++ s_sep ++ sliceLast 500 response in
    if JS.eqb key (lastCompletionKey m) then (false, m)
    else (true, set_lastCompletionKey key m).

(** [_detectResponseCompletion(recentText, bufferText, paneText)] *)
Definition _detectResponseCompletion (recentText bufferText paneText : jsstring)
  : bool :=
  let sourceText := orElse paneText (orElse bufferText recentText) in
  let tailLines := filter nonBlank (sliceLast 8 (split LF sourceText)) in
  let hasPromptTail := existsb _isPromptOnlyLine tailLines in
  if hasPromptTail then true else
  let hasClaudeResponse :=
    test (Cat (Chr (chr "⏺")) DotStar) bufferText
    || test (Cat (Chr (chr "⏺")) DotStar) recentText in
  let hasBoxStart := test (gap "╭" "╮") recentText in
  let hasBoxEnd := test (gap "╰" "╯") recentText in
  let isCompleteResponse := hasClaudeResponse && (hasBoxStart || hasBoxEnd) in
  existsb (fun pattern => test pattern recentText) completionIndicators
  || existsb (fun pattern => test pattern bufferText) completionIndicators
  || isCompleteResponse.

(** [_detectTaskCompletion(recentText, bufferText)] *)
Definition _detectTaskCompletion (recentText bufferText : jsstring) : bool :=
  existsb (fun pattern => test pattern recentText) completionPatterns
  || existsb (fun pattern => test pattern bufferText) completionPatterns.

(** [_shouldTriggerWaitingNotification(recentText)] *)
Definition _shouldTriggerWaitingNotification (recentText : jsstring) : bool :=
  existsb (fun pattern => test pattern recentText) meaningfulWaitingPatterns
  && negb (includes s_shortcuts recentText).

(** *** The environment of a monitor

    What the monitor reaches through [execSync], [setInterval] and [emit]:
    the answer of [tmux list-sessions], the answers of the successive
    [tmux capture-pane] calls ([None] when the command fails; a call beyond
    the script fails), the interval timers that are alive, the commands
    issued so far and the events emitted so far, oldest first. *)

Inductive Call : Type :=
| ListSessions : Call
| CapturePane : jsstring -> Call.

Record World : Type := {
  sessions : option jsstring;
  captures : list (option jsstring);
  timers : list nat;
  nextTimer : nat;
  calls : list Call;
  emitted : list Event
}.

Definition logCall (c : Call) (w : World) : World :=
  {| sessions := sessions w; captures := captures w; timers := timers w;
     nextTimer := nextTimer w; calls := calls w ++ [c]; emitted := emitted w |}.

Definition popCapture (w : World) : World :=
  {| sessions := sessions w; captures := tl (captures w); timers := timers w;
     nextTimer := nextTimer w; calls := calls w; emitted := emitted w |}.

Definition emit (e : Event) (w : World) : World :=
  {| sessions := sessions w; captures := captures w; timers := timers w;
     nextTimer := nextTimer w; calls := calls w; emitted := emitted w ++ [e] |}.

(** [setInterval]: a fresh timer. *)
Definition setInterval (w : World) : nat * World :=
  (nextTimer w,
   {| sessions := sessions w; captures := captures w;
      timers := nextTimer w :: timers w; nextTimer := S (nextTimer w);
      calls := calls w; emitted := emitted w |}).

(** [clearInterval(t)] *)
Definition clearInterval (t : nat) (w : World) : World :=
  {| sessions := sessions w; captures := captures w;
     timers := filter (fun x => negb (x =? t)) (timers w);
     nextTimer := nextTimer w; calls := calls w; emitted := emitted w |}.

(** The outcome of a method that may throw. *)
Inductive Outcome : Type :=
| Returned : Outcome
| Threw : jsstring -> Outcome.

(** *** The monitor loop *)

(** [_sessionExists()] *)
Definition _sessionExists (m : Monitor) (w : World) : bool * World :=
  let w' := logCall ListSessions w in
  match sessions w with
  | Some out =>
    (existsb (JS.eqb (sessionName m)) (split LF (trim out)), w')
  | None => (false, w')
  end.

(** [_captureCurrentContent()] *)
Definition _captureCurrentContent (m : Monitor) (w : World) : jsstring * World :=
  let w' := popCapture (logCall (CapturePane (sessionName m)) w) in
  match captures w with
  | Some content :: _ => (content, w')
  | _ => ([], w')
  end.

(** [_handleTaskCompletion(newLines, conversationOverride)] *)
Definition _handleTaskCompletion (m : Monitor) (w : World)
  (newLines : list jsstring) (conversationOverride : option Conversation)
  : World :=
  let '(fullContent, w1) := _captureCurrentContent m w in
  let conv :=
    match conversationOverride with
    | Some c => c
    | None => _extractRecentConversation m fullContent
    end in
  emit {| kind := TaskCompleted; evSession := sessionName m;
          newOutput := newLines; conversation := conv;
          triggerText := join LF newLines |} w1.

(** [_handleWaitingForInput(newLines)] *)
Definition _handleWaitingForInput (m : Monitor) (w : World)
  (newLines : list jsstring) : World :=
  let '(fullContent, w1) := _captureCurrentContent m w in
  let conv := _extractRecentConversation m fullContent in
  emit {| kind := WaitingForInput; evSession := sessionName m;
          newOutput := newLines; conversation := conv;
          triggerText := join LF newLines |} w1.

(** [_analyzeNewContent(newLines, currentContent)] *)
Definition _analyzeNewContent (m : Monitor) (w : World)
  (newLines : list jsstring) (currentContent : jsstring) : Monitor * World :=
  let recentText := join LF newLines in
  let bufferText := join LF (sliceLast 20 (outputBuffer m)) in
  let paneText := orElse currentContent (lastPaneContent m) in
  match _detectTelegramDoneCompletion m paneText with
  | (Some completionFromTelegramDone, m1) =>
    (m1, _handleTaskCompletion m1 w newLines (Some completionFromTelegramDone))
  | (None, m1) =>
    let '(completionFromPane, m2) := _detectCompletionFromPane m1 paneText in
    if completionFromPane then (m2, _handleTaskCompletion m2 w newLines None)
    else
      let hasResponseEnd :=
        _detectResponseCompletion recentText bufferText paneText in
      let hasTaskCompletion := _detectTaskCompletion recentText bufferText in
      if hasTaskCompletion || hasResponseEnd
      then (m2, _handleTaskCompletion m2 w newLines None)
      else if _shouldTriggerWaitingNotification recentText
      then (m2, _handleWaitingForInput m2 w newLines)
      else (m2, w)
  end.

(** The loop of [_getNewLines] over the last five lines; [i] is the index of
    the head of [ns]. *)
Fixpoint changedFrom (oldLines : list jsstring) (i : nat) (ns : list jsstring)
  : list jsstring :=
  match ns with
  | [] => []
  | l :: rest =>
    if (i <? length oldLines) && negb (JS.eqb l (nth i oldLines []))
    then l :: changedFrom oldLines (S i) rest
    else changedFrom oldLines (S i) rest
  end.

(** [_getNewLines(oldContent, newContent)] *)
Definition _getNewLines (oldContent newContent : jsstring) : list jsstring :=
  let oldLines := split LF oldContent in
  let newLines := split LF newContent in
  let oldLength := length oldLines in
  let newLength := length newLines in
  let addedLines :=
    if oldLength <? newLength
    then sliceLast (newLength - oldLength) newLines
    else if newLength =? oldLength
    then changedFrom oldLines (newLength - 5) (skipn (newLength - 5) newLines)
    else [] in
  filter nonBlank addedLines.

(** [_checkForChanges()] *)
Definition _checkForChanges (m : Monitor) (w : World) : Monitor * World :=
  let '(currentContent, w1) := _captureCurrentContent m w in
  let contentChanged := negb (JS.eqb currentContent (lastPaneContent m)) in
  let '(m2, w2) :=
    if contentChanged then
      let newLines := _getNewLines (lastPaneContent m) currentContent in
      match newLines with
      | _ :: _ =>
        let pushed := outputBuffer m ++ newLines in
        let m1 :=
          set_outputBuffer
            (if maxBufferSize <? length pushed
             then sliceLast maxBufferSize pushed else pushed) m in
        _analyzeNewContent m1 w1 newLines currentContent
      | [] =>
        let tailLines :=
          filter nonBlank (sliceLast 20 (split LF currentContent)) in
        let tailText := join LF tailLines in
        let lastTailLine := last tailLines [] in
        let hasPromptReturn := _isPromptOnlyLine lastTailLine in
        if hasPromptReturn && truthy tailText
           && negb (JS.eqb tailText (lastCompletionTail m))
        then _analyzeNewContent (set_lastCompletionTail tailText m) w1
               (sliceLast 5 tailLines) currentContent
        else (m, w1)
      end
    else (m, w1) in
  let '(m4, w4) :=
    if truthy currentContent && contentChanged then
      match _detectTelegramDoneCompletion m2 currentContent with
      | (Some completionFromTelegramDone, m3) =>
        (m3, _handleTaskCompletion m3 w2 [] (Some completionFromTelegramDone))
      | (None, m3) => (m3, w2)
      end
    else (m2, w2) in
  if contentChanged then (set_lastPaneContent currentContent m4, w4)
  else (m4, w4).

(** [_startRealTimeMonitoring()]: the initial capture, whose result is
    dropped, and the interval timer. *)
Definition _startRealTimeMonitoring (m : Monitor) (w : World) : Monitor * World :=
  let '(_, w1) := _captureCurrentContent m w in
  let '(t, w2) := setInterval w1 in
  (set_monitorInterval (Some t) m, w2).

Definition s_notFound (name : jsstring) : jsstring :=
  u "Tmux session '" ++ name ++ u "' not found".

(** [start()] *)
Definition start (m : Monitor) (w : World) : Outcome * Monitor * World :=
  if isMonitoring m then (Returned, m, w) else
  let '(exists_, w1) := _sessionExists m w in
  if negb exists_ then (Threw (s_notFound (sessionName m)), m, w1) else
  let '(m2, w2) := _startRealTimeMonitoring (set_isMonitoring true m) w1 in
  (Returned, m2, w2).

(** [stop()] *)
Definition stop (m : Monitor) (w : World) : Monitor * World :=
  if negb (isMonitoring m) then (m, w) else
  let m1 := set_isMonitoring false m in
  match monitorInterval m1 with
  | Some t => (set_monitorInterval None m1, clearInterval t w)
  | None => (m1, w)
  end.

(** The callback handed to [setInterval]. *)
Definition onInterval (m : Monitor) (w : World) : Monitor * World :=
  if isMonitoring m then _checkForChanges m w else (m, w).

(** One firing of timer [t]: nothing happens unless the timer is alive. *)
Definition tick (t : nat) (m : Monitor) (w : World) : Monitor * World :=
  if existsb (Nat.eqb t) (timers w) then onInterval m w else (m, w).

End Monitor.

(* ================================================================== *)
(** ** The tmux injector and its confirmation autopilot *)
(* ================================================================== *)

Module Injector.
Import JS.

(** What the injector does, in order: shell commands handed to [exec],
    waits requested from [setTimeout], and the line appended to the injection
    log. *)
Inductive Action : Type :=
| Exec : jsstring -> Action
| Sleep : nat -> Action
| LogInjection : jsstring -> Action.

(** The pane as the injector meets it: the answers of the successive
    [tmux capture-pane] calls ([None] when [exec] reports an error; a call
    beyond the script fails), of the successive [tmux send-keys] calls
    ([Some msg] when [exec] reports an error; a call beyond the script
    succeeds) and of the successive [fs.appendFileSync] calls on the
    injection log ([Some msg] when the call throws; a call beyond the script
    succeeds), with the actions performed so far, oldest first. *)
Record World : Type := {
  captureScript : list (option jsstring);
  sendScript : list (option jsstring);
  logScript : list (option jsstring);
  trace : list Action
}.

Definition act (a : Action) (w : World) : World :=
  {| captureScript := captureScript w; sendScript := sendScript w;
     logScript := logScript w; trace := trace w ++ [a] |}.

Definition sleep (ms : nat) (w : World) : World := act (Sleep ms) w.

Section WithSession.

Variable sessionName : jsstring.

Definition sendKeysCommand (keys : jsstring) : jsstring :=
  u "tmux send-keys -t " ++ sessionName ++ u " " ++ keys.

Definition captureCommand : jsstring :=
  u "tmux capture-pane -t " ++ sessionName ++ u " -p".

Definition quoted (keys : jsstring) : jsstring := u "'" ++ keys ++ u "'".

(** [exec] of a [send-keys] command: the error message, if any. *)
Definition execSend (keys : jsstring) (w : World) : option jsstring * World :=
  let w1 := act (Exec (sendKeysCommand keys)) w in
  match sendScript w with
  | r :: rest =>
    (r, {| captureScript := captureScript w1; sendScript := rest;
           logScript := logScript w1; trace := trace w1 |})
  | [] => (None, w1)
  end.

(** [getCaptureOutput()]: [Some output] for [{ success: true, output }],
    [None] for [{ success: false, error }]. *)
Definition getCaptureOutput (w : World) : option jsstring * World :=
  let w1 := act (Exec captureCommand) w in
  match captureScript w with
  | r :: rest =>
    (r, {| captureScript := rest; sendScript := sendScript w1;
           logScript := logScript w1; trace := trace w1 |})
  | [] => (None, w1)
  end.

Definition maxAttempts : nat := 8.

(** How the awaited promise of an option key ends: the key is sent and, only
    when that succeeded, Enter is sent after 300 ms and the promise is
    resolved; when the key could not be sent nothing resolves the promise. *)
Definition sendOptionThenEnter (key : jsstring) (w : World) : bool * World :=
  let '(error, w1) := execSend (quoted key) w in
  match error with
  | Some _ => (false, w1)
  | None =>
    let '(_, w2) := execSend (quoted (u "Enter")) (sleep 300 w1) in
    (true, w2)
  end.

(** How a run of the loop ends: it returns after a number of attempts, or it
    stays suspended on a promise that is never resolved. *)
Inductive LoopEnd : Type :=
| Exited : nat -> LoopEnd
| Suspended : nat -> LoopEnd.

Definition s_proceed : jsstring := Eval vm_compute in u "Do you want to proceed?".
Definition s_yes1 : jsstring := Eval vm_compute in u "1. Yes".
Definition s_yes2 : jsstring :=
  Eval vm_compute in u "2. Yes, and don't ask again".

Definition isMultiOption (output : jsstring) : bool :=
  includes s_proceed output
  && (includes s_yes1 output || includes s_yes2 output).

Definition isSingleOption (output : jsstring) : bool :=
  includes (u "â¯ 1. Yes") output || includes (u "â–· 1. Yes") output.

Definition isYesNo (output : jsstring) : bool :=
  includes (u "(y/n)") output || includes (u "[Y/n]") output
  || includes (u "[y/N]") output.

Definition isEnterPrompt (output : jsstring) : bool :=
  includes (u "Press Enter to continue") output
  || includes (u "Enter to confirm") output
  || includes (u "Press Enter") output.

Definition isExecuting (output : jsstring) : bool :=
  includes (u "Claudingâ€¦") output || includes (u "Waitingâ€¦") output
  || includes (u "Processingâ€¦") output || includes (u "Workingâ€¦") output.

Definition isIdlePrompt (output : jsstring) : bool :=
  (includes (u "â”‚ >") output || includes (u "> ") output)
  && negb (includes s_proceed output)
  && negb (includes s_yes1 output)
  && negb (includes (u "(y/n)") output).

Definition isErrorOutput (output : jsstring) : bool :=
  includes (u "Error:") output || includes (u "error:") output
  || includes (u "failed") output.

(** The loop of [handleConfirmations]: [remaining] is
    [maxAttempts - attempts], so the loop condition holds exactly when
    [remaining] is not zero. *)
Fixpoint confirmLoop (remaining attempts : nat) (w : World) : LoopEnd * World :=
  match remaining with
  | O => (Exited attempts, w)
  | S remaining' =>
    let attempts := S attempts in
    let '(capture, w1) := getCaptureOutput (sleep 1500 w) in
    match capture with
    | None => (Exited attempts, w1)
    | Some output =>
      if isMultiOption output then
        match sendOptionThenEnter (u "2") w1 with
        | (true, w2) => confirmLoop remaining' attempts (sleep 2000 w2)
        | (false, w2) => (Suspended attempts, w2)
        end
      else if isSingleOption output then
        match sendOptionThenEnter (u "1") w1 with
        | (true, w2) => confirmLoop remaining' attempts w2
        | (false, w2) => (Suspended attempts, w2)
        end
      else if isYesNo output then
        match sendOptionThenEnter (u "y") w1 with
        | (true, w2) => confirmLoop remaining' attempts w2
        | (false, w2) => (Suspended attempts, w2)
        end
      else if isEnterPrompt output then
        let '(_, w2) := execSend (quoted (u "Enter")) w1 in
        confirmLoop remaining' attempts w2
      else if isExecuting output then confirmLoop remaining' attempts w1
      else if isIdlePrompt output then (Exited attempts, w1)
      else if isErrorOutput output then (Exited attempts, w1)
      else if attempts <? maxAttempts
      then confirmLoop remaining' attempts (sleep 2000 w1)
      else confirmLoop remaining' attempts w1
    end
  end.

(** [handleConfirmations()]: the loop, then the final state check. *)
Definition handleConfirmations (w : World) : LoopEnd * World :=
  match confirmLoop maxAttempts 0 w with
  | (Exited n, w1) =>
    let '(_, w2) := getCaptureOutput w1 in (Exited n, w2)
  | (Suspended n, w1) => (Suspended n, w1)
  end.

(** The value [injectCommand] resolves with. *)
Record InjectResult : Type := {
  success : bool;
  error : option jsstring
}.

(** JS: command.replace(/'/g, ...): every single quote becomes the five
    units quote, double quote, quote, double quote, quote. *)
Fixpoint escapeQuotes (command : jsstring) : jsstring :=
  match command with
  | [] => []
  | c :: rest =>
    if (c =? 39)%N then [39; 34; 39; 34; 39]%N ++ escapeQuotes rest
    else c :: escapeQuotes rest
  end.

(** [logInjection(command)]: the line for the command is appended to the log
    file; when [fs.appendFileSync] throws, the error is caught and only a
    warning is given, so that nothing is written and the caller goes on. *)
Definition logInjection (command : jsstring) (w : World) : World :=
  match logScript w with
  | Some _ :: rest =>
    {| captureScript := captureScript w; sendScript := sendScript w;
       logScript := rest; trace := trace w |}
  | None :: rest =>
    {| captureScript := captureScript w; sendScript := sendScript w;
       logScript := rest; trace := trace w ++ [LogInjection command] |}
  | [] => act (LogInjection command) w
  end.

(** [injectCommand(command)]: the value the promise resolves with, or [None]
    when it is never resolved. *)
Definition injectCommand (command : jsstring) (w : World)
  : option InjectResult * World :=
  let '(clearError, w1) := execSend (u "C-u") w in
  match clearError with
  | Some msg => (Some {| success := false; error := Some msg |}, w1)
  | None =>
    let '(sendError, w2) :=
      execSend (quoted (escapeQuotes command)) (sleep 200 w1) in
    match sendError with
    | Some msg => (Some {| success := false; error := Some msg |}, w2)
    | None =>
      let '(enterError, w3) := execSend (u "C-m") (sleep 200 w2) in
      match enterError with
      | Some msg => (Some {| success := false; error := Some msg |}, w3)
      | None =>
        let '(_, w4) := getCaptureOutput (sleep 1000 w3) in
        match handleConfirmations w4 with
        | (Exited _, w5) =>
          (Some {| success := true; error := None |},
           logInjection command w5)
        | (Suspended _, w5) => (None, w5)
        end
      end
    end
  end.

End WithSession.

End Injector.

(* ================================================================== *)
(** ** The execution trace *)
(* ================================================================== *)

Module Trace.
Import JS Regex Monitor.

Definition s_record : jsstring := Eval vm_compute in u "⏺".
Definition s_recordSpace : jsstring := Eval vm_compute in u "⏺ ".
Definition s_boxTopLeft : jsstring := Eval vm_compute in u "╭─".
Definition s_boxTopRight : jsstring := Eval vm_compute in u "─╮".

(** JS: /^│\s*›\s*│$/ *)
Definition re_emptyPromptBox : regex :=
  seq [Bol false; Chr c_bar; Rep isSpace; Chr c_prompt; Rep isSpace;
       Chr c_bar; Eol false].

(** The backward loop of [_filterByTimestamp]: the index of the last prompt
    line whose trimmed text has more than two units. *)
Fixpoint findUserInputDown (lines : list jsstring) (n : nat) : option nat :=
  match n with
  | O => None
  | S i =>
    let line := nth i lines [] in
    if _isPromptLine line && (2 <? length (trim line)) then Some i
    else findUserInputDown lines i
  end.

(** [_filterByTimestamp(content)]; the second parameter is not used by the
    source. *)
Definition _filterByTimestamp (content : jsstring) : jsstring :=
  let lines := split LF content in
  match findUserInputDown lines (length lines) with
  | Some lastUserInputIndex => join LF (skipn lastUserInputIndex lines)
  | None => join LF (sliceLast 100 lines)
  end.

(** The backward loop of [_cleanExecutionTrace] that finds where the last
    response in the Claude format starts. *)
Fixpoint findResponseStartDown (lines : list jsstring) (n : nat) : option nat :=
  match n with
  | O => None
  | S i =>
    if startsWith s_recordSpace (nth i lines []) then Some i
    else findResponseStartDown lines i
  end.

(** [lastClaudeResponseStart !== -1 && i >= lastClaudeResponseStart] *)
Definition reachedResponse (lastClaudeResponseStart : option nat) (i : nat)
  : bool :=
  match lastClaudeResponseStart with
  | Some s => s <=? i
  | None => false
  end.

(** JS: line.trim() === '' *)
Definition isBlank (line : jsstring) : bool := negb (truthy (trim line)).

(** The forward loop of [_cleanExecutionTrace]: [i] is the index of the head
    of [ls], the two flags are those of the source, and the result is what
    is pushed to [cleanedLines] from here on. *)
Fixpoint cleanLoop (lastClaudeResponseStart : option nat) (i : nat)
  (inUserInput skipNextEmptyLine : bool) (ls : list jsstring)
  : list jsstring :=
  match ls with
  | [] => []
  | line :: rest =>
    if reachedResponse lastClaudeResponseStart i then []
    else if _isPromptLine line
    then cleanLoop lastClaudeResponseStart (S i) true true rest
    else if inUserInput && negb (isBlank line || startsWith s_record line)
    then cleanLoop lastClaudeResponseStart (S i) inUserInput skipNextEmptyLine
           rest
    else if inUserInput && (skipNextEmptyLine && isBlank line)
    then cleanLoop lastClaudeResponseStart (S i) false false rest
    else if includes s_boxTopLeft line && includes s_boxTopRight line then []
    else if test re_emptyPromptBox line then []
    else line :: cleanLoop lastClaudeResponseStart (S i) false
                   skipNextEmptyLine rest
  end.

(** The loop that shifts the blank lines off the front of an array. *)
Fixpoint dropBlankLines (ls : list jsstring) : list jsstring :=
  match ls with
  | [] => []
  | l :: rest => if isBlank l then dropBlankLines rest else ls
  end.

(** The array [cleanedLines] when [_cleanExecutionTrace] joins it: the lines
    pushed by the loop, without the blank ones at the beginning and at the
    end. *)
Definition cleanedLines (trace : jsstring) : list jsstring :=
  let lines := split LF trace in
  let lastClaudeResponseStart := findResponseStartDown lines (length lines) in
  let pushed := cleanLoop lastClaudeResponseStart 0 false false lines in
  rev (dropBlankLines (rev (dropBlankLines pushed))).

(** [_cleanExecutionTrace(trace)] *)
Definition _cleanExecutionTrace (trace : jsstring) : jsstring :=
  join LF (cleanedLines trace).

(** What [getFullExecutionTrace] reads: the capture file of the session
    ([None] when it does not exist, [Some None] when reading it throws) and
    the answer of [tmux capture-pane -S -1000] ([None] when it fails). *)
Record Store : Type := {
  captureFile : option (option jsstring);
  tmuxBuffer : option jsstring
}.

(** [getFullTraceFromTmuxBuffer(sessionName)] *)
Definition getFullTraceFromTmuxBuffer (e : Store) : jsstring :=
  match tmuxBuffer e with
  | Some buffer => buffer
  | None => []
  end.

(** [getFullExecutionTrace(sessionName)] *)
Definition getFullExecutionTrace (e : Store) : jsstring :=
  match captureFile e with
  | None =>
    _cleanExecutionTrace (_filterByTimestamp (getFullTraceFromTmuxBuffer e))
  | Some (Some content) => _cleanExecutionTrace (_filterByTimestamp content)
  | Some None => []
  end.

End Trace.

(* ================================================================== *)
(** ** The complete injection workflow *)
(* ================================================================== *)

Module Workflow.
Import JS Injector.

(** What a call gives: the value it returns, or the message of the error it
    throws. *)
Inductive Completion (A : Type) : Type :=
| Returns : A -> Completion A
| Throws : jsstring -> Completion A.

Arguments Returns {A} _.
Arguments Throws {A} _.

(** What the workflow finds on the machine: whether [which tmux] and
    [tmux has-session] succeed, the error message of [tmux new-session] if
    it fails, what [process.cwd()] gives (it throws when the working
    directory is gone) and the value of [CODEX_CLI_PATH] if it is set. *)
Record Host : Type := {
  tmuxAvailable : bool;
  sessionExists : bool;
  createError : option jsstring;
  workingDirectory : Completion jsstring;
  codexCliPath : option jsstring
}.

(** The object [injectCommandFull] returns: [{ success: true, message,
    session }] or [{ success: false, error, message }]. *)
Inductive FullResult : Type :=
| Success (message session : jsstring)
| Failure (error : jsstring) (message : option jsstring).

Definition s_whichTmux : jsstring := Eval vm_compute in u "which tmux".
Definition s_tmuxNotInstalled : jsstring :=
  Eval vm_compute in u "tmux_not_installed".
Definition s_needTmux : jsstring :=
  Eval vm_compute in u "Need to install tmux: brew install tmux".
Definition s_sessionCreationFailed : jsstring :=
  Eval vm_compute in u "session_creation_failed".
Definition s_injectionFailed : jsstring :=
  Eval vm_compute in u "injection_failed".
Definition s_unexpectedError : jsstring :=
  Eval vm_compute in u "unexpected_error".
Definition s_injected : jsstring :=
  Eval vm_compute in u "Command successfully injected into Codex tmux session".
Definition s_codex : jsstring := Eval vm_compute in u "codex".

Definition doubleQuote : char := 34%N.

(** The replacement made in the subtitle of the notification: every double
    quote gets a backslash before it. *)
Fixpoint escapeDoubleQuotes (text : jsstring) : jsstring :=
  match text with
  | [] => []
  | c :: rest =>
    if (c =? doubleQuote)%N then 92%N :: doubleQuote :: escapeDoubleQuotes rest
    else c :: escapeDoubleQuotes rest
  end.

(** The first thirty units of the command, with three dots when units were
    cut off. *)
Definition shortCommand (command : jsstring) : jsstring :=
  if 30 <? length command then firstn 30 command ++ u "..." else command.

(** The AppleScript of [sendSuccessNotification], a template literal over
    three lines. *)
Definition notificationScript (command : jsstring) : jsstring :=
  LF :: u "            display notification "
  ++ doubleQuote
     :: u "ðŸŽ‰ Command automatically injected into Codex! No manual operation needed"
  ++ doubleQuote :: u " with title "
  ++ doubleQuote :: u "TaskPing Remote Control Success"
  ++ doubleQuote :: u " subtitle "
  ++ doubleQuote :: escapeDoubleQuotes (shortCommand command)
  ++ doubleQuote :: u " sound name "
  ++ doubleQuote :: u "Glass"
  ++ doubleQuote :: LF :: u "        ".

Definition notificationCommand (command : jsstring) : jsstring :=
  u "osascript -e '" ++ notificationScript command ++ u "'".

(** [sendSuccessNotification(command)]: the command is handed to [exec] and
    its outcome is only logged. *)
Definition sendSuccessNotification (command : jsstring) (w : World) : World :=
  act (Exec (notificationCommand command)) w.

(** [_getCodexCliCommand()] *)
Definition _getCodexCliCommand (h : Host) : jsstring :=
  let cliPath :=
    match codexCliPath h with
    | Some p => orElse p s_codex
    | None => s_codex
    end in
  if includes (u " ") cliPath then doubleQuote :: cliPath ++ [doubleQuote]
  else cliPath.

Section WithSession.

Variable sessionName : jsstring.

Definition hasSessionCommand : jsstring :=
  u "tmux has-session -t " ++ sessionName ++ u " 2>/dev/null".

Definition newSessionCommand (directory : jsstring) (h : Host) : jsstring :=
  u "tmux new-session -d -s " ++ sessionName ++ u " -c "
  ++ doubleQuote :: directory
  ++ doubleQuote :: u " " ++ _getCodexCliCommand h.

(** [checkTmuxAvailable()] *)
Definition checkTmuxAvailable (h : Host) (w : World) : bool * World :=
  (tmuxAvailable h, act (Exec s_whichTmux) w).

(** [checkCodexSession()] *)
Definition checkCodexSession (h : Host) (w : World) : bool * World :=
  (sessionExists h, act (Exec hasSessionCommand) w).

(** [createCodexSession()]: how its promise ends.  It is resolved with
    [{ success: false, error }] ([Returns (Some error)]) or, three seconds
    after the session was created, with [{ success: true }]
    ([Returns None]); it is rejected ([Throws]) when its executor throws,
    which [process.cwd()] does, before any command is run, when the working
    directory is gone. *)
Definition createCodexSession (h : Host) (w : World)
  : Completion (option jsstring) * World :=
  match workingDirectory h with
  | Throws message => (Throws message, w)
  | Returns directory =>
    let w1 := act (Exec (newSessionCommand directory h)) w in
    match createError h with
    | Some msg => (Returns (Some msg), w1)
    | None => (Returns None, sleep 3000 w1)
    end
  end.

(** [injectCommandFull(token, command)]: the object returned, or [None]
    when the promise of [injectCommand] is never resolved.  The token is
    only logged.  The handler of the source's [try] is reached when an
    awaited promise is rejected, as that of [createCodexSession] is when
    [process.cwd()] throws.  The logger is taken to be one whose methods
    return, as those of [console], the default. *)
Definition injectCommandFull (h : Host) (command : jsstring) (w : World)
  : option FullResult * World :=
  let '(tmuxAvailable, w1) := checkTmuxAvailable h w in
  if negb tmuxAvailable
  then (Some (Failure s_tmuxNotInstalled (Some s_needTmux)), w1) else
  let '(sessionExists, w2) := checkCodexSession h w1 in
  let '(createResult, w3) :=
    if negb sessionExists then createCodexSession h w2
    else (Returns None, w2) in
  match createResult with
  | Throws message => (Some (Failure s_unexpectedError (Some message)), w3)
  | Returns (Some msg) =>
    (Some (Failure s_sessionCreationFailed (Some msg)), w3)
  | Returns None =>
    match injectCommand sessionName command w3 with
    | (None, w4) => (None, w4)
    | (Some injectResult, w4) =>
      if success injectResult
      then (Some (Success s_injected sessionName),
            sendSuccessNotification command w4)
      else (Some (Failure s_injectionFailed (error injectResult)), w4)
    end
  end.

End WithSession.

End Workflow.

(* ================================================================== *)
(** ** The text put into the notification mail *)
(* ================================================================== *)

Module Email.
Import JS.

Definition ampersand : char := 38%N.
Definition lessThan : char := 60%N.
Definition greaterThan : char := 62%N.
Definition doubleQuote : char := 34%N.
Definition singleQuote : char := 39%N.

(** JS: htmlEntities[char] *)
Definition htmlEntities (c : char) : option jsstring :=
  if (c =? ampersand)%N then Some (u "&amp;")
  else if (c =? lessThan)%N then Some (u "&lt;")
  else if (c =? greaterThan)%N then Some (u "&gt;")
  else if (c =? doubleQuote)%N then Some (u "&quot;")
  else if (c =? singleQuote)%N then Some (u "&#39;")
  else None.

(** [_escapeHtml(text)]: every unit of the class of the five characters is
    replaced by its entity; an absent or empty text gives the empty
    string. *)
Fixpoint _escapeHtml (text : jsstring) : jsstring :=
  match text with
  | [] => []
  | c :: rest =>
    match htmlEntities c with
    | Some entity => entity ++ _escapeHtml rest
    | None => c :: _escapeHtml rest
    end
  end.

End Email.

(* ================================================================== *)
(** ** Facts about strings *)
(* ================================================================== *)

Section StringFacts.
Import JS.





End StringFacts.

(* ================================================================== *)
(** ** Facts about trimming and matching *)
(* ================================================================== *)

Section TrimFacts.
Import JS.

Lemma dropWhile_head :
  forall p s c r, dropWhile p s = c :: r -> p c = false.
Proof.
  induction s as [|x s IH]; intros c r H; simpl in H; [discriminate|].
  destruct (p x) eqn:E; [eauto|]. injection H as -> _. exact E.
Qed.

Lemma dropWhile_stop :
  forall p c r, p c = false -> dropWhile p (c :: r) = c :: r.
Proof. intros p c r H. simpl. now rewrite H. Qed.

Lemma dropWhile_skip :
  forall p c r, p c = true -> dropWhile p (c :: r) = dropWhile p r.
Proof. intros p c r H. simpl. now rewrite H. Qed.

Lemma dropWhile_idem :
  forall p s, dropWhile p (dropWhile p s) = dropWhile p s.
Proof.
  intros p s. destruct (dropWhile p s) as [|c r] eqn:E; [reflexivity|].
  apply dropWhile_stop. eapply dropWhile_head; eassumption.
Qed.

Lemma dropWhile_snoc :
  forall p a c, p c = false -> dropWhile p (a ++ [c]) = dropWhile p a ++ [c].
Proof.
  induction a as [|x a IH]; intros c H; simpl.
  - now rewrite H.
  - destruct (p x); [now apply IH | reflexivity].
Qed.

Lemma dropWhile_all :
  forall p s, Forall (fun c => p c = true) s -> dropWhile p s = [].
Proof.
  induction s as [|x s IH]; intros H; [reflexivity|].
  inversion H; subst. simpl. rewrite H2. now apply IH.
Qed.

Lemma trimEnd_cons :
  forall c s, isSpace c = false -> trimEnd (c :: s) = c :: trimEnd s.
Proof.
  intros c s H. unfold trimEnd. simpl rev.
  rewrite dropWhile_snoc by exact H. rewrite rev_app_distr. reflexivity.
Qed.

(** A string as [trim] leaves it when something is left: not empty, and
    with no white space at either end. *)
Definition trimmed (s : jsstring) : Prop :=
  exists c r, s = c :: r /\ isSpace c = false /\ trimEnd s = s.

Lemma trim_trimmed : forall s, truthy (trim s) = true -> trimmed (trim s).
Proof.
  intros s H. unfold trim, trimStart in *.
  destruct (dropWhile isSpace s) as [|c r] eqn:E; [discriminate H|].
  assert (Hc : isSpace c = false) by (eapply dropWhile_head; eassumption).
  exists c, (trimEnd r). rewrite trimEnd_cons by exact Hc.
  split; [reflexivity|]. split; [exact Hc|].
  rewrite <- (trimEnd_cons c r Hc). unfold trimEnd.
  rewrite rev_involutive, dropWhile_idem. reflexivity.
Qed.

Lemma trimmed_trim : forall s, trimmed s -> trim s = s.
Proof.
  intros s (c & r & -> & Hc & He). unfold trim, trimStart.
  rewrite dropWhile_stop by exact Hc. exact He.
Qed.

Lemma trimmed_truthy : forall s, trimmed s -> truthy s = true.
Proof. intros s (c & r & -> & _). reflexivity. Qed.

Lemma trimEnd_app_trimmed :
  forall a b, trimmed b -> trimEnd (a ++ b) = a ++ b.
Proof.
  intros a b (c & r & -> & Hc & He). unfold trimEnd in *.
  rewrite rev_app_distr.
  destruct (rev (c :: r)) as [|y t] eqn:E.
  - apply (f_equal (@rev char)) in E. rewrite rev_involutive in E. discriminate.
  - simpl app. destruct (isSpace y) eqn:Ey.
    + exfalso. simpl in He. rewrite Ey in He.
      apply (f_equal (@length char)) in He. rewrite length_rev in He.
      assert (L : length (dropWhile isSpace t) <= length t).
      { clear. induction t as [|x t IH]; simpl; [lia|].
        destruct (isSpace x); simpl; lia. }
      assert (L2 : length (c :: r) = length (y :: t)).
      { rewrite <- E. now rewrite length_rev. }
      simpl in L2. simpl in He. lia.
    + rewrite dropWhile_stop by exact Ey.
      change (y :: t ++ rev a) with ((y :: t) ++ rev a).
      rewrite <- E, <- rev_app_distr, rev_involutive. reflexivity.
Qed.

Lemma join_trimmed :
  forall ls, ls <> [] -> Forall trimmed ls -> trimmed (join LF ls).
Proof.
  induction ls as [|a ls IH]; intros Hne H; [contradiction|].
  inversion H as [|? ? Ha Hls]; subst. destruct ls as [|b ls].
  - exact Ha.
  - assert (T : trimmed (join LF (b :: ls))) by (apply IH; [discriminate | exact Hls]).
    destruct Ha as (c & r & -> & Hc & He).
    exists c, (r ++ LF :: join LF (b :: ls)).
    split; [reflexivity|]. split; [exact Hc|].
    set (J := join LF (b :: ls)) in *.
    change (join LF ((c :: r) :: b :: ls)) with ((c :: r) ++ LF :: J).
    replace ((c :: r) ++ LF :: J) with (((c :: r) ++ [LF]) ++ J)
      by (rewrite <- app_assoc; reflexivity).
    apply trimEnd_app_trimmed. exact T.
Qed.

End TrimFacts.

Section RegexFacts.
Import JS Regex.

(** The unit before the position reached by skipping the longest run of
    units of a class. *)
Fixpoint skipPrev (p : char -> bool) (prev : option char) (s : jsstring)
  : option char :=
  match s with
  | c :: r => if p c then skipPrev p (Some c) r else prev
  | [] => prev
  end.

(** A greedy repetition followed by something that cannot start with a unit
    of the class takes the whole run. *)
Lemma rep_greedy :
  forall p (k : cont),
    (forall pv c r, p c = true -> k (pv, c :: r) = None) ->
    forall s prev, rep p k prev s = k (skipPrev p prev s, dropWhile p s).
Proof.
  intros p k Hk. induction s as [|c r IH]; intros prev; simpl; [reflexivity|].
  destruct (p c) eqn:E; [|reflexivity].
  rewrite IH.
  destruct (k (skipPrev p (Some c) r, dropWhile p r));
    [reflexivity | exact (Hk prev c r E)].
Qed.

(** A greedy repetition followed by something that always succeeds takes
    the whole run. *)
Lemma rep_accepting :
  forall p (k : cont),
    (forall x, k x <> None) ->
    forall s prev, rep p k prev s = k (skipPrev p prev s, dropWhile p s).
Proof.
  intros p k Hk. induction s as [|c r IH]; intros prev; simpl; [reflexivity|].
  destruct (p c) eqn:E; [|reflexivity].
  rewrite IH. destruct (k (skipPrev p (Some c) r, dropWhile p r)) eqn:F;
    [reflexivity | exfalso; eapply Hk; exact F].
Qed.

(** An expression anchored at the start of the input matches nowhere else. *)
Lemma searchFrom_anchored :
  forall r i c s, searchFrom (Cat (Bol false) r) i (Some c) s = None.
Proof.
  intros r i c s. revert i c. induction s as [|x s IH]; intros i c; simpl.
  - reflexivity.
  - apply IH.
Qed.

Lemma search_anchored :
  forall r s,
    search (Cat (Bol false) r) s
    = match run r Some (None, s) with
      | Some (_, rest) => Some (0, rest)
      | None => None
      end.
Proof.
  intros r s. unfold search.
  assert (E : run (Cat (Bol false) r) Some (None, s) = run r Some (None, s))
    by reflexivity.
  destruct s as [|c s]; cbn [searchFrom]; rewrite E;
    destruct (run r Some (None, _)) as [[pv rest]|]; try reflexivity.
  apply searchFrom_anchored.
Qed.

(** The class an expression must begin with, when it is written as a
    sequence that starts with a class. *)
Fixpoint firstClass (r : regex) : option (char -> bool) :=
  match r with
  | Cls p => Some p
  | Cat a _ => firstClass a
  | _ => None
  end.

Lemma run_needs_first :
  forall r p, firstClass r = Some p ->
    forall (k : cont) (pv : option char) (s : jsstring),
      match s with [] => True | c :: _ => p c = false end ->
      run r k (pv, s) = None.
Proof.
  induction r as [|q|a IHa b IHb|a IHa b IHb|q|ml|ml]; intros p H k pv s Hs;
    try discriminate H.
  - injection H as ->. cbn [run snd]. destruct s as [|c s]; [reflexivity|].
    now rewrite Hs.
  - cbn [firstClass] in H. cbn [run]. now apply (IHa p H).
Qed.



Lemma replaceAllFrom_needs_unit :
  forall r p, firstClass r = Some p ->
    forall (s : jsstring) prev,
      Forall (fun c => p c = false) s ->
      replaceAllFrom r prev s 0 = s.
Proof.
  intros r p H. induction s as [|c s IH]; intros prev Hs; cbn [replaceAllFrom].
  - reflexivity.
  - inversion Hs as [|? ? Hc Hs']; subst.
    rewrite (run_needs_first r p H Some prev (c :: s) Hc). f_equal. now apply IH.
Qed.








End RegexFacts.

(* ================================================================== *)
(** ** Prompt lines *)
(* ================================================================== *)

Section PromptFacts.
Import JS Regex Monitor.

(** What is left of a line once leading white space, at most one border
    glyph and the white space after it are dropped. *)
Definition afterBorder (line : jsstring) : jsstring :=
  match dropWhile isSpace line with
  | c :: r => if border c then dropWhile isSpace r else c :: r
  | [] => []
  end.

(** The text of a prompt line, in the words of the specification: the line
    with its leading border glyph, its marker glyph and the white space
    around them removed.  A line that does not begin in this way is left as
    it is. *)
Definition stripPromptMarker (line : jsstring) : jsstring :=
  match afterBorder line with
  | c :: r => if (c =? c_prompt)%N then dropWhile isSpace r else line
  | [] => line
  end.

Definition promptText (line : jsstring) : jsstring :=
  trim (stripPromptMarker (trim line)).

Lemma space_not_border : forall c, isSpace c = true -> border c = false.
Proof.
  intros c H. destruct (border c) eqn:B; [|reflexivity].
  unfold border in B. apply orb_true_iff in B.
  destruct B as [B|B]; apply N.eqb_eq in B; subst c; discriminate H.
Qed.

Lemma space_not_prompt : forall c, isSpace c = true -> (c_prompt =? c)%N = false.
Proof.
  intros c H. destruct (c_prompt =? c)%N eqn:B; [|reflexivity].
  apply N.eqb_eq in B. subst c. discriminate H.
Qed.

Lemma border_not_prompt : forall c, border c = true -> (c_prompt =? c)%N = false.
Proof.
  intros c H. destruct (c_prompt =? c)%N eqn:B; [|reflexivity].
  apply N.eqb_eq in B. subst c. discriminate H.
Qed.

Lemma marker_rejects_space :
  forall (k : cont) pv c r,
    isSpace c = true -> run (Chr c_prompt) k (pv, c :: r) = None.
Proof.
  intros k pv c r H. unfold Chr. cbn [run snd].
  now rewrite (space_not_prompt c H).
Qed.

Lemma optBorder_marker_rejects_space :
  forall (k : cont) pv c r,
    isSpace c = true ->
    run optBorder (run (Chr c_prompt) k) (pv, c :: r) = None.
Proof.
  intros k pv c r H. unfold optBorder, Opt, Chr. cbn [run fst snd].
  now rewrite (space_not_border c H), (space_not_prompt c H).
Qed.

(** The common head of the prompt expressions: white space, an optional
    border, the marker; then whatever follows the marker. *)
Lemma promptHead_run :
  forall (k : cont) t,
    rep isSpace (run optBorder (run (Chr c_prompt) k)) None t
    = match afterBorder t with
      | c :: r => if (c_prompt =? c)%N then k (Some c, r) else None
      | [] => None
      end.
Proof.
  intros k t.
  rewrite rep_greedy
    by (intros pv c r H; exact (optBorder_marker_rejects_space k pv c r H)).
  unfold afterBorder.
  destruct (dropWhile isSpace t) as [|c r] eqn:E; [reflexivity|].
  set (pv := skipPrev isSpace None t).
  unfold optBorder, Opt, Chr. cbn [run fst snd].
  destruct (border c) eqn:B.
  - rewrite rep_greedy
      by (intros pv' c' r' H'; exact (marker_rejects_space k pv' c' r' H')).
    rewrite (border_not_prompt c B).
    unfold Chr. cbn [run fst snd].
    destruct (dropWhile isSpace r) as [|c' r']; [reflexivity|].
    destruct (c_prompt =? c')%N; [|reflexivity].
    destruct (k (Some c', r')); reflexivity.
  - reflexivity.
Qed.

Lemma plus_space_run :
  forall (k : cont) pv s,
    run (Plus isSpace) k (pv, s)
    = match s with
      | d :: r => if isSpace d then rep isSpace k (Some d) r else None
      | [] => None
      end.
Proof. intros k pv s. destruct s; reflexivity. Qed.

Lemma test_promptLine :
  forall t,
    test re_promptLine t
    = match afterBorder t with
      | c :: d :: r =>
        (c_prompt =? c)%N && isSpace d
        && match dropWhile isSpace r with [] => false | _ :: _ => true end
      | _ => false
      end.
Proof.
  intros t. unfold test, re_promptLine. cbn [seq]. rewrite search_anchored.
  change (run (Cat (Rep isSpace) (Cat optBorder (Cat (Chr c_prompt)
            (Cat (Plus isSpace) (Cls nonSpace))))) Some (None, t))
    with (rep isSpace (run optBorder (run (Chr c_prompt)
            (run (Plus isSpace) (run (Cls nonSpace) Some)))) None t).
  rewrite promptHead_run.
  destruct (afterBorder t) as [|c [|d r]]; [reflexivity| |].
  - destruct (c_prompt =? c)%N; reflexivity.
  - destruct (c_prompt =? c)%N; [|reflexivity].
    rewrite plus_space_run. destruct (isSpace d); [|reflexivity].
    rewrite rep_greedy.
    + cbn [run snd andb].
      destruct (dropWhile isSpace r) as [|e r'] eqn:E; [reflexivity|].
      unfold nonSpace. rewrite (dropWhile_head isSpace r e r' E). reflexivity.
    + intros pv x y Hx. cbn [run snd]. unfold nonSpace. now rewrite Hx.
Qed.

Lemma replace_promptPrefix :
  forall t,
    replaceFirst re_promptPrefix t
    = match afterBorder t with
      | c :: d :: r =>
        if (c_prompt =? c)%N && isSpace d then dropWhile isSpace r else t
      | _ => t
      end.
Proof.
  intros t. unfold replaceFirst, re_promptPrefix. cbn [seq].
  rewrite search_anchored.
  change (run (Cat (Rep isSpace) (Cat optBorder (Cat (Chr c_prompt)
            (Plus isSpace)))) Some (None, t))
    with (rep isSpace (run optBorder (run (Chr c_prompt)
            (run (Plus isSpace) Some))) None t).
  rewrite promptHead_run.
  destruct (afterBorder t) as [|c [|d r]]; [reflexivity| |].
  - destruct (c_prompt =? c)%N; reflexivity.
  - destruct (c_prompt =? c)%N; [|reflexivity].
    rewrite plus_space_run. destruct (isSpace d); [|reflexivity].
    rewrite rep_accepting by discriminate. reflexivity.
Qed.

(** On a line the prompt expression matches, removing the prompt prefix is
    removing border and marker. *)
Lemma replace_promptPrefix_on_prompt :
  forall t,
    test re_promptLine t = true ->
    replaceFirst re_promptPrefix t = stripPromptMarker t
    /\ truthy (trim (stripPromptMarker t)) = true.
Proof.
  intros t H. rewrite test_promptLine in H. rewrite replace_promptPrefix.
  unfold stripPromptMarker.
  destruct (afterBorder t) as [|c [|d r]]; try discriminate H.
  apply andb_true_iff in H as [H H3]. apply andb_true_iff in H as [H1 H2].
  rewrite H1, H2. rewrite N.eqb_sym, H1. simpl andb. cbv iota.
  rewrite (dropWhile_skip isSpace d r H2).
  split; [reflexivity|].
  destruct (dropWhile isSpace r) as [|e r'] eqn:E; [discriminate H3|].
  unfold trim, trimStart. rewrite <- E, dropWhile_idem, E.
  rewrite trimEnd_cons by (eapply dropWhile_head; exact E). reflexivity.
Qed.

(** A text without the escape unit has no colour sequence to strip. *)
Lemma stripAnsi_plain : forall t, ~ In ESC t -> _stripAnsi t = t.
Proof.
  intros t H. unfold _stripAnsi, replaceAll, re_ansi.
  apply (replaceAllFrom_needs_unit re_ansi (N.eqb ESC) eq_refl).
  apply Forall_forall. intros c Hc. apply N.eqb_neq. intros E. subst c.
  exact (H Hc).
Qed.

End PromptFacts.

(* ================================================================== *)
(** ** Conversation extraction *)
(* ================================================================== *)

Section ExtractionFacts.
Import JS Regex Monitor.

(** The classification of a line of a buffer, as the extraction loops make
    it on the trimmed line. *)
Definition isPromptText (l : jsstring) : bool := _isPromptLine (trim l).

Definition isContent (l : jsstring) : bool :=
  truthy (trim l) && negb (_isPromptLine (trim l))
  && negb (_isPromptOnlyLine (trim l)) && negb (isUiLine (trim l)).

(** The content lines of a block, trimmed, in order. *)
Definition contentLines (ls : list jsstring) : list jsstring :=
  map trim (filter isContent ls).

(** [l] is the most recent prompt line of [lines]: [pre] comes before it
    and [post], without a prompt line, after it. *)
Definition locatedPrompt (lines pre : list jsstring) (l : jsstring)
  (post : list jsstring) : Prop :=
  lines = pre ++ l :: post
  /\ isPromptText l = true
  /\ Forall (fun x => isPromptText x = false) post.

(** The lookback window of [_extractRecentConversation]: the last 200 lines
    of the capture, or of the output buffer when the capture is empty. *)
Definition recentLines (m : Monitor) (fullContent : jsstring) : list jsstring :=
  sliceLast 200 (split LF (orElse fullContent (join LF (outputBuffer m)))).

Lemma findPromptDown_located :
  forall lines pre l post,
    locatedPrompt lines pre l post ->
    findPromptDown lines (length lines) = Some (length pre, trim l).
Proof.
  intros lines pre l post (-> & Hl & Hpost).
  assert (G : forall k, k <= length post ->
            findPromptDown (pre ++ l :: post) (length pre + 1 + k)
            = Some (length pre, trim l)).
  { induction k as [|k IH]; intros Hk.
    - replace (length pre + 1 + 0) with (S (length pre)) by lia.
      cbn [findPromptDown]. rewrite nth_middle.
      unfold isPromptText in Hl. rewrite Hl. reflexivity.
    - replace (length pre + 1 + S k) with (S (length pre + 1 + k)) by lia.
      cbn [findPromptDown].
      rewrite app_nth2 by lia.
      replace (length pre + 1 + k - length pre) with (S k) by lia.
      cbn [nth].
      assert (Hn : isPromptText (nth k post []) = false).
      { rewrite Forall_forall in Hpost. apply Hpost. apply nth_In. lia. }
      unfold isPromptText in Hn. rewrite Hn. apply IH. lia. }
  replace (length (pre ++ l :: post)) with (length pre + 1 + length post)
    by (rewrite length_app; simpl; lia).
  apply G. lia.
Qed.

Lemma skipn_located :
  forall pre (l : jsstring) post, skipn (length pre + 1) (pre ++ l :: post) = post.
Proof.
  intros pre l post. replace (length pre + 1) with (length (pre ++ [l]))
    by (rewrite length_app; reflexivity).
  change (l :: post) with ([l] ++ post). rewrite app_assoc.
  rewrite skipn_app, skipn_all, Nat.sub_diag. reflexivity.
Qed.

Lemma collectResponse_without_prompt :
  forall post,
    Forall (fun x => isPromptText x = false) post ->
    collectResponse post = contentLines post.
Proof.
  induction post as [|x post IH]; intros H; [reflexivity|].
  inversion H as [|? ? Hx Hp]; subst. specialize (IH Hp).
  unfold contentLines in *. cbn [collectResponse filter].
  unfold isContent, isPromptText in *. rewrite Hx.
  destruct (truthy (trim x)); cbn [negb andb]; [|exact IH].
  destruct (_isPromptOnlyLine (trim x)); cbn [negb andb]; [exact IH|].
  destruct (isUiLine (trim x)); cbn [negb andb map]; [exact IH|].
  now rewrite IH.
Qed.

Lemma contentLines_trimmed : forall ls, Forall trimmed (contentLines ls).
Proof.
  intros ls. unfold contentLines. apply Forall_forall. intros x Hx.
  apply in_map_iff in Hx as [y [<- Hy]]. apply filter_In in Hy as [_ Hy].
  apply trim_trimmed. unfold isContent in Hy.
  destruct (truthy (trim y)); [reflexivity | discriminate Hy].
Qed.

(** The response built from a block of lines: the joined content lines, or
    the sentinel when there are none. *)
Lemma response_of_content :
  forall ls sentinel,
    orElse (trim (join LF (contentLines ls))) sentinel
    = match contentLines ls with
      | [] => sentinel
      | _ :: _ => join LF (contentLines ls)
      end.
Proof.
  intros ls sentinel. destruct (contentLines ls) as [|a r] eqn:E; [reflexivity|].
  assert (T : trimmed (join LF (a :: r))).
  { apply join_trimmed; [discriminate|]. rewrite <- E. apply contentLines_trimmed. }
  rewrite (trimmed_trim _ T). unfold orElse. now rewrite (trimmed_truthy _ T).
Qed.

Lemma In_skipn : forall (A : Type) n (l : list A) x, In x (skipn n l) -> In x l.
Proof.
  intros A n l x H. rewrite <- (firstn_skipn n l). apply in_or_app. now right.
Qed.

(** The second pass of [_extractRecentConversation] over the tail finds
    nothing the first pass did not find. *)
Lemma fallbackLines_empty :
  forall post n,
    Forall (fun x => isPromptText x = false) post ->
    contentLines post = [] ->
    filter (fun line => truthy line && negb (isUiLine line)
                        && negb (_isPromptOnlyLine line))
      (map trim (skipn n post)) = [].
Proof.
  intros post n Hp Hc.
  assert (A : forall x, In x post -> isContent x = false).
  { intros x Hx. destruct (isContent x) eqn:E; [|reflexivity].
    assert (I : In (trim x) (contentLines post)).
    { unfold contentLines. apply in_map. apply filter_In. now split. }
    rewrite Hc in I. contradiction. }
  destruct (filter _ (map trim (skipn n post))) as [|y ys] eqn:F; [reflexivity|].
  exfalso.
  assert (I : In y (filter (fun line => truthy line && negb (isUiLine line)
                              && negb (_isPromptOnlyLine line))
                      (map trim (skipn n post)))) by (rewrite F; now left).
  apply filter_In in I as [I1 I2]. apply in_map_iff in I1 as [x [<- Hx]].
  apply In_skipn in Hx.
  assert (Hn := A x Hx). rewrite Forall_forall in Hp. specialize (Hp x Hx).
  unfold isContent, isPromptText in *. rewrite Hp in Hn.
  destruct (truthy (trim x)); [|discriminate I2].
  destruct (isUiLine (trim x)); [discriminate I2|].
  destruct (_isPromptOnlyLine (trim x)); [discriminate I2 | discriminate Hn].
Qed.

Lemma In_dropWhile :
  forall p (s : jsstring) x, In x (dropWhile p s) -> In x s.
Proof.
  induction s as [|c s IH]; intros x H; [exact H|].
  simpl in H. destruct (p c); [right; now apply IH | exact H].
Qed.

Lemma In_trim : forall s x, In x (trim s) -> In x s.
Proof.
  intros s x H. unfold trim, trimEnd, trimStart in H.
  apply in_rev in H. apply In_dropWhile in H. apply in_rev in H.
  now apply In_dropWhile in H.
Qed.

(** The question taken from a prompt line without colour sequences. *)
Lemma question_of_prompt :
  forall l,
    isPromptText l = true -> ~ In ESC l ->
    trim (replaceFirst re_promptPrefix (trim l)) = promptText l
    /\ truthy (promptText l) = true.
Proof.
  intros l Hl He. unfold isPromptText, _isPromptLine in Hl.
  rewrite stripAnsi_plain in Hl by (intros I; apply He; now apply In_trim).
  destruct (replace_promptPrefix_on_prompt (trim l) Hl) as [R T].
  unfold promptText. rewrite R. split; [reflexivity | exact T].
Qed.

Lemma extractConversation_response :
  forall text pre l post,
    locatedPrompt (split LF text) pre l post ->
    claudeResponse (extractConversation text)
    = match contentLines post with
      | [] => s_noResponse
      | _ :: _ => join LF (contentLines post)
      end.
Proof.
  intros text pre l post H. unfold extractConversation.
  rewrite (findPromptDown_located _ _ _ _ H). destruct H as (E & _ & Hp).
  rewrite E, skipn_located, (collectResponse_without_prompt _ Hp).
  cbn [claudeResponse]. apply response_of_content.
Qed.

Lemma extractConversation_question :
  forall text pre l post,
    locatedPrompt (split LF text) pre l post -> ~ In ESC l ->
    userQuestion (extractConversation text) = promptText l.
Proof.
  intros text pre l post H He. unfold extractConversation.
  rewrite (findPromptDown_located _ _ _ _ H). destruct H as (_ & Hl & _).
  destruct (question_of_prompt l Hl He) as [Q T].
  cbn [userQuestion]. rewrite Q, T. unfold orElse. now rewrite T.
Qed.

Lemma extractRecent_response :
  forall m text pre l post,
    locatedPrompt (recentLines m text) pre l post ->
    claudeResponse (_extractRecentConversation m text)
    = match contentLines post with
      | [] => s_taskCompleted
      | _ :: _ => join LF (contentLines post)
      end.
Proof.
  intros m text pre l post H. unfold _extractRecentConversation.
  fold (recentLines m text).
  rewrite (findPromptDown_located _ _ _ _ H). destruct H as (E & _ & Hp).
  rewrite E, skipn_located, (collectResponse_without_prompt _ Hp).
  cbn [claudeResponse].
  destruct (contentLines post) as [|a r] eqn:C.
  - cbn [join trim trimStart trimEnd dropWhile rev truthy].
    replace (Nat.max (length pre + 1) (length (pre ++ l :: post) - 40))
      with (Nat.max (length pre + 1) (length (pre ++ l :: post) - 40)
            - (length pre + 1) + (length pre + 1)) by lia.
    rewrite <- skipn_skipn, skipn_located.
    rewrite (fallbackLines_empty _ _ Hp C). reflexivity.
  - rewrite <- C.
    assert (R := response_of_content post s_taskCompleted).
    rewrite C in R. rewrite C.
    assert (T : trimmed (join LF (a :: r))).
    { apply join_trimmed; [discriminate|]. rewrite <- C. apply contentLines_trimmed. }
    rewrite (trimmed_trim _ T), (trimmed_truthy _ T).
    unfold orElse. now rewrite (trimmed_truthy _ T).
Qed.

Lemma extractRecent_question :
  forall m text pre l post,
    locatedPrompt (recentLines m text) pre l post -> ~ In ESC l ->
    userQuestion (_extractRecentConversation m text) = promptText l.
Proof.
  intros m text pre l post H He. unfold _extractRecentConversation.
  fold (recentLines m text).
  rewrite (findPromptDown_located _ _ _ _ H). destruct H as (_ & Hl & _).
  destruct (question_of_prompt l Hl He) as [Q T].
  cbn [userQuestion]. rewrite Q. unfold orElse. now rewrite T.
Qed.

Lemma orElse_nonempty :
  forall x sentinel, sentinel <> [] -> orElse x sentinel <> [].
Proof.
  intros x sentinel H. unfold orElse. destruct x; [exact H | discriminate].
Qed.

(** What the extraction yields after a located prompt line, whatever the
    function and its window. *)
Lemma content_after_prompt :
  forall content tail,
    Forall (fun x => isContent x = true) content ->
    Forall (fun x => isPromptText x = false /\ isContent x = false) tail ->
    isPromptText (u "›") = false /\ isContent (u "›") = false ->
    Forall (fun x => isPromptText x = false) (content ++ u "›" :: tail)
    /\ contentLines (content ++ u "›" :: tail) = map trim content.
Proof.
  intros content tail Hc Ht [P1 P2]. split.
  - apply Forall_app. split.
    + eapply Forall_impl; [|exact Hc]. intros x Hx. unfold isContent, isPromptText in *.
      destruct (truthy (trim x)); [|discriminate Hx].
      destruct (_isPromptLine (trim x)); [discriminate Hx | reflexivity].
    + constructor; [exact P1|]. eapply Forall_impl; [|exact Ht]. now intros x [Hx _].
  - unfold contentLines. rewrite filter_app. cbn [filter]. rewrite P2.
    assert (F1 : filter isContent content = content).
    { clear -Hc. induction Hc as [|x c Hx Hc IH]; [reflexivity|].
      cbn [filter]. now rewrite Hx, IH. }
    assert (F2 : filter isContent tail = []).
    { clear -Ht. induction Ht as [|x c [_ Hx] Ht IH]; [reflexivity|].
      cbn [filter]. now rewrite Hx. }
    now rewrite F1, F2, app_nil_r.
Qed.

(** C2, the particular case.  A buffer that holds the line "› fix the
    bug", then content lines, then a bare "›" prompt, then nothing but
    blank or chrome lines, yields the question "fix the bug" and the joined
    content lines as a non-empty response. *)
Lemma fix_the_bug_buffers :
  forall text pre content tail,
    split LF text = pre ++ u "› fix the bug" :: content ++ u "›" :: tail ->
    content <> [] ->
    Forall (fun x => isContent x = true) content ->
    Forall (fun x => isPromptText x = false /\ isContent x = false) tail ->
    userQuestion (extractConversation text) = u "fix the bug"
    /\ claudeResponse (extractConversation text) = join LF (map trim content)
    /\ claudeResponse (extractConversation text) <> [].
Proof.
  intros text pre content tail E Hne Hc Ht.
  destruct (content_after_prompt content tail Hc Ht) as [Hp Hcl];
    [split; reflexivity|].
  assert (L : locatedPrompt (split LF text) pre (u "› fix the bug")
                (content ++ u "›" :: tail)).
  { split; [exact E|]. split; [reflexivity | exact Hp]. }
  assert (NE : ~ In ESC (u "› fix the bug")).
  { cbv. intros H. repeat (destruct H as [H|H]; [discriminate H|]). exact H. }
  rewrite (extractConversation_question _ _ _ _ L NE).
  rewrite (extractConversation_response _ _ _ _ L), Hcl.
  split; [reflexivity|].
  destruct content as [|c0 content]; [contradiction|].
  cbn [map]. split; [reflexivity|].
  assert (T : trimmed (join LF (trim c0 :: map trim content))).
  { apply join_trimmed; [discriminate|].
    change (trim c0 :: map trim content) with (map trim (c0 :: content)).
    rewrite <- Hcl. apply contentLines_trimmed. }
  destruct T as (c & r & -> & _). discriminate.
Qed.

(** C2, as amended.  When the buffer holds a prompt line, and the most
    recent one carries no colour sequence, the question is the text of that
    line without border, marker and surrounding white space, and the response
    is the content lines after it, trimmed and joined in order, or the
    sentinel when there is no content line. *)
Theorem extraction_returns_last_prompt_and_following_content :
  forall m text pre l post,
    ~ In ESC l ->
    (locatedPrompt (split LF text) pre l post ->
     userQuestion (extractConversation text) = promptText l
     /\ claudeResponse (extractConversation text)
        = match contentLines post with
          | [] => s_noResponse
          | _ :: _ => join LF (contentLines post)
          end)
    /\
    (locatedPrompt (recentLines m text) pre l post ->
     userQuestion (_extractRecentConversation m text) = promptText l
     /\ claudeResponse (_extractRecentConversation m text)
        = match contentLines post with
          | [] => s_taskCompleted
          | _ :: _ => join LF (contentLines post)
          end).
Proof.
  intros m text pre l post He. split; intros L; split.
  - exact (extractConversation_question _ _ _ _ L He).
  - exact (extractConversation_response _ _ _ _ L).
  - exact (extractRecent_question _ _ _ _ _ L He).
  - exact (extractRecent_response _ _ _ _ _ L).
Qed.

(** C6.  The response is never the empty string; when a content line
    exists after the located prompt line the response is made of the content
    lines, and it is the sentinel when none exists. *)
Theorem response_is_never_empty_and_sentinel_only_without_content :
  forall m text,
    claudeResponse (extractConversation text) <> []
    /\ claudeResponse (_extractRecentConversation m text) <> []
    /\ (forall pre l post,
          locatedPrompt (split LF text) pre l post ->
          (contentLines post <> [] ->
           claudeResponse (extractConversation text) = join LF (contentLines post))
          /\ (contentLines post = [] ->
              claudeResponse (extractConversation text) = s_noResponse))
    /\ (forall pre l post,
          locatedPrompt (recentLines m text) pre l post ->
          (contentLines post <> [] ->
           claudeResponse (_extractRecentConversation m text)
           = join LF (contentLines post))
          /\ (contentLines post = [] ->
              claudeResponse (_extractRecentConversation m text) = s_taskCompleted)).
Proof.
  intros m text. split; [|split; [|split]].
  - unfold extractConversation. cbn [claudeResponse].
    apply orElse_nonempty. discriminate.
  - unfold _extractRecentConversation. cbn [claudeResponse].
    apply orElse_nonempty. discriminate.
  - intros pre l post L. rewrite (extractConversation_response _ _ _ _ L).
    split; intros H; destruct (contentLines post);
      [contradiction | reflexivity | reflexivity | discriminate H].
  - intros pre l post L. rewrite (extractRecent_response _ _ _ _ _ L).
    split; intros H; destruct (contentLines post);
      [contradiction | reflexivity | reflexivity | discriminate H].
Qed.

End ExtractionFacts.

(* ================================================================== *)
(** ** Chrome lines *)
(* ================================================================== *)

Section ChromeFacts.
Import JS Regex Monitor.

Lemma dropWhile_decompose :
  forall p (s : jsstring),
    exists a, s = a ++ dropWhile p s /\ Forall (fun c => p c = true) a.
Proof.
  intros p. induction s as [|c s [a [E F]]].
  - exists []. split; [reflexivity | constructor].
  - simpl. destruct (p c) eqn:Ec.
    + exists (c :: a). split; [simpl; now rewrite <- E | now constructor].
    + exists []. split; [reflexivity | constructor].
Qed.

(** A line is its trimmed text between two runs of white space. *)
Lemma trim_decompose :
  forall l, exists a b,
    l = a ++ trim l ++ b
    /\ Forall (fun c => isSpace c = true) a
    /\ Forall (fun c => isSpace c = true) b.
Proof.
  intros l. unfold trim, trimStart, trimEnd.
  destruct (dropWhile_decompose isSpace l) as [a [Ea Fa]].
  set (m := dropWhile isSpace l) in *.
  destruct (dropWhile_decompose isSpace (rev m)) as [b [Eb Fb]].
  exists a, (rev b). split; [|split; [exact Fa|]].
  - rewrite <- rev_app_distr, <- Eb, rev_involutive. exact Ea.
  - apply Forall_rev. exact Fb.
Qed.


















End ChromeFacts.

(* ================================================================== *)
(** ** Properties of the injector *)
(* ================================================================== *)

Section InjectorFacts.
Import JS.
Import Injector.

Variable session : jsstring.

(** The actions an operation adds to the trace are those after the ones
    that were already there. *)
Definition added (w w' : World) (l : list Action) : Prop :=
  trace w' = trace w ++ l.

(** The actions by which the autopilot makes itself known: its 1.5 s wait
    and its pane capture. *)
Definition autopilotAction (a : Action) : Prop :=
  a = Sleep 1500 \/ a = Exec (captureCommand session).

Lemma sendKeys_not_capture :
  forall keys, Exec (sendKeysCommand session keys) <> Exec (captureCommand session).
Proof.
  intros keys H. inversion H.
Qed.

Lemma execSend_trace :
  forall keys w,
    trace (snd (execSend session keys w))
    = trace w ++ [Exec (sendKeysCommand session keys)].
Proof.
  intros keys w. unfold execSend. destruct (sendScript w); reflexivity.
Qed.

Lemma getCaptureOutput_trace :
  forall w,
    trace (snd (getCaptureOutput session w))
    = trace w ++ [Exec (captureCommand session)].
Proof.
  intros w. unfold getCaptureOutput. destruct (captureScript w); reflexivity.
Qed.

Lemma sendOptionThenEnter_trace :
  forall key w, exists l,
    added w (snd (sendOptionThenEnter session key w)) l.
Proof.
  intros key w. unfold sendOptionThenEnter, added.
  destruct (execSend session (quoted key) w) as [e w1] eqn:E1.
  assert (T1 := execSend_trace (quoted key) w). rewrite E1 in T1. simpl in T1.
  destruct e as [msg|].
  - eexists. simpl. exact T1.
  - destruct (execSend session (quoted (u "Enter")) (sleep 300 w1)) as [e2 w2] eqn:E2.
    assert (T2 := execSend_trace (quoted (u "Enter")) (sleep 300 w1)).
    rewrite E2 in T2. simpl in T2. simpl. rewrite T2, T1.
    rewrite <- !app_assoc. eexists. reflexivity.
Qed.

Lemma added_trans :
  forall w1 w2 w3 l1 l2,
    added w1 w2 l1 -> added w2 w3 l2 -> added w1 w3 (l1 ++ l2).
Proof.
  unfold added. intros w1 w2 w3 l1 l2 H1 H2.
  rewrite H2, H1, app_assoc. reflexivity.
Qed.

Lemma confirmLoop_step_trace :
  forall r,
    (forall attempts w, exists l,
        added w (snd (confirmLoop session r attempts w)) l) ->
    forall attempts w, exists l,
      added (sleep 1500 w) (snd (confirmLoop session (S r) attempts w)) l.
Proof.
  intros r IH attempts w. cbn [confirmLoop].
  set (w0 := sleep 1500 w).
  destruct (getCaptureOutput session w0) as [c w1] eqn:EC.
  assert (T1 : added w0 w1 [Exec (captureCommand session)]).
  { unfold added. assert (T := getCaptureOutput_trace w0).
    rewrite EC in T. exact T. }
  assert (K : forall w2 l2, added w1 w2 l2 -> forall a, exists l,
            added w0 (snd (confirmLoop session r a w2)) l).
  { intros w2 l2 H2 a. destruct (IH a w2) as [l3 H3].
    eexists. eapply added_trans; [|exact H3]. eapply added_trans; eassumption. }
  assert (K0 : forall w2 l2, added w1 w2 l2 -> exists l, added w0 w2 l).
  { intros w2 l2 H2. eexists. eapply added_trans; eassumption. }
  assert (R1 : added w1 w1 []) by (unfold added; now rewrite app_nil_r).
  destruct c as [output|]; [|eapply K0; exact R1].
  destruct (isMultiOption output).
  { destruct (sendOptionThenEnter_trace (u "2") w1) as [l2 H2].
    destruct (sendOptionThenEnter session (u "2") w1) as [[|] w2]; simpl in H2.
    - eapply (K (sleep 2000 w2) (l2 ++ [Sleep 2000])).
      eapply added_trans; [exact H2|]. reflexivity.
    - eapply K0. exact H2. }
  destruct (isSingleOption output).
  { destruct (sendOptionThenEnter_trace (u "1") w1) as [l2 H2].
    destruct (sendOptionThenEnter session (u "1") w1) as [[|] w2]; simpl in H2.
    - eapply K. exact H2.
    - eapply K0. exact H2. }
  destruct (isYesNo output).
  { destruct (sendOptionThenEnter_trace (u "y") w1) as [l2 H2].
    destruct (sendOptionThenEnter session (u "y") w1) as [[|] w2]; simpl in H2.
    - eapply K. exact H2.
    - eapply K0. exact H2. }
  destruct (isEnterPrompt output).
  { assert (T := execSend_trace (quoted (u "Enter")) w1).
    destruct (execSend session (quoted (u "Enter")) w1) as [e w2]. simpl in T.
    eapply K. exact T. }
  destruct (isExecuting output); [eapply K; exact R1|].
  destruct (isIdlePrompt output); [eapply K0; exact R1|].
  destruct (isErrorOutput output); [eapply K0; exact R1|].
  destruct (S attempts <? maxAttempts).
  + eapply (K (sleep 2000 w1) [Sleep 2000]). reflexivity.
  + eapply K; exact R1.
Qed.

Lemma confirmLoop_trace :
  forall remaining attempts w, exists l,
    added w (snd (confirmLoop session remaining attempts w)) l.
Proof.
  induction remaining as [|r IH]; intros attempts w.
  - exists []. unfold added. simpl. now rewrite app_nil_r.
  - destruct (confirmLoop_step_trace r IH attempts w) as [l H].
    exists (Sleep 1500 :: l). unfold added in *. rewrite H. unfold sleep, act.
    simpl. rewrite <- app_assoc. reflexivity.
Qed.

(** Entering the confirmation loop is visible in the trace: its first action
    is the 1.5 s wait. *)
Lemma handleConfirmations_starts_with_wait :
  forall w, exists l,
    added w (snd (handleConfirmations session w)) (Sleep 1500 :: l).
Proof.
  intros w. unfold handleConfirmations. change maxAttempts with (S 7).
  destruct (confirmLoop_step_trace 7 (confirmLoop_trace 7) 0 w) as [l H].
  destruct (confirmLoop session (S 7) 0 w) as [[n|n] w1]; simpl in H.
  - assert (T := getCaptureOutput_trace w1).
    destruct (getCaptureOutput session w1) as [c w2]. simpl in *.
    exists (l ++ [Exec (captureCommand session)]). unfold added in *.
    rewrite T, H. unfold sleep, act. simpl. rewrite <- !app_assoc. reflexivity.
  - exists l. unfold added in *. simpl. rewrite H. unfold sleep, act. simpl.
    rewrite <- app_assoc. reflexivity.
Qed.






(** The world after [n] capture answers and [k] send answers have been
    consumed and the actions [l] have been performed. *)
Definition after (w : World) (caps sends : list (option jsstring))
  (l : list Action) : World :=
  {| captureScript := caps; sendScript := sends; logScript := logScript w;
     trace := trace w ++ l |}.

Lemma getCaptureOutput_answer :
  forall w r caps,
    captureScript w = r :: caps ->
    getCaptureOutput session w
    = (r, after w caps (sendScript w) [Exec (captureCommand session)]).
Proof.
  intros w r caps H. unfold getCaptureOutput. rewrite H. reflexivity.
Qed.

Lemma execSend_answer :
  forall keys w r sends,
    sendScript w = r :: sends ->
    execSend session keys w
    = (r, after w (captureScript w) sends [Exec (sendKeysCommand session keys)]).
Proof.
  intros keys w r sends H. unfold execSend. rewrite H. reflexivity.
Qed.



Lemma sleep_as_after :
  forall ms w, sleep ms w = after w (captureScript w) (sendScript w) [Sleep ms].
Proof.
  reflexivity.
Qed.

(** When a capture shows the multi-option dialog and the key 2 cannot be
    sent, the promise awaited by the loop is never resolved. *)
Lemma handleConfirmations_suspends :
  forall w output caps msg sends,
    captureScript w = Some output :: caps ->
    isMultiOption output = true ->
    sendScript w = Some msg :: sends ->
    fst (handleConfirmations session w) = Suspended 1.
Proof.
  intros w output caps msg sends Hc Hm Hs.
  unfold handleConfirmations. change maxAttempts with (S 7).
  generalize 7. intros r. cbn [confirmLoop].
  rewrite sleep_as_after.
  rewrite (getCaptureOutput_answer (after w _ _ _) (Some output) caps)
    by exact Hc.
  rewrite Hm. unfold sendOptionThenEnter.
  rewrite (execSend_answer _ (after _ _ _ _) (Some msg) sends)
    by exact Hs.
  reflexivity.
Qed.

(** Seen from the caller: while the loop is suspended the promise of
    [injectCommand] is not resolved either. *)
Lemma injectCommand_never_resolves_when_option_key_fails :
  forall command w output caps first msg sends,
    captureScript w = first :: Some output :: caps ->
    isMultiOption output = true ->
    sendScript w = None :: None :: None :: Some msg :: sends ->
    fst (injectCommand session command w) = None.
Proof.
  intros command w output caps first msg sends Hc Hm Hs.
  unfold injectCommand, execSend, getCaptureOutput. rewrite Hs. simpl.
  rewrite Hc. simpl.
  match goal with
  | |- context [handleConfirmations session ?w4] =>
    assert (H := handleConfirmations_suspends
                   w4 output caps msg sends eq_refl Hm eq_refl);
    destruct (handleConfirmations session w4) as [[n|n] w5]
  end; simpl in H; [discriminate | reflexivity].
Qed.

Definition sendsSucceed (w : World) : Prop :=
  Forall (fun r => r = None) (sendScript w).

Lemma execSend_succeeds :
  forall keys w, sendsSucceed w ->
    fst (execSend session keys w) = None
    /\ sendsSucceed (snd (execSend session keys w)).
Proof.
  intros keys w H. unfold execSend, sendsSucceed in *.
  destruct (sendScript w) as [|r rest] eqn:E; simpl.
  - split; [reflexivity|]. rewrite E. constructor.
  - inversion H; subst. split; [reflexivity | assumption].
Qed.

Lemma getCaptureOutput_keeps_sends :
  forall w, sendScript (snd (getCaptureOutput session w)) = sendScript w.
Proof.
  intros w. unfold getCaptureOutput. destruct (captureScript w); reflexivity.
Qed.

Lemma sendOptionThenEnter_succeeds :
  forall key w, sendsSucceed w ->
    fst (sendOptionThenEnter session key w) = true
    /\ sendsSucceed (snd (sendOptionThenEnter session key w)).
Proof.
  intros key w H. unfold sendOptionThenEnter.
  destruct (execSend_succeeds (quoted key) w H) as [E1 S1].
  destruct (execSend session (quoted key) w) as [e w1]. simpl in *. subst e.
  assert (S2 : sendsSucceed (sleep 300 w1)) by exact S1.
  destruct (execSend_succeeds (quoted (u "Enter")) _ S2) as [E2 S3].
  destruct (execSend session (quoted (u "Enter")) (sleep 300 w1)) as [e2 w2].
  simpl in *. split; [reflexivity | assumption].
Qed.

(** What does hold of the loop: as long as no keystroke is refused, it
    returns, and after at most [remaining] further attempts. *)
Lemma confirmLoop_exits_when_sends_succeed :
  forall remaining attempts w, sendsSucceed w ->
    exists n w',
      confirmLoop session remaining attempts w = (Exited n, w')
      /\ n <= attempts + remaining /\ sendsSucceed w'.
Proof.
  induction remaining as [|r IH]; intros attempts w H.
  - exists attempts, w. simpl. repeat split; [lia | assumption].
  - assert (K : forall w2, sendsSucceed w2 -> exists n w',
              confirmLoop session r (S attempts) w2 = (Exited n, w')
              /\ n <= attempts + S r /\ sendsSucceed w').
    { intros w2 H2. destruct (IH (S attempts) w2 H2) as (n & w' & E & L & S').
      exists n, w'. repeat split; [assumption | lia | assumption]. }
    cbn [confirmLoop].
    assert (S1 := getCaptureOutput_keeps_sends (sleep 1500 w)).
    destruct (getCaptureOutput session (sleep 1500 w)) as [c w1]. simpl in S1.
    assert (H1 : sendsSucceed w1) by (unfold sendsSucceed; rewrite S1; exact H).
    assert (K0 : exists n w', (Exited (S attempts), w1) = (Exited n, w')
                   /\ n <= attempts + S r /\ sendsSucceed w').
    { exists (S attempts), w1. repeat split; [lia | assumption]. }
    destruct c as [output|]; [|exact K0].
    destruct (isMultiOption output).
    { destruct (sendOptionThenEnter_succeeds (u "2") w1 H1) as [E S2].
      destruct (sendOptionThenEnter session (u "2") w1) as [ok w2].
      simpl in *. subst ok. apply K. exact S2. }
    destruct (isSingleOption output).
    { destruct (sendOptionThenEnter_succeeds (u "1") w1 H1) as [E S2].
      destruct (sendOptionThenEnter session (u "1") w1) as [ok w2].
      simpl in *. subst ok. apply K. exact S2. }
    destruct (isYesNo output).
    { destruct (sendOptionThenEnter_succeeds (u "y") w1 H1) as [E S2].
      destruct (sendOptionThenEnter session (u "y") w1) as [ok w2].
      simpl in *. subst ok. apply K. exact S2. }
    destruct (isEnterPrompt output).
    { destruct (execSend_succeeds (quoted (u "Enter")) w1 H1) as [E S2].
      destruct (execSend session (quoted (u "Enter")) w1) as [e w2].
      simpl in *. apply K. exact S2. }
    destruct (isExecuting output); [apply K; exact H1|].
    destruct (isIdlePrompt output); [exact K0|].
    destruct (isErrorOutput output); [exact K0|].
    destruct (S attempts <? maxAttempts); apply K; exact H1.
Qed.

(** *** The dialog answered and the idle prompt reached *)

(** The commands as tmux receives them. *)
Lemma sendKeysCommand_quoted :
  forall key,
    sendKeysCommand session (quoted key)
    = u "tmux send-keys -t " ++ session ++ u " '" ++ key ++ u "'".
Proof.
  intros key. unfold sendKeysCommand, quoted. reflexivity.
Qed.

Lemma captureCommand_text :
  captureCommand session = u "tmux capture-pane -t " ++ session ++ u " -p".
Proof. reflexivity. Qed.





(** C5, the way the loop fails to end.  When the first capture shows the
    multi-option dialog and the key 2 cannot be sent, the promise awaited by
    the loop is never resolved: [handleConfirmations] stays suspended in its
    first attempt instead of returning. *)
Theorem handleConfirmations_suspends_when_option_key_fails :
  forall w output caps msg sends,
    captureScript w = Some output :: caps ->
    isMultiOption output = true ->
    sendScript w = Some msg :: sends ->
    fst (handleConfirmations session w) = Suspended 1
    /\ forall n, fst (handleConfirmations session w) <> Exited n.
Proof.
  intros w output caps msg sends Hc Hm Hs.
  rewrite (handleConfirmations_suspends w output caps msg sends Hc Hm Hs).
  split; [reflexivity | discriminate].
Qed.

(** C9.  If the first of the three keystroke sends of an injection to fail
    (clearing the input field, sending the command text, sending Enter)
    fails with message [msg], [injectCommand] resolves with a failure that
    carries [msg], and none of the actions it performed is one of the
    confirmation loop. *)
Theorem injectCommand_reports_a_failed_keystroke :
  forall command w ok msg rest,
    sendScript w = ok ++ Some msg :: rest ->
    Forall (fun r => r = None) ok ->
    length ok < 3 ->
    exists w' l,
      injectCommand session command w
      = (Some {| success := false; error := Some msg |}, w')
      /\ added w w' l
      /\ Forall (fun a => ~ autopilotAction a) l.
Proof.
  intros command w ok msg rest Hs Hok Hlen.
  assert (NA : forall keys, ~ autopilotAction (Exec (sendKeysCommand session keys))).
  { intros keys [H|H]; [discriminate | exact (sendKeys_not_capture keys H)]. }
  assert (NS : ~ autopilotAction (Sleep 200)).
  { intros [H|H]; discriminate. }
  destruct ok as [|a ok].
  - simpl in Hs. unfold injectCommand, execSend. rewrite Hs. simpl.
    eexists. eexists. split; [reflexivity|]. split.
    + unfold added. simpl. reflexivity.
    + repeat constructor. apply NA.
  - inversion Hok as [|? ? Ha Hok1]; subst. destruct ok as [|b ok].
    + simpl in Hs. unfold injectCommand, execSend. rewrite Hs. simpl.
      eexists. eexists. split; [reflexivity|]. split.
      * unfold added. simpl. rewrite <- !app_assoc. reflexivity.
      * simpl. repeat constructor; (apply NA || apply NS).
    + inversion Hok1 as [|? ? Hb Hok2]; subst. destruct ok as [|c ok].
      * simpl in Hs. unfold injectCommand, execSend. rewrite Hs. simpl.
        eexists. eexists. split; [reflexivity|]. split.
        -- unfold added. simpl. rewrite <- !app_assoc. reflexivity.
        -- simpl. repeat constructor; (apply NA || apply NS).
      * simpl in Hlen. lia.
Qed.

End InjectorFacts.

Section InjectorWitnesses.
Import JS.
Import Injector.

Definition witnessSession : jsstring := Eval vm_compute in u "codex-taskping".

Definition proceedDialog : jsstring :=
  Eval vm_compute in
    join LF [u "Do you want to proceed?"; u "  1. Yes";
             u "  2. Yes, and don't ask again"; u "  3. No"].





Definition dialogRefusingKeys : World :=
  {| captureScript := [Some proceedDialog];
     sendScript := [Some (u "can't find session")]; logScript := [];
     trace := [] |}.

Definition refusingCommandText : World :=
  {| captureScript := []; sendScript := [None; Some (u "no server running")];
     logScript := []; trace := [] |}.



Lemma handleConfirmations_suspends_witness :
  fst (handleConfirmations witnessSession dialogRefusingKeys) = Suspended 1.
Proof.
  exact (proj1 (handleConfirmations_suspends_when_option_key_fails
                  witnessSession dialogRefusingKeys proceedDialog []
                  (u "can't find session") [] eq_refl eq_refl eq_refl)).
Defined.

Lemma injectCommand_reports_witness :
  exists w' l,
    injectCommand witnessSession (u "run the tests") refusingCommandText
    = (Some {| success := false; error := Some (u "no server running") |}, w')
    /\ trace w' = l
    /\ Forall (fun a => ~ autopilotAction witnessSession a) l.
Proof.
  destruct (injectCommand_reports_a_failed_keystroke witnessSession
              (u "run the tests") refusingCommandText
              [None] (u "no server running") [] eq_refl
              (Forall_cons _ eq_refl (Forall_nil _))
              (le_n_S _ _ (le_n_S _ _ (le_0_n _))))
    as (w' & l & E & A & F).
  exists w', l. split; [exact E|]. split; [exact A | exact F].
Defined.

End InjectorWitnesses.

(* ================================================================== *)
(** ** Properties of the monitor loop *)
(* ================================================================== *)

Section MonitorLoopFacts.
Import JS Regex Monitor.

(** The names [tmux list-sessions] reports, as [_sessionExists] reads them. *)
Definition listedSessions (w : World) : list jsstring :=
  match sessions w with
  | Some out => split LF (trim out)
  | None => []
  end.

Lemma eqb_eq : forall a b, JS.eqb a b = true <-> a = b.
Proof.
  induction a as [|x a IH]; destruct b as [|y b]; simpl;
    try (split; [discriminate | discriminate]); try (split; reflexivity).
  rewrite andb_true_iff, N.eqb_eq, IH. split.
  - intros [-> ->]. reflexivity.
  - intros H. injection H as -> ->. split; reflexivity.
Qed.

Lemma eqb_refl : forall a, JS.eqb a a = true.
Proof. intros a. now apply eqb_eq. Qed.

Lemma sessionExists_listed :
  forall m w,
    fst (_sessionExists m w) = true <-> In (sessionName m) (listedSessions w).
Proof.
  intros m w. unfold _sessionExists, listedSessions.
  destruct (sessions w) as [out|]; simpl.
  - rewrite existsb_exists. split.
    + intros [x [Hx He]]. apply eqb_eq in He. now subst.
    + intros H. exists (sessionName m). split; [assumption | apply eqb_refl].
  - split; [discriminate | contradiction].
Qed.

(** The part of the state that says whether and how the monitor runs. *)
Definition control (m : Monitor) : jsstring * bool * option nat :=
  (sessionName m, isMonitoring m, monitorInterval m).

Lemma telegramDone_control :
  forall m paneText,
    control (snd (_detectTelegramDoneCompletion m paneText)) = control m.
Proof.
  intros m paneText. unfold _detectTelegramDoneCompletion.
  destruct (negb (truthy paneText)); [reflexivity|].
  destruct (findDoneDown _ _); [|reflexivity].
  destruct (JS.eqb _ _); reflexivity.
Qed.

Lemma completionFromPane_control :
  forall m paneText,
    control (snd (_detectCompletionFromPane m paneText)) = control m.
Proof.
  intros m paneText. unfold _detectCompletionFromPane.
  destruct (negb (truthy paneText)); [reflexivity|].
  destruct (negb (truthy _)); [reflexivity|].
  destruct (test re_telegramDone _).
  - destruct (JS.eqb _ _); reflexivity.
  - destruct (negb _); [reflexivity|]. destruct (JS.eqb _ _); reflexivity.
Qed.

(** What a poll cycle leaves untouched in the environment. *)
Definition sameTimers (w w' : World) : Prop :=
  timers w' = timers w /\ nextTimer w' = nextTimer w
  /\ sessions w' = sessions w.

Lemma sameTimers_refl : forall w, sameTimers w w.
Proof. intros w. repeat split. Qed.

Lemma sameTimers_trans :
  forall a b c, sameTimers a b -> sameTimers b c -> sameTimers a c.
Proof.
  unfold sameTimers. intros a b c (H1 & H2 & H3) (H4 & H5 & H6).
  repeat split; congruence.
Qed.

Lemma capture_sameTimers :
  forall m w, sameTimers w (snd (_captureCurrentContent m w)).
Proof.
  intros m w. unfold _captureCurrentContent.
  destruct (captures w) as [|[c|] rest]; repeat split.
Qed.

Lemma handleTaskCompletion_sameTimers :
  forall m w newLines override,
    sameTimers w (_handleTaskCompletion m w newLines override).
Proof.
  intros m w newLines override. unfold _handleTaskCompletion.
  assert (H := capture_sameTimers m w).
  destruct (_captureCurrentContent m w) as [c w1]. exact H.
Qed.

Lemma handleWaiting_sameTimers :
  forall m w newLines, sameTimers w (_handleWaitingForInput m w newLines).
Proof.
  intros m w newLines. unfold _handleWaitingForInput.
  assert (H := capture_sameTimers m w).
  destruct (_captureCurrentContent m w) as [c w1]. exact H.
Qed.

Lemma analyze_keeps :
  forall m w newLines currentContent,
    control (fst (_analyzeNewContent m w newLines currentContent)) = control m
    /\ sameTimers w (snd (_analyzeNewContent m w newLines currentContent)).
Proof.
  intros m w newLines currentContent. unfold _analyzeNewContent.
  set (paneText := orElse currentContent (lastPaneContent m)).
  assert (C1 := telegramDone_control m paneText).
  destruct (_detectTelegramDoneCompletion m paneText) as [[conv|] m1];
    simpl in C1.
  - split; [exact C1 | apply handleTaskCompletion_sameTimers].
  - assert (C2 := completionFromPane_control m1 paneText).
    destruct (_detectCompletionFromPane m1 paneText) as [b m2]. simpl in C2.
    assert (C : control m2 = control m) by congruence.
    destruct b; [split; [exact C | apply handleTaskCompletion_sameTimers]|].
    destruct (_ || _); [split; [exact C | apply handleTaskCompletion_sameTimers]|].
    destruct (_shouldTriggerWaitingNotification _);
      split; try exact C; [apply handleWaiting_sameTimers | apply sameTimers_refl].
Qed.

Lemma checkForChanges_keeps :
  forall m w,
    control (fst (_checkForChanges m w)) = control m
    /\ sameTimers w (snd (_checkForChanges m w)).
Proof.
  intros m w. unfold _checkForChanges.
  assert (T1 := capture_sameTimers m w).
  destruct (_captureCurrentContent m w) as [currentContent w1]. simpl in T1.
  set (changed := negb (JS.eqb currentContent (lastPaneContent m))).
  match goal with
  | |- context [let '(m2, w2) := ?X in _] =>
    assert (A : control (fst X) = control m /\ sameTimers w (snd X));
      [| destruct X as [m2 w2]]
  end.
  { destruct changed; [|split; [reflexivity | exact T1]].
    destruct (_getNewLines (lastPaneContent m) currentContent) as [|l ls].
    - destruct (_ && _); [|split; [reflexivity | exact T1]].
      match goal with
      | |- context [_analyzeNewContent ?a ?b ?c ?d] =>
        destruct (analyze_keeps a b c d) as [K1 K2]
      end.
      split; [exact K1 | eapply sameTimers_trans; eassumption].
    - match goal with
      | |- context [_analyzeNewContent ?a ?b ?c ?d] =>
        destruct (analyze_keeps a b c d) as [K1 K2]
      end.
      split; [exact K1 | eapply sameTimers_trans; eassumption]. }
  simpl in A. destruct A as [A1 A2].
  match goal with
  | |- context [let '(m4, w4) := ?X in _] =>
    assert (B : control (fst X) = control m /\ sameTimers w (snd X));
      [| destruct X as [m4 w4]]
  end.
  { destruct (_ && _); [|split; assumption].
    assert (C := telegramDone_control m2 currentContent).
    destruct (_detectTelegramDoneCompletion m2 currentContent) as [[conv|] m3];
      simpl in C.
    - split; [simpl; congruence|]. simpl.
      eapply sameTimers_trans; [exact A2 | apply handleTaskCompletion_sameTimers].
    - split; [simpl; congruence | exact A2]. }
  simpl in B. destruct B as [B1 B2].
  destruct changed; split; assumption.
Qed.

(** *** Start, stop and the polling timer *)

(** What can happen to a monitor: its methods, a firing of a timer, and a
    change of what tmux will answer. *)
Inductive Op : Type :=
| OpStart : Op
| OpStop : Op
| OpTick : nat -> Op
| OpEnvironment : option jsstring -> list (option jsstring) -> Op.

Definition setEnvironment (sess : option jsstring)
  (caps : list (option jsstring)) (w : World) : World :=
  {| sessions := sess; captures := caps; timers := timers w;
     nextTimer := nextTimer w; calls := calls w; emitted := emitted w |}.

Definition step (st : Monitor * World) (op : Op) : Monitor * World :=
  let '(m, w) := st in
  match op with
  | OpStart => let '(_, m', w') := start m w in (m', w')
  | OpStop => stop m w
  | OpTick t => tick t m w
  | OpEnvironment sess caps => (m, setEnvironment sess caps w)
  end.

Definition runOps (ops : list Op) (st : Monitor * World) : Monitor * World :=
  fold_left step ops st.

(** The timers that are alive are exactly the one the monitor holds. *)
Definition timerInvariant (st : Monitor * World) : Prop :=
  timers (snd st)
  = match monitorInterval (fst st) with Some t => [t] | None => [] end
  /\ (isMonitoring (fst st) = false -> monitorInterval (fst st) = None).

Lemma start_when_running :
  forall m w, isMonitoring m = true -> start m w = (Returned, m, w).
Proof.
  intros m w H. unfold start. rewrite H. reflexivity.
Qed.

Lemma start_when_stopped :
  forall m w, isMonitoring m = false ->
    start m w
    = if fst (_sessionExists m w)
      then (Returned,
            set_monitorInterval (Some (nextTimer w)) (set_isMonitoring true m),
            snd (setInterval
                   (snd (_captureCurrentContent (set_isMonitoring true m)
                           (logCall ListSessions w)))))
      else (Threw (s_notFound (sessionName m)), m, logCall ListSessions w).
Proof.
  intros m w H. unfold start. rewrite H.
  unfold _sessionExists. destruct (sessions w) as [out|]; simpl.
  - destruct (existsb _ _); simpl; [|reflexivity].
    unfold _startRealTimeMonitoring, _captureCurrentContent. simpl.
    destruct (captures w) as [|[c|] rest]; reflexivity.
  - reflexivity.
Qed.

Lemma step_keeps_timerInvariant :
  forall st op, timerInvariant st -> timerInvariant (step st op).
Proof.
  intros [m w] op [H1 H2]. simpl in H1, H2.
  destruct op as [| |t|sess caps]; simpl.
  - destruct (isMonitoring m) eqn:E.
    + rewrite (start_when_running m w E).
      split; [exact H1 | simpl; intros E'; congruence].
    + rewrite (start_when_stopped m w E). specialize (H2 eq_refl).
      destruct (fst (_sessionExists m w)).
      * split; [|simpl; discriminate]. simpl.
        unfold _captureCurrentContent. simpl.
        destruct (captures w) as [|[c|] rest]; simpl; rewrite H1, H2; reflexivity.
      * split; simpl; [exact H1 | intros _; exact H2].
  - unfold stop. destruct (isMonitoring m) eqn:E; simpl.
    + destruct (monitorInterval m) as [t|] eqn:E2; simpl.
      * split; [|intros _; reflexivity]. simpl. rewrite H1. simpl.
        rewrite Nat.eqb_refl. reflexivity.
      * split; [simpl; rewrite E2; exact H1 | intros _; exact E2].
    + split; [exact H1 | intros _; exact (H2 eq_refl)].
  - unfold tick, onInterval.
    destruct (existsb _ _); [|split; assumption].
    destruct (isMonitoring m) eqn:E;
      [|split; [exact H1 | intros _; exact (H2 eq_refl)]].
    destruct (checkForChanges_keeps m w) as [C (T & _ & _)].
    destruct (_checkForChanges m w) as [m' w']. simpl in *.
    unfold control in C. injection C as _ C1 C2.
    split; simpl; [rewrite T, C2; exact H1 | intros E'; congruence].
  - split; assumption.
Qed.

Lemma runOps_keeps_timerInvariant :
  forall ops st, timerInvariant st -> timerInvariant (runOps ops st).
Proof.
  induction ops as [|op ops IH]; intros st H; [exact H|].
  simpl. apply IH. apply step_keeps_timerInvariant. exact H.
Qed.

(** C10.  Starting a monitor that is already running changes neither the
    monitor (its output buffer and its keys against repeated notifications
    included) nor the environment: no session query is issued and no timer
    is created; and whatever is done to a monitor, at most one polling timer
    is alive. *)
Theorem start_while_running_is_a_no_op_and_the_timer_is_unique :
  forall m w,
    isMonitoring m = true ->
    start m w = (Returned, m, w)
    /\ forall name w0 ops,
         timers w0 = [] ->
         length (timers (snd (runOps ops (create name, w0)))) <= 1.
Proof.
  intros m w H. split; [exact (start_when_running m w H)|].
  intros name w0 ops H0.
  assert (I : timerInvariant (create name, w0)).
  { split; simpl; [exact H0 | reflexivity]. }
  apply (runOps_keeps_timerInvariant ops) in I. destruct I as [I _].
  rewrite I. destruct (monitorInterval _); simpl; lia.
Qed.

(** C7, as amended.  On a monitor that is not running, [start] throws the
    session-not-found error exactly when the session is not among those
    tmux lists; in that case the monitor is unchanged and no timer is
    created; otherwise [start] returns, the monitor is running and holds the
    one new timer. *)
Theorem start_fails_exactly_when_session_is_missing :
  forall m w,
    isMonitoring m = false ->
    let '(outcome, m', w') := start m w in
    ((exists msg, outcome = Threw msg) <-> ~ In (sessionName m) (listedSessions w))
    /\ (~ In (sessionName m) (listedSessions w) ->
        outcome = Threw (s_notFound (sessionName m))
        /\ m' = m /\ timers w' = timers w)
    /\ (In (sessionName m) (listedSessions w) ->
        outcome = Returned /\ isMonitoring m' = true
        /\ exists t, monitorInterval m' = Some t /\ timers w' = t :: timers w).
Proof.
  intros m w H. rewrite (start_when_stopped m w H).
  assert (L := sessionExists_listed m w).
  destruct (fst (_sessionExists m w)).
  - assert (HL : In (sessionName m) (listedSessions w)) by (now apply L).
    split; [split; [intros [msg E]; discriminate | intros N; contradiction]|].
    split; [intros N; contradiction|]. intros _.
    split; [reflexivity|]. split; [reflexivity|].
    exists (nextTimer w). split; [reflexivity|].
    unfold _captureCurrentContent. simpl.
    destruct (captures w) as [|[c|] rest]; reflexivity.
  - assert (HN : ~ In (sessionName m) (listedSessions w)).
    { intros HL. apply L in HL. discriminate. }
    split; [split; [intros _; exact HN | intros _; eexists; reflexivity]|].
    split; [intros _; repeat split | intros HL; contradiction].
Qed.

(** *** Capture failures *)

Lemma getNewLines_of_empty_capture :
  forall oldContent, _getNewLines oldContent [] = [].
Proof.
  intros oldContent. unfold _getNewLines.
  destruct (split LF oldContent) as [|a [|b r]];
    [reflexivity | destruct a; reflexivity | reflexivity].
Qed.

(** The capture that opens a poll cycle fails: tmux reports an error, or
    the script of answers is exhausted. *)
Definition pollCaptureFails (w : World) : Prop := hd None (captures w) = None.

Lemma failed_capture_returns_empty :
  forall m w, pollCaptureFails w ->
    _captureCurrentContent m w
    = ([], popCapture (logCall (CapturePane (sessionName m)) w)).
Proof.
  intros m w H. unfold _captureCurrentContent, pollCaptureFails in *.
  destruct (captures w) as [|[c|] rest]; [reflexivity | discriminate | reflexivity].
Qed.

(** C8, as amended.  When the capture that opens a poll cycle fails, the
    capture routine returns the empty string instead of throwing, the cycle
    emits no event, the monitor keeps running with its timer, and the next
    firing of the timer runs a poll cycle again. *)
Theorem failed_poll_capture_skips_the_cycle :
  forall m w,
    pollCaptureFails w ->
    fst (_captureCurrentContent m w) = []
    /\ emitted (snd (_checkForChanges m w)) = emitted w
    /\ control (fst (_checkForChanges m w)) = control m
    /\ timers (snd (_checkForChanges m w)) = timers w
    /\ forall t,
         In t (timers w) -> isMonitoring m = true ->
         tick t (fst (_checkForChanges m w)) (snd (_checkForChanges m w))
         = _checkForChanges (fst (_checkForChanges m w))
             (snd (_checkForChanges m w)).
Proof.
  intros m w H.
  assert (E := failed_capture_returns_empty m w H).
  split; [rewrite E; reflexivity|].
  destruct (checkForChanges_keeps m w) as [C (T & _ & _)].
  split; [|split; [exact C | split; [exact T|]]].
  - unfold _checkForChanges. rewrite E.
    rewrite getNewLines_of_empty_capture.
    destruct (negb (JS.eqb [] (lastPaneContent m))); reflexivity.
  - intros t Ht Hm. unfold tick, onInterval. rewrite T.
    assert (A : existsb (Nat.eqb t) (timers w) = true).
    { apply existsb_exists. exists t. split; [exact Ht | apply Nat.eqb_refl]. }
    rewrite A. unfold control in C. injection C as _ C1 _.
    rewrite C1, Hm. reflexivity.
Qed.

(** *** The keys against repeated notifications *)

Lemma extract_ignores_completionKey :
  forall m k text,
    _extractRecentConversation (set_lastCompletionKey k m) text
    = _extractRecentConversation m text.
Proof. reflexivity. Qed.

(** The key [_detectCompletionFromPane] derives from a conversation, if
    the response carries one of its completion signals. *)
Definition completionKey (conv : Conversation) : option jsstring :=
  let response := claudeResponse conv in
  if negb (truthy response) then None
  else if test re_telegramDone response then
    Some (userQuestion conv ++ s_sep
          ++ ofNat match matchIndex re_telegramDone response with
                   | Some i => i
                   | None => 0
                   end)
  else if negb (test re_workedFor response || test re_ruleWorkedFor response
                || (test re_bulletAfterBreak response
                    || test (wordI "(no output)") response))
  then None
  else Some (userQuestion conv ++ s_sep ++ sliceLast 500 response).

Lemma completionFromPane_by_key :
  forall m paneText,
    truthy paneText = true ->
    _detectCompletionFromPane m paneText
    = match completionKey (_extractRecentConversation m paneText) with
      | None => (false, m)
      | Some key =>
        if JS.eqb key (lastCompletionKey m) then (false, m)
        else (true, set_lastCompletionKey key m)
      end.
Proof.
  intros m paneText H. unfold _detectCompletionFromPane, completionKey.
  rewrite H. cbn [negb].
  destruct (negb (truthy _)); [reflexivity|].
  destruct (test re_telegramDone _); [reflexivity|].
  destruct (negb _); reflexivity.
Qed.

Lemma completionKey_same :
  forall c c',
    userQuestion c' = userQuestion c -> claudeResponse c' = claudeResponse c ->
    completionKey c' = completionKey c.
Proof.
  intros c c' Hq Hr. unfold completionKey. now rewrite Hq, Hr.
Qed.

(** C1, as amended.  The monitor remembers the key it recorded last.  Once
    [_detectCompletionFromPane] has looked at a pane, a second look at a
    pane with the same question and the same response (the same pane, or a
    redraw of it) reports no completion; and a second look of
    [_detectTelegramDoneCompletion] at the same pane reports none either. *)
Theorem detectors_report_a_recorded_key_once :
  forall m paneText redrawn,
    truthy paneText = true ->
    userQuestion (_extractRecentConversation m redrawn)
    = userQuestion (_extractRecentConversation m paneText) ->
    claudeResponse (_extractRecentConversation m redrawn)
    = claudeResponse (_extractRecentConversation m paneText) ->
    fst (_detectCompletionFromPane
           (snd (_detectCompletionFromPane m paneText)) redrawn) = false
    /\ fst (_detectTelegramDoneCompletion
              (snd (_detectTelegramDoneCompletion m paneText)) paneText) = None.
Proof.
  intros m paneText redrawn Ht Hq Hr. split.
  - assert (K := completionKey_same _ _ Hq Hr).
    assert (G : forall m1,
              _extractRecentConversation m1 redrawn
              = _extractRecentConversation m redrawn ->
              (forall key,
                  completionKey (_extractRecentConversation m paneText) = Some key ->
                  lastCompletionKey m1 = key) ->
              fst (_detectCompletionFromPane m1 redrawn) = false).
    { intros m1 E1 L. destruct (truthy redrawn) eqn:Tr.
      - rewrite (completionFromPane_by_key m1 redrawn Tr), E1, K. clear K.
        destruct (completionKey (_extractRecentConversation m paneText))
          as [key|]; [|reflexivity].
        rewrite (L key eq_refl), eqb_refl. reflexivity.
      - unfold _detectCompletionFromPane. rewrite Tr. reflexivity. }
    rewrite (completionFromPane_by_key m paneText Ht).
    destruct (completionKey (_extractRecentConversation m paneText))
      as [key|] eqn:CK.
    + destruct (JS.eqb key (lastCompletionKey m)) eqn:E; cbn [snd].
      * apply eqb_eq in E. apply G; [reflexivity|].
        intros key' Hk. injection Hk as <-. now symmetry.
      * apply G; [reflexivity|]. intros key' Hk. injection Hk as <-. reflexivity.
    + cbn [snd]. apply G; [reflexivity | discriminate].
  - unfold _detectTelegramDoneCompletion at 2. rewrite Ht. cbn [negb].
    destruct (findDoneDown (split LF paneText) (length (split LF paneText)))
      as [lastIndex|] eqn:F.
    + match goal with
      | |- context [JS.eqb ?key (lastTelegramDoneKey m)] =>
        destruct (JS.eqb key (lastTelegramDoneKey m)) eqn:K; cbn [snd];
          unfold _detectTelegramDoneCompletion; rewrite Ht; cbn [negb];
          rewrite F; [rewrite K; reflexivity|]
      end.
      cbn [lastTelegramDoneKey set_lastTelegramDoneKey].
      rewrite eqb_refl. reflexivity.
    + cbn [snd]. unfold _detectTelegramDoneCompletion. rewrite Ht. cbn [negb].
      rewrite F. reflexivity.
Qed.

End MonitorLoopFacts.

(* ================================================================== *)
(** ** A change of the footer *)
(* ================================================================== *)

Section FooterFacts.
Import JS Regex Monitor.

(** *** Lines of a pane *)

Lemma split_without_LF : forall l, ~ In LF l -> split LF l = [l].
Proof.
  induction l as [|c l IH]; intros H; [reflexivity|].
  cbn [split]. destruct (c =? LF)%N eqn:E.
  - apply N.eqb_eq in E. subst c. exfalso. apply H. now left.
  - rewrite IH; [reflexivity|]. intros I. apply H. now right.
Qed.

Lemma split_app_LF :
  forall a s, ~ In LF a -> split LF (a ++ LF :: s) = a :: split LF s.
Proof.
  induction a as [|c a IH]; intros s H.
  - reflexivity.
  - cbn [app split]. destruct (c =? LF)%N eqn:E.
    + apply N.eqb_eq in E. subst c. exfalso. apply H. now left.
    + rewrite IH; [reflexivity|]. intros I. apply H. now right.
Qed.

(** Splitting the joined lines of a pane gives the lines back. *)
Lemma split_join :
  forall ls, ls <> [] -> Forall (fun l => ~ In LF l) ls ->
    split LF (join LF ls) = ls.
Proof.
  induction ls as [|a ls IH]; intros Hne H; [contradiction|].
  inversion H as [|? ? Ha Hls]; subst. destruct ls as [|b ls].
  - now apply split_without_LF.
  - change (join LF (a :: b :: ls)) with (a ++ LF :: join LF (b :: ls)).
    rewrite split_app_LF by exact Ha. rewrite IH; [reflexivity | discriminate | exact Hls].
Qed.

(** *** The lines [_getNewLines] reports *)

Lemma skipn_cons_nth :
  forall (A : Type) (d : A) i (l : list A),
    i < length l -> skipn i l = nth i l d :: skipn (S i) l.
Proof.
  intros A d. induction i as [|i IH]; intros l H; destruct l as [|x l];
    simpl in H; try lia; [reflexivity|].
  cbn [skipn nth]. apply IH. lia.
Qed.

Lemma changedFrom_unchanged :
  forall (oldLines newLines : list jsstring) n i,
    length newLines - i = n ->
    (forall j, i <= j -> j < length newLines ->
               nth j newLines [] = nth j oldLines []) ->
    changedFrom oldLines i (skipn i newLines) = [].
Proof.
  intros oldLines newLines. induction n as [|n IH]; intros i Hn H.
  - rewrite skipn_all2 by lia. reflexivity.
  - rewrite (skipn_cons_nth jsstring [] i newLines) by lia. cbn [changedFrom].
    rewrite (H i) by lia. rewrite eqb_refl, andb_false_r.
    apply IH; [lia|]. intros j Hj1 Hj2. apply H; lia.
Qed.




(** *** The tail looked at when no new line is reported *)


Lemma Forall_skipn' :
  forall (A : Type) (P : A -> Prop) n l, Forall P l -> Forall P (skipn n l).
Proof.
  intros A P n l H. apply Forall_forall. intros x Hx.
  rewrite Forall_forall in H. apply H. eapply In_skipn. exact Hx.
Qed.



(** *** Events of a poll cycle *)




Lemma capture_keeps_emitted :
  forall m w, emitted (snd (_captureCurrentContent m w)) = emitted w.
Proof.
  intros m w. unfold _captureCurrentContent.
  destruct (captures w) as [|[c|] rest]; reflexivity.
Qed.



(** *** Chrome lines and the waiting patterns *)





(** *** The poll cycle after a change of the footer *)


End FooterFacts.

(* ================================================================== *)
(** ** Concrete panes and runs *)
(* ================================================================== *)

Section MonitorScenarios.
Import JS Regex Monitor.

Definition codexReal : jsstring := Eval vm_compute in u "codex-real".

(** A pane given by its lines. *)
Definition pane (ls : list string) : jsstring := join LF (map u ls).

Definition worldWith (sess : option jsstring) (caps : list (option jsstring))
  : World :=
  {| sessions := sess; captures := caps; timers := []; nextTimer := 0;
     calls := []; emitted := [] |}.

(** A finished answer, with the context counter at 99% and at 98%. *)
Definition finishedPane99 : jsstring :=
  Eval vm_compute in
    pane ["› summarize repo"; "here is the summary"; "Worked for 4s"; "›";
          "  99% context left"]%string.

Definition finishedPane98 : jsstring :=
  Eval vm_compute in
    pane ["› summarize repo"; "here is the summary"; "Worked for 4s"; "›";
          "  98% context left"]%string.

(** The pane is redrawn with the same prompt line and the same response
    text, only the context counter differs: the second poll cycle computes
    the key the first one recorded, [_detectCompletionFromPane] reports
    nothing, and the analysis goes on to the patterns that consult no key
    and emits a second completion event. *)
Lemma redraw_with_identical_tail_is_notified_twice :
  let '(_, m0, w0) :=
    start (create codexReal)
      (worldWith (Some codexReal)
         [Some []; Some finishedPane99; Some finishedPane99;
          Some finishedPane98; Some finishedPane98]) in
  let '(m1, w1) := tick 0 m0 w0 in
  let '(m2, w2) := tick 0 m1 w1 in
  userQuestion (_extractRecentConversation m1 finishedPane98)
  = userQuestion (_extractRecentConversation m0 finishedPane99)
  /\ claudeResponse (_extractRecentConversation m1 finishedPane98)
     = claudeResponse (_extractRecentConversation m0 finishedPane99)
  /\ fst (_detectCompletionFromPane m1 finishedPane98) = false
  /\ lastCompletionKey m2 = lastCompletionKey m1
  /\ map kind (emitted w1) = [TaskCompleted]
  /\ map kind (emitted w2) = [TaskCompleted; TaskCompleted].
Proof.
  vm_compute. repeat split.
Qed.

Definition runningMonitor : Monitor :=
  set_monitorInterval (Some 0) (set_isMonitoring true (create codexReal)).

Definition testsPane : jsstring :=
  Eval vm_compute in
    pane ["› run the tests"; "all 12 tests pass"; "Worked for 4s"; "›"]%string.

Definition lintPane : jsstring :=
  Eval vm_compute in
    pane ["› run the linter"; "no warnings"; "Worked for 2s"; "›"]%string.

(** C1, as stated, fails when a key recurs after another one: the tests
    are run, then the linter, then the tests again with the same answer.
    The third cycle computes the key that the first cycle recorded; only the
    key of the second cycle is remembered, so [_detectCompletionFromPane]
    reports a completion and a third event is emitted. *)
Lemma key_recorded_earlier_is_reported_again :
  let '(_, m0, w0) :=
    start (create codexReal)
      (worldWith (Some codexReal)
         [Some []; Some testsPane; Some testsPane; Some lintPane;
          Some lintPane; Some testsPane; Some testsPane]) in
  let '(m1, w1) := tick 0 m0 w0 in
  let '(m2, w2) := tick 0 m1 w1 in
  let '(m3, w3) := tick 0 m2 w2 in
  lastCompletionKey m2 <> lastCompletionKey m1
  /\ fst (_detectCompletionFromPane m2 testsPane) = true
  /\ lastCompletionKey m3 = lastCompletionKey m1
  /\ map kind (emitted w3) = [TaskCompleted; TaskCompleted; TaskCompleted].
Proof.
  vm_compute. split; [discriminate | repeat split].
Qed.

Lemma detectors_report_once_witness :
  fst (_detectCompletionFromPane
         (snd (_detectCompletionFromPane runningMonitor finishedPane99))
         finishedPane98) = false
  /\ fst (_detectTelegramDoneCompletion
            (snd (_detectTelegramDoneCompletion runningMonitor finishedPane99))
            finishedPane99) = None.
Proof.
  exact (detectors_report_a_recorded_key_once runningMonitor
           finishedPane99 finishedPane98 eq_refl eq_refl eq_refl).
Defined.

(** C7, as stated, fails on a running monitor: the session has gone, and
    [start] returns without an error. *)
Lemma start_on_running_monitor_ignores_missing_session :
  let '(_, m1, w1) :=
    start (create codexReal) (worldWith (Some codexReal) []) in
  let gone := setEnvironment None [] w1 in
  isMonitoring m1 = true
  /\ ~ In (sessionName m1) (listedSessions gone)
  /\ fst (fst (start m1 gone)) = Returned.
Proof.
  vm_compute. split; [reflexivity|]. split; [intros []|reflexivity].
Qed.

Definition twoSessions : jsstring :=
  Eval vm_compute in pane ["main"; "codex-real"; ""]%string.

Lemma start_fails_exactly_when_session_is_missing_witness :
  let '(outcome, m', w') :=
    start (create codexReal) (worldWith (Some twoSessions) []) in
  ((exists msg, outcome = Threw msg)
   <-> ~ In codexReal (listedSessions (worldWith (Some twoSessions) [])))
  /\ (~ In codexReal (listedSessions (worldWith (Some twoSessions) [])) ->
      outcome = Threw (s_notFound codexReal)
      /\ m' = create codexReal /\ timers w' = [])
  /\ (In codexReal (listedSessions (worldWith (Some twoSessions) [])) ->
      outcome = Returned /\ isMonitoring m' = true
      /\ exists t, monitorInterval m' = Some t /\ timers w' = [t]).
Proof.
  exact (start_fails_exactly_when_session_is_missing
           (create codexReal) (worldWith (Some twoSessions) []) eq_refl).
Defined.

Lemma start_while_running_witness :
  start runningMonitor (worldWith None [])
  = (Returned, runningMonitor, worldWith None [])
  /\ length (timers (snd (runOps [OpStart; OpStart; OpTick 0; OpStop; OpStart]
                            (create codexReal, worldWith (Some codexReal) []))))
     <= 1.
Proof.
  destruct (start_while_running_is_a_no_op_and_the_timer_is_unique
              runningMonitor (worldWith None []) eq_refl) as [H1 H2].
  split; [exact H1|].
  exact (H2 codexReal (worldWith (Some codexReal) [])
           [OpStart; OpStart; OpTick 0; OpStop; OpStart] eq_refl).
Defined.

(** C8, as stated, fails when the capture that fails is the one an event
    handler makes: the cycle below makes two captures, the second fails, and
    the completion event is emitted all the same. *)
Lemma handler_capture_failure_does_not_stop_the_event :
  let w := {| sessions := Some codexReal;
              captures := [Some finishedPane99; None];
              timers := [0]; nextTimer := 1; calls := []; emitted := [] |} in
  let '(m', w') := tick 0 runningMonitor w in
  calls w' = [CapturePane codexReal; CapturePane codexReal]
  /\ captures w' = []
  /\ map kind (emitted w') = [TaskCompleted].
Proof.
  vm_compute. repeat split.
Qed.

Lemma failed_poll_capture_witness :
  let w := {| sessions := Some codexReal; captures := [None];
              timers := [0]; nextTimer := 1; calls := []; emitted := [] |} in
  fst (_captureCurrentContent runningMonitor w) = []
  /\ emitted (snd (_checkForChanges runningMonitor w)) = []
  /\ control (fst (_checkForChanges runningMonitor w)) = control runningMonitor
  /\ timers (snd (_checkForChanges runningMonitor w)) = [0].
Proof.
  destruct (failed_poll_capture_skips_the_cycle runningMonitor
              {| sessions := Some codexReal; captures := [None];
                 timers := [0]; nextTimer := 1; calls := []; emitted := [] |}
              eq_refl) as (H1 & H2 & H3 & H4 & _).
  repeat split; assumption.
Defined.

(** *** Extraction on concrete buffers *)

Definition promptAlone : jsstring := Eval vm_compute in u "› fix the bug".

(** C2, as stated, fails on a buffer whose prompt line is followed by no
    content: the concatenation of the content lines is the empty string, and
    the response is the sentinel. *)
Lemma prompt_without_content_yields_sentinel :
  locatedPrompt (split LF promptAlone) [] promptAlone []
  /\ join LF (contentLines []) = []
  /\ claudeResponse (extractConversation promptAlone) = s_noResponse
  /\ claudeResponse (_extractRecentConversation (create codexReal) promptAlone)
     = s_taskCompleted
  /\ claudeResponse (extractConversation promptAlone)
     <> join LF (contentLines []).
Proof.
  split; [split; [reflexivity | split; [reflexivity | constructor]]|].
  split; [reflexivity|]. split; [reflexivity|]. split; [reflexivity|].
  discriminate.
Qed.

Definition fixedPane : jsstring :=
  Eval vm_compute in
    pane ["earlier output"; "│ › fix the bug"; ""; "• Edited src/app.js";
          "  all tests pass  "; "│ ──────── │"; "›";
          "  ? for shortcuts"]%string.

Definition fixedPaneAfter : list jsstring :=
  Eval vm_compute in
    map u [""; "• Edited src/app.js"; "  all tests pass  "; "│ ──────── │";
           "›"; "  ? for shortcuts"]%string.

Lemma fixedPane_located :
  locatedPrompt (split LF fixedPane) [u "earlier output"]
    (u "│ › fix the bug") fixedPaneAfter.
Proof.
  split; [reflexivity|]. split; [reflexivity|]. repeat constructor.
Qed.

Lemma fixedPane_recent_located :
  locatedPrompt (recentLines (create codexReal) fixedPane) [u "earlier output"]
    (u "│ › fix the bug") fixedPaneAfter.
Proof.
  split; [reflexivity|]. split; [reflexivity|]. repeat constructor.
Qed.

Lemma fixedPane_prompt_plain : ~ In ESC (u "│ › fix the bug").
Proof.
  cbv. intros H. repeat (destruct H as [H|H]; [discriminate H|]). exact H.
Qed.

Lemma extraction_witness :
  (userQuestion (extractConversation fixedPane) = u "fix the bug"
   /\ claudeResponse (extractConversation fixedPane)
      = pane ["• Edited src/app.js"; "all tests pass"]%string)
  /\ (userQuestion (_extractRecentConversation (create codexReal) fixedPane)
      = u "fix the bug"
      /\ claudeResponse (_extractRecentConversation (create codexReal) fixedPane)
         = pane ["• Edited src/app.js"; "all tests pass"]%string).
Proof.
  destruct (extraction_returns_last_prompt_and_following_content
              (create codexReal) fixedPane [u "earlier output"]
              (u "│ › fix the bug") fixedPaneAfter fixedPane_prompt_plain)
    as [H1 H2].
  split; [exact (H1 fixedPane_located) | exact (H2 fixedPane_recent_located)].
Defined.

Lemma response_witness :
  claudeResponse (extractConversation fixedPane) <> []
  /\ claudeResponse (extractConversation fixedPane)
     = pane ["• Edited src/app.js"; "all tests pass"]%string
  /\ claudeResponse (_extractRecentConversation (create codexReal) fixedPane)
     = pane ["• Edited src/app.js"; "all tests pass"]%string.
Proof.
  destruct (response_is_never_empty_and_sentinel_only_without_content
              (create codexReal) fixedPane) as (H1 & _ & H3 & H4).
  split; [exact H1|]. split.
  - apply (proj1 (H3 _ _ _ fixedPane_located)). discriminate.
  - apply (proj1 (H4 _ _ _ fixedPane_recent_located)). discriminate.
Defined.

(** A prompt line that begins with a colour sequence is recognised as a
    prompt line, since the test strips the sequence, but its prefix is
    removed from the unstripped text, where it is not found: the question
    keeps border and marker.  The key derivation of
    [_detectTelegramDoneCompletion] strips the sequences first. *)
Lemma coloured_prompt_keeps_its_marker :
  let l := ESC :: u "[1m› fix the bug" in
  isPromptText l = true
  /\ userQuestion (extractConversation (join LF [l; u "ok"])) = l
  /\ findKeyPromptDown [l] 1 = Some (0, u "fix the bug").
Proof.
  vm_compute. repeat split.
Qed.

(** *** A change of the context counter *)





(** The line that changes has to be a chrome line in the second capture.
    When the context counter, with nothing but blank lines after it, gives
    way to a blank line, no new line is reported, the last non-blank line of
    the tail is the empty prompt, and the question above it raises a waiting
    event. *)
Definition questionAbove : list string :=
  ["I looked at the repo."; "There are two options.";
   "Option A keeps the old API."; "Option B is a rewrite.";
   "Would you like me to go with option A?"; "›"]%string.

Definition blankRows : list string := [""; ""; ""; ""; ""; ""; ""; ""]%string.

Definition counterBelow : jsstring :=
  Eval vm_compute in
    pane (questionAbove ++ ["  98% context left"]%string ++ blankRows).

Definition counterGone : jsstring :=
  Eval vm_compute in pane (questionAbove ++ [""]%string ++ blankRows).

Lemma vanished_counter_raises_waiting :
  split LF counterBelow
  = map u (questionAbove ++ ["  98% context left"]%string ++ blankRows)
  /\ split LF counterGone = map u (questionAbove ++ [""]%string ++ blankRows)
  /\ isUiLine (trim (u "  98% context left")) = true
  /\ map kind
       (emitted
          (snd (_checkForChanges
                  (set_lastPaneContent counterBelow runningMonitor)
                  (worldWith (Some codexReal)
                     [Some counterGone; Some counterGone]))))
     = [WaitingForInput].
Proof.
  vm_compute. repeat split.
Qed.

(** The waiting test alone would accept the context counter; it is the
    completion patterns, tried first, that take it. *)
Lemma context_counter_is_shadowed :
  _shouldTriggerWaitingNotification (u "  98% context left") = true
  /\ _detectTaskCompletion (u "  98% context left") [] = true.
Proof.
  vm_compute. split; reflexivity.
Qed.



End MonitorScenarios.

(* ================================================================== *)
(** ** More about the monitor loop *)
(* ================================================================== *)

Section MonitorBookkeeping.
Import JS Regex Monitor.

(** Everything of a monitor but its two keys against repeated
    notifications. *)
Definition besideKeys (m : Monitor)
  : jsstring * bool * option nat * jsstring * list jsstring * jsstring :=
  (sessionName m, isMonitoring m, monitorInterval m, lastPaneContent m,
   outputBuffer m, lastCompletionTail m).

Lemma telegramDone_besideKeys :
  forall m paneText,
    besideKeys (snd (_detectTelegramDoneCompletion m paneText)) = besideKeys m
    /\ lastCompletionKey (snd (_detectTelegramDoneCompletion m paneText))
       = lastCompletionKey m.
Proof.
  intros m paneText. unfold _detectTelegramDoneCompletion.
  destruct (negb (truthy paneText)); [split; reflexivity|].
  destruct (findDoneDown _ _); [|split; reflexivity].
  destruct (JS.eqb _ _); split; reflexivity.
Qed.

Lemma completionFromPane_besideKeys :
  forall m paneText,
    besideKeys (snd (_detectCompletionFromPane m paneText)) = besideKeys m
    /\ lastTelegramDoneKey (snd (_detectCompletionFromPane m paneText))
       = lastTelegramDoneKey m.
Proof.
  intros m paneText. unfold _detectCompletionFromPane.
  destruct (negb (truthy paneText)); [split; reflexivity|].
  destruct (negb (truthy _)); [split; reflexivity|].
  destruct (test re_telegramDone _).
  - destruct (JS.eqb _ _); split; reflexivity.
  - destruct (negb _); [split; reflexivity|].
    destruct (JS.eqb _ _); split; reflexivity.
Qed.

(** The done-marker detector looks at nothing of the monitor but the key it
    recorded last. *)
Lemma telegramDone_reads_its_key :
  forall m m' paneText,
    lastTelegramDoneKey m' = lastTelegramDoneKey m ->
    fst (_detectTelegramDoneCompletion m' paneText)
    = fst (_detectTelegramDoneCompletion m paneText)
    /\ lastTelegramDoneKey (snd (_detectTelegramDoneCompletion m' paneText))
       = lastTelegramDoneKey (snd (_detectTelegramDoneCompletion m paneText)).
Proof.
  intros m m' paneText H. unfold _detectTelegramDoneCompletion.
  destruct (negb (truthy paneText)); [split; [reflexivity | exact H]|].
  destruct (findDoneDown _ _); [|split; [reflexivity | exact H]].
  rewrite H. destruct (JS.eqb _ _); split; try reflexivity; exact H.
Qed.

(** A second look of the done-marker detector at the same pane, with the key
    the first look left, reports nothing. *)
Lemma telegramDone_second_look :
  forall m paneText m2,
    lastTelegramDoneKey m2
    = lastTelegramDoneKey (snd (_detectTelegramDoneCompletion m paneText)) ->
    fst (_detectTelegramDoneCompletion m2 paneText) = None
    /\ lastTelegramDoneKey (snd (_detectTelegramDoneCompletion m2 paneText))
       = lastTelegramDoneKey m2.
Proof.
  intros m paneText m2 H.
  unfold _detectTelegramDoneCompletion in *.
  destruct (negb (truthy paneText)); [split; reflexivity|].
  destruct (findDoneDown (split LF paneText) (length (split LF paneText)))
    as [lastIndex|]; [|split; reflexivity].
  match type of H with
  | context [JS.eqb ?key (lastTelegramDoneKey m)] =>
    destruct (JS.eqb key (lastTelegramDoneKey m)) eqn:K
  end; cbn [snd] in H.
  - apply eqb_eq in K. rewrite H, <- K, eqb_refl. split; [reflexivity|].
    cbn [snd]. congruence.
  - cbn [lastTelegramDoneKey set_lastTelegramDoneKey] in H.
    rewrite H, eqb_refl. split; [reflexivity | exact H].
Qed.


Lemma handleTaskCompletion_emits_one :
  forall m w newLines override,
    exists e,
      emitted (_handleTaskCompletion m w newLines override) = emitted w ++ [e]
      /\ kind e = TaskCompleted.
Proof.
  intros m w newLines override. unfold _handleTaskCompletion.
  assert (E := capture_keeps_emitted m w).
  destruct (_captureCurrentContent m w) as [c w1]. simpl in E.
  eexists. split; [simpl; rewrite E; reflexivity | reflexivity].
Qed.

Lemma handleWaiting_emits_one :
  forall m w newLines,
    exists e,
      emitted (_handleWaitingForInput m w newLines) = emitted w ++ [e]
      /\ kind e = WaitingForInput.
Proof.
  intros m w newLines. unfold _handleWaitingForInput.
  assert (E := capture_keeps_emitted m w).
  destruct (_captureCurrentContent m w) as [c w1]. simpl in E.
  eexists. split; [simpl; rewrite E; reflexivity | reflexivity].
Qed.

(** At most one event more. *)
Definition atMostOneMore (w w' : World) : Prop :=
  exists l, emitted w' = emitted w ++ l /\ length l <= 1.

Lemma atMostOneMore_same :
  forall w w', emitted w' = emitted w -> atMostOneMore w w'.
Proof.
  intros w w' H. exists []. split; [now rewrite app_nil_r | simpl; lia].
Qed.

Lemma atMostOneMore_one :
  forall w w' e, emitted w' = emitted w ++ [e] -> atMostOneMore w w'.
Proof.
  intros w w' e H. exists [e]. split; [exact H | simpl; lia].
Qed.

(** What an analysis does to the monitor and to the events: one event at
    most, nothing of the monitor touched but the two keys, and the key of
    the done marker left as the marker detector set it. *)
Lemma analyze_bookkeeping :
  forall m w newLines currentContent,
    atMostOneMore w (snd (_analyzeNewContent m w newLines currentContent))
    /\ besideKeys (fst (_analyzeNewContent m w newLines currentContent))
       = besideKeys m
    /\ lastTelegramDoneKey (fst (_analyzeNewContent m w newLines currentContent))
       = lastTelegramDoneKey
           (snd (_detectTelegramDoneCompletion m
                   (orElse currentContent (lastPaneContent m)))).
Proof.
  intros m w newLines currentContent. unfold _analyzeNewContent.
  set (paneText := orElse currentContent (lastPaneContent m)).
  destruct (telegramDone_besideKeys m paneText) as [B1 _].
  destruct (_detectTelegramDoneCompletion m paneText) as [[conv|] m1];
    cbn [snd] in *.
  - destruct (handleTaskCompletion_emits_one m1 w newLines (Some conv))
      as [e [E _]].
    repeat split; [eapply atMostOneMore_one; exact E | exact B1].
  - destruct (completionFromPane_besideKeys m1 paneText) as [B2 K2].
    destruct (_detectCompletionFromPane m1 paneText) as [b m2]. cbn [snd] in *.
    assert (B : besideKeys m2 = besideKeys m) by congruence.
    destruct (handleTaskCompletion_emits_one m2 w newLines None) as [e [E _]].
    destruct (handleWaiting_emits_one m2 w newLines) as [e' [E' _]].
    destruct b; cbn [fst snd];
      [repeat split; [eapply atMostOneMore_one; exact E | exact B | exact K2]|].
    destruct (_ || _); cbn [fst snd];
      [repeat split; [eapply atMostOneMore_one; exact E | exact B | exact K2]|].
    destruct (_shouldTriggerWaitingNotification _); cbn [fst snd];
      repeat split; try exact B; try exact K2;
      [eapply atMostOneMore_one; exact E' | now apply atMostOneMore_same].
Qed.

Lemma orElse_truthy : forall a b, truthy a = true -> orElse a b = a.
Proof. intros [|x a] b H; [discriminate H | reflexivity]. Qed.

(** The first half of a poll cycle: the capture is compared with the last
    one, what is new is pushed to the buffer, and the change is analysed. *)
Definition analysedChange (m : Monitor) (currentContent : jsstring) (w1 : World)
  : Monitor * World :=
  match _getNewLines (lastPaneContent m) currentContent with
  | (_ :: _) as newLines =>
    let pushed := outputBuffer m ++ newLines in
    _analyzeNewContent
      (set_outputBuffer
         (if maxBufferSize <? length pushed
          then sliceLast maxBufferSize pushed else pushed) m)
      w1 newLines currentContent
  | [] =>
    let tailLines := filter nonBlank (sliceLast 20 (split LF currentContent)) in
    if _isPromptOnlyLine (last tailLines []) && truthy (join LF tailLines)
       && negb (JS.eqb (join LF tailLines) (lastCompletionTail m))
    then _analyzeNewContent (set_lastCompletionTail (join LF tailLines) m) w1
           (sliceLast 5 tailLines) currentContent
    else (m, w1)
  end.

(** The second half: the scan of the whole pane for the done marker. *)
Definition markerScan (currentContent : jsstring) (st : Monitor * World)
  : Monitor * World :=
  match _detectTelegramDoneCompletion (fst st) currentContent with
  | (Some conv, m3) => (m3, _handleTaskCompletion m3 (snd st) [] (Some conv))
  | (None, m3) => (m3, snd st)
  end.

(** [_checkForChanges] by its halves. *)
Lemma checkForChanges_halves :
  forall m w,
    _checkForChanges m w
    = let currentContent := fst (_captureCurrentContent m w) in
      let w1 := snd (_captureCurrentContent m w) in
      if JS.eqb currentContent (lastPaneContent m) then (m, w1)
      else
        let st := analysedChange m currentContent w1 in
        let st' := if truthy currentContent then markerScan currentContent st
                   else st in
        (set_lastPaneContent currentContent (fst st'), snd st').
Proof.
  intros m w. unfold _checkForChanges, analysedChange, markerScan.
  destruct (_captureCurrentContent m w) as [currentContent w1]. cbn [fst snd].
  destruct (JS.eqb currentContent (lastPaneContent m)) eqn:E; cbn [negb].
  - rewrite andb_false_r. reflexivity.
  - rewrite andb_true_r.
    destruct (_getNewLines (lastPaneContent m) currentContent) as [|l ls].
    + destruct (_ && _).
      * destruct (_analyzeNewContent _ _ _ _) as [m2 w2]. cbn [fst snd].
        destruct (truthy currentContent); [|reflexivity].
        destruct (_detectTelegramDoneCompletion m2 currentContent)
          as [[conv|] m3]; reflexivity.
      * cbn [fst snd]. destruct (truthy currentContent); [|reflexivity].
        destruct (_detectTelegramDoneCompletion m currentContent)
          as [[conv|] m3]; reflexivity.
    + destruct (_analyzeNewContent _ _ _ _) as [m2 w2]. cbn [fst snd].
      destruct (truthy currentContent); [|reflexivity].
      destruct (_detectTelegramDoneCompletion m2 currentContent)
        as [[conv|] m3]; reflexivity.
Qed.

(** After the first half either nothing was emitted and only the tail of the
    last completion may have changed, or one event at most was emitted and
    the marker detector has already looked at this capture. *)
Lemma analysedChange_bookkeeping :
  forall m currentContent w1,
    let st := analysedChange m currentContent w1 in
    (st = (m, w1)
     \/ atMostOneMore w1 (snd st)
        /\ (truthy currentContent = true ->
            fst (_detectTelegramDoneCompletion (fst st) currentContent) = None
            /\ lastTelegramDoneKey
                 (snd (_detectTelegramDoneCompletion (fst st) currentContent))
               = lastTelegramDoneKey (fst st))).
Proof.
  intros m currentContent w1. unfold analysedChange.
  destruct (_getNewLines (lastPaneContent m) currentContent) as [|l ls].
  - destruct (_ && _); [|left; reflexivity]. right.
    match goal with
    | |- context [_analyzeNewContent ?a ?b ?c ?d] =>
      destruct (analyze_bookkeeping a b c d) as (A1 & _ & A3)
    end.
    split; [exact A1|]. intros T.
    rewrite (orElse_truthy _ _ T) in A3.
    eapply telegramDone_second_look. exact A3.
  - right.
    match goal with
    | |- context [_analyzeNewContent ?a ?b ?c ?d] =>
      destruct (analyze_bookkeeping a b c d) as (A1 & _ & A3)
    end.
    split; [exact A1|]. intros T.
    rewrite (orElse_truthy _ _ T) in A3.
    eapply telegramDone_second_look. exact A3.
Qed.

(** X1.  A poll cycle emits one event at most: when the analysis of the
    change has looked at the capture, the scan for the done marker that
    follows it finds the key it would report already recorded. *)
Theorem poll_cycle_emits_at_most_one_event :
  forall m w,
    exists l,
      emitted (snd (_checkForChanges m w)) = emitted w ++ l /\ length l <= 1.
Proof.
  intros m w. rewrite checkForChanges_halves. cbv zeta.
  assert (E := capture_keeps_emitted m w).
  destruct (_captureCurrentContent m w) as [currentContent w1]. cbn [fst snd] in *.
  destruct (JS.eqb currentContent (lastPaneContent m)).
  { exists []. cbn [snd]. rewrite app_nil_r. split; [exact E | simpl; lia]. }
  cbn [snd]. rewrite <- E.
  destruct (analysedChange_bookkeeping m currentContent w1) as [S | [A S]].
  - rewrite S. destruct (truthy currentContent);
      [|exists []; cbn [snd]; rewrite app_nil_r; split; [reflexivity | simpl; lia]].
    unfold markerScan. cbn [fst snd].
    destruct (_detectTelegramDoneCompletion m currentContent) as [[conv|] m3];
      cbn [snd].
    + destruct (handleTaskCompletion_emits_one m3 w1 [] (Some conv)) as [e [X _]].
      exists [e]. split; [exact X | simpl; lia].
    + exists []. rewrite app_nil_r. split; [reflexivity | simpl; lia].
  - destruct (truthy currentContent); [|exact A].
    destruct (S eq_refl) as [S1 _]. unfold markerScan.
    destruct (_detectTelegramDoneCompletion (fst (analysedChange m currentContent w1))
                currentContent) as [[conv|] m3]; cbn [fst snd] in *;
      [discriminate S1 | exact A].
Qed.


(** *** Polls of a pane that does not change *)

(** [n] poll cycles in a row. *)
Definition polls (n : nat) (st : Monitor * World) : Monitor * World :=
  Nat.iter n (fun st => _checkForChanges (fst st) (snd st)) st.

Lemma polls_S :
  forall n st,
    polls (S n) st = polls n (_checkForChanges (fst st) (snd st)).
Proof.
  intros n st. unfold polls. now rewrite Nat.iter_succ_r.
Qed.

Lemma checkForChanges_same_capture :
  forall m w rest,
    captures w = Some (lastPaneContent m) :: rest ->
    _checkForChanges m w
    = (m, {| sessions := sessions w; captures := rest; timers := timers w;
             nextTimer := nextTimer w;
             calls := calls w ++ [CapturePane (sessionName m)];
             emitted := emitted w |}).
Proof.
  intros m w rest H. rewrite checkForChanges_halves. cbv zeta.
  unfold _captureCurrentContent. rewrite H. cbn [fst snd].
  rewrite eqb_refl. unfold popCapture, logCall. cbn. rewrite H. reflexivity.
Qed.

(** X2.  While the pane keeps showing what the monitor saw last, any number
    of poll cycles leaves the monitor as it is and emits nothing; each cycle
    costs one capture command. *)
Theorem unchanged_pane_is_polled_silently :
  forall n m w rest,
    captures w = repeat (Some (lastPaneContent m)) n ++ rest ->
    fst (polls n (m, w)) = m
    /\ emitted (snd (polls n (m, w))) = emitted w
    /\ captures (snd (polls n (m, w))) = rest
    /\ calls (snd (polls n (m, w)))
       = calls w ++ repeat (CapturePane (sessionName m)) n.
Proof.
  induction n as [|n IH]; intros m w rest H.
  - cbn. rewrite app_nil_r. repeat split. exact H.
  - rewrite polls_S. cbn [fst snd].
    rewrite (checkForChanges_same_capture m w (repeat (Some (lastPaneContent m)) n ++ rest) H).
    match goal with
    | |- context [polls n (m, ?w')] => destruct (IH m w' rest eq_refl) as (A & B & C & D)
    end.
    repeat split; try assumption.
    rewrite D. cbn [calls repeat]. rewrite <- app_assoc. reflexivity.
Qed.

(** *** The output buffer *)

Lemma sliceLast_length :
  forall (A : Type) n (l : list A), 0 < n -> length (sliceLast n l) <= n.
Proof.
  intros A n l H. unfold sliceLast. destruct n as [|n]; [lia|].
  rewrite length_skipn. lia.
Qed.

Lemma sliceLast_Forall :
  forall (A : Type) (P : A -> Prop) n l, Forall P l -> Forall P (sliceLast n l).
Proof.
  intros A P n l H. unfold sliceLast. destruct n; [exact H|].
  now apply Forall_skipn'.
Qed.

(** The buffer holds a thousand lines at most, none of them blank. *)
Definition bufferInvariant (m : Monitor) : Prop :=
  length (outputBuffer m) <= maxBufferSize
  /\ Forall (fun line => nonBlank line = true) (outputBuffer m).

Lemma getNewLines_nonBlank :
  forall oldContent newContent,
    Forall (fun line => nonBlank line = true) (_getNewLines oldContent newContent).
Proof.
  intros oldContent newContent. unfold _getNewLines.
  apply Forall_forall. intros x Hx. apply filter_In in Hx. tauto.
Qed.

Lemma besideKeys_buffer :
  forall m m', besideKeys m' = besideKeys m -> outputBuffer m' = outputBuffer m.
Proof. unfold besideKeys. intros m m' H. congruence. Qed.

Lemma analysedChange_bufferInvariant :
  forall m currentContent w1,
    bufferInvariant m ->
    bufferInvariant (fst (analysedChange m currentContent w1)).
Proof.
  intros m currentContent w1 [H1 H2]. unfold analysedChange.
  assert (N := getNewLines_nonBlank (lastPaneContent m) currentContent).
  destruct (_getNewLines (lastPaneContent m) currentContent) as [|l ls].
  - destruct (_ && _); [|split; assumption].
    match goal with
    | |- context [_analyzeNewContent ?a ?b ?c ?d] =>
      destruct (analyze_bookkeeping a b c d) as (_ & B & _)
    end.
    unfold bufferInvariant. rewrite (besideKeys_buffer _ _ B). split; assumption.
  - match goal with
    | |- context [_analyzeNewContent ?a ?b ?c ?d] =>
      destruct (analyze_bookkeeping a b c d) as (_ & B & _)
    end.
    unfold bufferInvariant. rewrite (besideKeys_buffer _ _ B).
    cbn [outputBuffer set_outputBuffer].
    assert (F : Forall (fun line => nonBlank line = true) (outputBuffer m ++ l :: ls))
      by (apply Forall_app; split; assumption).
    destruct (maxBufferSize <? length (outputBuffer m ++ l :: ls)) eqn:E.
    + split; [apply sliceLast_length; unfold maxBufferSize; lia
             | now apply sliceLast_Forall].
    + apply Nat.ltb_ge in E. split; assumption.
Qed.

Lemma checkForChanges_bufferInvariant :
  forall m w, bufferInvariant m -> bufferInvariant (fst (_checkForChanges m w)).
Proof.
  intros m w H. rewrite checkForChanges_halves. cbv zeta.
  destruct (JS.eqb _ _); [exact H|]. cbn [fst].
  set (c := fst (_captureCurrentContent m w)).
  set (w1 := snd (_captureCurrentContent m w)).
  assert (A := analysedChange_bufferInvariant m c w1 H).
  unfold bufferInvariant. cbn [outputBuffer set_lastPaneContent].
  destruct (truthy c); [|exact A].
  unfold markerScan.
  destruct (telegramDone_besideKeys (fst (analysedChange m c w1)) c) as [B _].
  destruct (_detectTelegramDoneCompletion (fst (analysedChange m c w1)) c)
    as [[conv|] m3]; cbn [fst snd] in *;
    rewrite (besideKeys_buffer _ _ B); exact A.
Qed.

Lemma step_bufferInvariant :
  forall st op, bufferInvariant (fst st) -> bufferInvariant (fst (step st op)).
Proof.
  intros [m w] op H. cbn [fst] in H. destruct op as [| |t|sess caps]; cbn [step].
  - unfold start. destruct (isMonitoring m); [exact H|].
    destruct (_sessionExists m w) as [b w1]. destruct b; cbn [negb]; [|exact H].
    unfold _startRealTimeMonitoring.
    destruct (_captureCurrentContent _ w1) as [c w2]. exact H.
  - unfold stop. destruct (isMonitoring m); cbn [negb]; [|exact H].
    cbn [monitorInterval set_isMonitoring].
    destruct (monitorInterval m); exact H.
  - unfold tick, onInterval. destruct (existsb _ _); [|exact H].
    destruct (isMonitoring m); [|exact H].
    now apply checkForChanges_bufferInvariant.
  - exact H.
Qed.

(** X3.  Whatever is done with a monitor and whatever tmux answers, the
    output buffer never holds more than [maxBufferSize] lines, and never a
    blank one. *)
Theorem output_buffer_is_bounded_and_without_blank_lines :
  forall ops name w,
    length (outputBuffer (fst (runOps ops (create name, w)))) <= maxBufferSize
    /\ Forall (fun line => nonBlank line = true)
         (outputBuffer (fst (runOps ops (create name, w)))).
Proof.
  intros ops name w. change (bufferInvariant (fst (runOps ops (create name, w)))).
  assert (G : forall st, bufferInvariant (fst st) ->
                bufferInvariant (fst (runOps ops st))).
  { induction ops as [|op ops IH]; intros st H; [exact H|].
    cbn [runOps fold_left]. apply IH. now apply step_bufferInvariant. }
  apply G. split; [cbn; unfold maxBufferSize; lia | constructor].
Qed.


(** *** Stopping *)

(** X4.  After [stop], whatever was done with the monitor before, it is not
    running, it holds no timer and no timer is alive, so that no firing of a
    timer does anything; [stop] itself emits nothing, asks tmux nothing, and
    a second [stop] changes nothing. *)
Theorem stop_ends_polling :
  forall ops name w0,
    timers w0 = [] ->
    let st := runOps ops (create name, w0) in
    let st' := stop (fst st) (snd st) in
    isMonitoring (fst st') = false
    /\ monitorInterval (fst st') = None
    /\ timers (snd st') = []
    /\ emitted (snd st') = emitted (snd st)
    /\ calls (snd st') = calls (snd st)
    /\ (forall t, tick t (fst st') (snd st') = st')
    /\ stop (fst st') (snd st') = st'.
Proof.
  intros ops name w0 H0 st.
  assert (I : timerInvariant st).
  { apply runOps_keeps_timerInvariant. split; [exact H0 | reflexivity]. }
  destruct st as [m w]. destruct I as [I1 I2]. cbn [fst snd] in *.
  unfold stop. destruct (isMonitoring m) eqn:E; cbn [negb].
  - cbn [monitorInterval set_isMonitoring].
    destruct (monitorInterval m) as [t|] eqn:T; cbn [fst snd].
    + assert (F : timers (clearInterval t w) = []).
      { cbn [timers clearInterval]. rewrite I1. cbn [filter].
        rewrite Nat.eqb_refl. reflexivity. }
      repeat split; try reflexivity; try exact F.
      intros t'. unfold tick. rewrite F. reflexivity.
    + repeat split; try reflexivity; try exact T; try exact I1.
      intros t'. unfold tick. rewrite I1. reflexivity.
  - specialize (I2 eq_refl). rewrite I2 in I1. cbn [fst snd]. rewrite E.
    repeat split; try assumption.
    intros t'. unfold tick. rewrite I1. reflexivity.
Qed.

(** *** The rows [_getNewLines] reports *)

Lemma getNewLines_same : forall content, _getNewLines content content = [].
Proof.
  intros content. unfold _getNewLines.
  rewrite Nat.ltb_irrefl, Nat.eqb_refl.
  rewrite (changedFrom_unchanged (split LF content) (split LF content)
             (length (split LF content) - (length (split LF content) - 5)));
    [reflexivity | reflexivity | reflexivity].
Qed.

(** X5.  What [_getNewLines] reports is decided by the row counts.  When the
    pane has more rows than before, the rows beyond the old count are
    reported, without the blank ones, whatever has changed above them; when
    it has fewer rows nothing is reported; and when the count is the same
    and the last five rows are those of before, nothing is reported either,
    whatever has changed above them. *)
Theorem getNewLines_by_row_count :
  forall oldContent newContent,
    (length (split LF oldContent) < length (split LF newContent) ->
     _getNewLines oldContent newContent
     = filter nonBlank
         (skipn (length (split LF oldContent)) (split LF newContent)))
    /\ (length (split LF newContent) < length (split LF oldContent) ->
        _getNewLines oldContent newContent = [])
    /\ (length (split LF newContent) = length (split LF oldContent) ->
        skipn (length (split LF newContent) - 5) (split LF newContent)
        = skipn (length (split LF oldContent) - 5) (split LF oldContent) ->
        _getNewLines oldContent newContent = []).
Proof.
  intros oldContent newContent. unfold _getNewLines.
  set (oldLines := split LF oldContent). set (newLines := split LF newContent).
  repeat split.
  - intros H. apply Nat.ltb_lt in H. rewrite H. apply Nat.ltb_lt in H.
    unfold sliceLast.
    destruct (length newLines - length oldLines) as [|k] eqn:K; [lia|].
    do 2 f_equal. lia.
  - intros H.
    assert (A : (length oldLines <? length newLines) = false)
      by (apply Nat.ltb_ge; lia).
    assert (B : (length newLines =? length oldLines) = false)
      by (apply Nat.eqb_neq; lia).
    rewrite A, B. reflexivity.
  - intros H S. rewrite H, Nat.ltb_irrefl, Nat.eqb_refl.
    rewrite (changedFrom_unchanged oldLines newLines
               (length newLines - (length oldLines - 5)));
      [reflexivity | reflexivity|].
    intros j J1 J2. rewrite H in S.
    assert (N : forall l : list jsstring,
               nth j l [] = nth (j - (length oldLines - 5))
                              (skipn (length oldLines - 5) l) []).
    { intros l. rewrite nth_skipn. f_equal. lia. }
    rewrite (N newLines), (N oldLines), S. reflexivity.
Qed.

(** *** A change beside an idle prompt *)

Lemma handleTaskCompletion_event :
  forall m w newLines override,
    exists e,
      emitted (_handleTaskCompletion m w newLines override) = emitted w ++ [e]
      /\ kind e = TaskCompleted /\ newOutput e = newLines
      /\ evSession e = sessionName m.
Proof.
  intros m w newLines override. unfold _handleTaskCompletion.
  assert (E := capture_keeps_emitted m w).
  destruct (_captureCurrentContent m w) as [c w1]. simpl in E.
  eexists. split; [simpl; rewrite E; reflexivity | repeat split].
Qed.

(** The pane shows an empty prompt among the non-blank ones of its last
    eight rows. *)
Definition showsIdlePrompt (paneText : jsstring) : bool :=
  existsb _isPromptOnlyLine (filter nonBlank (sliceLast 8 (split LF paneText))).

Lemma showsIdlePrompt_truthy :
  forall paneText, showsIdlePrompt paneText = true -> truthy paneText = true.
Proof.
  intros [|c r] H; [discriminate H | reflexivity].
Qed.

Lemma analyze_beside_idle_prompt :
  forall m w newLines currentContent,
    showsIdlePrompt currentContent = true ->
    exists e,
      emitted (snd (_analyzeNewContent m w newLines currentContent))
      = emitted w ++ [e]
      /\ kind e = TaskCompleted /\ newOutput e = newLines
      /\ evSession e = sessionName m.
Proof.
  intros m w newLines currentContent H. unfold _analyzeNewContent.
  rewrite (orElse_truthy _ (lastPaneContent m) (showsIdlePrompt_truthy _ H)).
  destruct (telegramDone_besideKeys m currentContent) as [B1 _].
  destruct (_detectTelegramDoneCompletion m currentContent) as [[conv|] m1];
    cbn [snd] in *.
  - destruct (handleTaskCompletion_event m1 w newLines (Some conv))
      as (e & E1 & E2 & E3 & E4).
    exists e. repeat split; try assumption. unfold besideKeys in B1. congruence.
  - destruct (completionFromPane_besideKeys m1 currentContent) as [B2 _].
    destruct (_detectCompletionFromPane m1 currentContent) as [b m2].
    cbn [snd] in *.
    destruct (handleTaskCompletion_event m2 w newLines None)
      as (e & E1 & E2 & E3 & E4).
    assert (R : _detectResponseCompletion (join LF newLines)
                  (join LF (sliceLast 20 (outputBuffer m))) currentContent = true).
    { unfold _detectResponseCompletion.
      rewrite (orElse_truthy _ _ (showsIdlePrompt_truthy _ H)).
      unfold showsIdlePrompt in H. rewrite H. reflexivity. }
    rewrite R, orb_true_r.
    exists e. destruct b; cbn [snd]; repeat split; try assumption;
      unfold besideKeys in B1, B2; congruence.
Qed.

(** X6.  When the pane has changed so that new rows are reported, and an
    empty prompt stands among the non-blank ones of its last eight rows, the
    poll cycle emits exactly one event, a completion that carries the new
    rows, whatever these rows say. *)
Theorem change_beside_an_idle_prompt_is_a_completion :
  forall m w currentContent,
    hd None (captures w) = Some currentContent ->
    _getNewLines (lastPaneContent m) currentContent <> [] ->
    showsIdlePrompt currentContent = true ->
    exists e,
      emitted (snd (_checkForChanges m w)) = emitted w ++ [e]
      /\ kind e = TaskCompleted
      /\ newOutput e = _getNewLines (lastPaneContent m) currentContent
      /\ evSession e = sessionName m.
Proof.
  intros m w c Hc Hn Hp. rewrite checkForChanges_halves. cbv zeta.
  assert (E := capture_keeps_emitted m w).
  assert (C : fst (_captureCurrentContent m w) = c).
  { unfold _captureCurrentContent. destruct (captures w) as [|[x|] rest];
      cbn in Hc; try discriminate Hc. injection Hc as ->. reflexivity. }
  destruct (_captureCurrentContent m w) as [c' w1]. cbn [fst snd] in *. subst c'.
  destruct (JS.eqb c (lastPaneContent m)) eqn:Q.
  { apply eqb_eq in Q. subst c. exfalso. apply Hn. apply getNewLines_same. }
  rewrite (showsIdlePrompt_truthy _ Hp). cbn [snd].
  destruct (analysedChange_bookkeeping m c w1) as [S | [_ S]].
  - exfalso. unfold analysedChange in S.
    destruct (_getNewLines (lastPaneContent m) c) as [|l ls] eqn:N;
      [now apply Hn|].
    match type of S with
    | _analyzeNewContent ?a ?b ?c ?d = _ =>
      destruct (analyze_beside_idle_prompt a b c d Hp) as (e & X & _)
    end.
    rewrite S in X. cbn [snd] in X.
    apply (f_equal (@length Event)) in X. rewrite length_app in X.
    cbn [length] in X. lia.
  - destruct (S (showsIdlePrompt_truthy _ Hp)) as [S1 _]. unfold markerScan.
    destruct (_detectTelegramDoneCompletion (fst (analysedChange m c w1)) c)
      as [[conv|] m3] eqn:D; cbn [fst snd] in *; [discriminate S1|].
    unfold analysedChange.
    destruct (_getNewLines (lastPaneContent m) c) as [|l ls] eqn:N;
      [now contradiction Hn|].
    match goal with
    | |- context [_analyzeNewContent ?a ?b ?c ?d] =>
      destruct (analyze_beside_idle_prompt a b c d Hp) as (e & X1 & X2 & X3 & X4)
    end.
    exists e. rewrite X1, E. repeat split; assumption.
Qed.

End MonitorBookkeeping.

(* ================================================================== *)
(** ** Colour sequences *)
(* ================================================================== *)

Section ColourFacts.
Import JS Regex Monitor.

(** A colour sequence: the escape unit, a bracket, parameters made of digits
    and semicolons, and the letter m. *)
Definition colourSequence (params : jsstring) : jsstring :=
  ESC :: chr "[" :: params ++ [chr "m"].

Lemma run_ansi_any_prev :
  forall p p' s, run re_ansi Some (p, s) = run re_ansi Some (p', s).
Proof.
  intros p p' s. unfold re_ansi, seq, Chr. cbn [run snd].
  destruct s as [|c s]; reflexivity.
Qed.

Lemma replaceAll_ansi_any_prev :
  forall s p p' skip,
    replaceAllFrom re_ansi p s skip = replaceAllFrom re_ansi p' s skip.
Proof.
  induction s as [|c s IH]; intros p p' skip; [reflexivity|].
  cbn [replaceAllFrom]. destruct skip as [|n]; [|reflexivity].
  rewrite (run_ansi_any_prev p p'). reflexivity.
Qed.

Lemma replaceAllFrom_skip :
  forall r x p b,
    exists p', replaceAllFrom r p (x ++ b) (length x) = replaceAllFrom r p' b 0.
Proof.
  intros r. induction x as [|c x IH]; intros p b.
  - exists p. reflexivity.
  - destruct (IH (Some c) b) as [p' E]. exists p'. exact E.
Qed.

Lemma ansiParam_not_m : forall c, ansiParam c = true -> (chr "m" =? c)%N = false.
Proof.
  intros c H. apply N.eqb_neq. intros <-. discriminate H.
Qed.

Lemma dropWhile_params :
  forall params b,
    forallb ansiParam params = true ->
    dropWhile ansiParam (params ++ chr "m" :: b) = chr "m" :: b.
Proof.
  induction params as [|x params IH]; intros b H; [reflexivity|].
  cbn [forallb] in H. apply andb_true_iff in H as [Hx H].
  cbn [app dropWhile]. rewrite Hx. now apply IH.
Qed.

(** At a colour sequence the expression matches the whole sequence. *)
Lemma run_ansi_at_sequence :
  forall p params b,
    forallb ansiParam params = true ->
    exists pv, run re_ansi Some (p, colourSequence params ++ b) = Some (pv, b).
Proof.
  intros p params b H. unfold re_ansi, seq, colourSequence, Chr.
  cbn [app run snd]. rewrite !N.eqb_refl. cbn [fst snd].
  rewrite <- app_assoc. cbn [app].
  rewrite (rep_greedy ansiParam (run (Cls (N.eqb (chr "m"))) Some)).
  - rewrite (dropWhile_params params b H). cbn [run snd].
    rewrite N.eqb_refl. eexists. reflexivity.
  - intros pv c r Hc. cbn [run snd]. now rewrite (ansiParam_not_m c Hc).
Qed.

Lemma replaceAllFrom_at_match :
  forall r p (c : char) (s' : jsstring) pv rest n,
    run r Some (p, c :: s') = Some (pv, rest) ->
    length (c :: s') - length rest = S n ->
    replaceAllFrom r p (c :: s') 0 = replaceAllFrom r (Some c) s' n.
Proof.
  intros r p c s' pv rest n R L. cbn [replaceAllFrom].
  unfold pos, jsstring in *. rewrite R, L. reflexivity.
Qed.

Lemma replaceAll_ansi_sequence :
  forall a p params b,
    ~ In ESC a -> forallb ansiParam params = true ->
    replaceAllFrom re_ansi p (a ++ colourSequence params ++ b) 0
    = a ++ replaceAllFrom re_ansi None b 0.
Proof.
  induction a as [|c a IH]; intros p params b Ha H.
  - cbn [app]. destruct (run_ansi_at_sequence p params b H) as [pv R].
    unfold colourSequence in *. cbn [app] in *.
    rewrite (replaceAllFrom_at_match re_ansi p ESC
               (chr "[" :: (params ++ [chr "m"]) ++ b) pv b
               (length (chr "[" :: params ++ [chr "m"])) R).
    + change (chr "[" :: (params ++ [chr "m"]) ++ b)
        with ((chr "[" :: params ++ [chr "m"]) ++ b).
      destruct (replaceAllFrom_skip re_ansi (chr "[" :: params ++ [chr "m"])
                  (Some ESC) b) as [p' E].
      rewrite E. apply replaceAll_ansi_any_prev.
    + cbn [length]. rewrite !length_app. cbn [length]. lia.
  - cbn [app replaceAllFrom].
    assert (N : run re_ansi Some (p, c :: a ++ colourSequence params ++ b) = None).
    { apply (run_needs_first re_ansi (N.eqb ESC) eq_refl).
      apply N.eqb_neq. intros E. apply Ha. now left. }
    unfold pos, jsstring in *. rewrite N. f_equal.
    apply IH; [|exact H]. intros I. apply Ha. now right.
Qed.

(** X7.  [_stripAnsi] removes a colour sequence and leaves the text before
    it as it is; what follows the sequence is stripped in the same way. *)
Theorem stripAnsi_removes_a_colour_sequence :
  forall a params b,
    ~ In ESC a -> forallb ansiParam params = true ->
    _stripAnsi (a ++ colourSequence params ++ b) = a ++ _stripAnsi b.
Proof.
  intros a params b Ha H. unfold _stripAnsi, replaceAll.
  now apply replaceAll_ansi_sequence.
Qed.

End ColourFacts.

(* ================================================================== *)
(** ** Extraction from a text without a prompt line *)
(* ================================================================== *)

Section ExtractionWithoutPrompt.
Import JS Regex Monitor.

Lemma findPromptDown_none :
  forall lines n,
    n <= length lines ->
    Forall (fun x => isPromptText x = false) lines ->
    findPromptDown lines n = None.
Proof.
  intros lines. induction n as [|n IH]; intros Hn H; [reflexivity|].
  cbn [findPromptDown].
  assert (P : isPromptText (nth n lines []) = false).
  { rewrite Forall_forall in H. apply H. apply nth_In. lia. }
  unfold isPromptText in P. rewrite P. apply IH; [lia | exact H].
Qed.

(** A line the fallback of [extractConversation] accepts as the question:
    not blank and not chrome. *)
Definition isPlainLine (l : jsstring) : bool :=
  truthy (trim l) && negb (isUiLine (trim l)).

Lemma fallbackQuestionPlain_none :
  forall lines n,
    n <= length lines ->
    Forall (fun x => isPlainLine x = false) lines ->
    fallbackQuestionPlain lines n = [].
Proof.
  intros lines. induction n as [|n IH]; intros Hn H; [reflexivity|].
  cbn [fallbackQuestionPlain].
  assert (P : isPlainLine (nth n lines []) = false).
  { rewrite Forall_forall in H. apply H. apply nth_In. lia. }
  unfold isPlainLine in P. rewrite P. apply IH; [lia | exact H].
Qed.

Lemma fallbackQuestionPlain_last :
  forall pre l post,
    isPlainLine l = true ->
    Forall (fun x => isPlainLine x = false) post ->
    fallbackQuestionPlain (pre ++ l :: post) (length (pre ++ l :: post))
    = trim l.
Proof.
  intros pre l post Hl Hpost.
  assert (G : forall k, k <= length post ->
            fallbackQuestionPlain (pre ++ l :: post) (length pre + 1 + k)
            = trim l).
  { induction k as [|k IH]; intros Hk.
    - replace (length pre + 1 + 0) with (S (length pre)) by lia.
      cbn [fallbackQuestionPlain]. rewrite nth_middle.
      unfold isPlainLine in Hl. rewrite Hl. reflexivity.
    - replace (length pre + 1 + S k) with (S (length pre + 1 + k)) by lia.
      cbn [fallbackQuestionPlain].
      rewrite app_nth2 by lia.
      replace (length pre + 1 + k - length pre) with (S k) by lia.
      cbn [nth].
      assert (Hn : isPlainLine (nth k post []) = false).
      { rewrite Forall_forall in Hpost. apply Hpost. apply nth_In. lia. }
      unfold isPlainLine in Hn. rewrite Hn. apply IH. lia. }
  replace (length (pre ++ l :: post)) with (length pre + 1 + length post)
    by (rewrite length_app; simpl; lia).
  apply G. lia.
Qed.

(** X8.  For a text without a prompt line, [extractConversation] gives the
    sentinel for the response; for the question it gives the last line that
    is neither blank nor chrome, trimmed, and the sentinel when there is no
    such line. *)
Theorem extraction_without_a_prompt_line :
  forall text,
    Forall (fun x => isPromptText x = false) (split LF text) ->
    claudeResponse (extractConversation text) = s_noResponse
    /\ (forall pre l post,
          split LF text = pre ++ l :: post ->
          isPlainLine l = true ->
          Forall (fun x => isPlainLine x = false) post ->
          userQuestion (extractConversation text) = trim l)
    /\ (Forall (fun x => isPlainLine x = false) (split LF text) ->
        userQuestion (extractConversation text) = s_noUserInput).
Proof.
  intros text H. unfold extractConversation.
  rewrite (findPromptDown_none (split LF text) (length (split LF text))
             (Nat.le_refl _) H).
  cbn [truthy userQuestion claudeResponse]. repeat split.
  - intros pre l post E Hl Hp. rewrite E.
    rewrite (fallbackQuestionPlain_last pre l post Hl Hp).
    apply orElse_truthy. unfold isPlainLine in Hl.
    now destruct (truthy (trim l)).
  - intros Hn.
    rewrite (fallbackQuestionPlain_none (split LF text) (length (split LF text))
               (Nat.le_refl _) Hn).
    reflexivity.
Qed.

Lemma fallbackQuestion_zero : forall lines, fallbackQuestion lines 0 = [].
Proof. reflexivity. Qed.

(** X9.  When the window [_extractRecentConversation] looks at has no prompt
    line, the response is made of the content lines of the last forty lines
    of the window, or is the sentinel when there are none; and when the
    window has forty lines at most, the question is the sentinel. *)
Theorem recent_extraction_without_a_prompt_line :
  forall m fullContent,
    Forall (fun x => isPromptText x = false) (recentLines m fullContent) ->
    let lines := recentLines m fullContent in
    let conv := _extractRecentConversation m fullContent in
    claudeResponse conv
    = match contentLines (skipn (length lines - 40) lines) with
      | [] => s_taskCompleted
      | _ :: _ => join LF (contentLines (skipn (length lines - 40) lines))
      end
    /\ (length lines <= 40 -> userQuestion conv = s_recentCommand)
    /\ fullContext conv = Some (join LF lines).
Proof.
  intros m fullContent H lines conv. subst conv.
  unfold _extractRecentConversation. fold (recentLines m fullContent).
  fold lines.
  rewrite (findPromptDown_none lines (length lines) (Nat.le_refl _) H).
  cbn [truthy userQuestion claudeResponse fullContext].
  assert (P : Forall (fun x => isPromptText x = false)
                (skipn (length lines - 40) lines)) by now apply Forall_skipn'.
  rewrite (collectResponse_without_prompt _ P).
  repeat split.
  - rewrite Nat.max_id.
    destruct (contentLines (skipn (length lines - 40) lines)) as [|a r] eqn:C.
    + cbn [join trim trimStart trimEnd dropWhile rev truthy].
      assert (F := fallbackLines_empty (skipn (length lines - 40) lines) 0 P C).
      cbn [skipn] in F. rewrite F. reflexivity.
    + assert (T : trimmed (join LF (a :: r))).
      { apply join_trimmed; [discriminate|]. rewrite <- C.
        apply contentLines_trimmed. }
      rewrite (trimmed_trim _ T), (trimmed_truthy _ T).
      unfold orElse. now rewrite (trimmed_truthy _ T).
  - intros L. replace (length lines - 40) with 0 by lia. reflexivity.
Qed.

End ExtractionWithoutPrompt.

(* ================================================================== *)
(** ** The execution trace: facts *)
(* ================================================================== *)

Section TraceFacts.
Import JS Regex Monitor Trace.

(** A line [_filterByTimestamp] takes for user input. *)
Definition isUserInput (line : jsstring) : bool :=
  _isPromptLine line && (2 <? length (trim line)).

Lemma findUserInputDown_none :
  forall lines n,
    n <= length lines ->
    Forall (fun x => isUserInput x = false) lines ->
    findUserInputDown lines n = None.
Proof.
  intros lines. induction n as [|n IH]; intros Hn H; [reflexivity|].
  cbn [findUserInputDown].
  assert (P : isUserInput (nth n lines []) = false).
  { rewrite Forall_forall in H. apply H. apply nth_In. lia. }
  unfold isUserInput in P. rewrite P. apply IH; [lia | exact H].
Qed.

Lemma findUserInputDown_last :
  forall pre p post,
    isUserInput p = true ->
    Forall (fun x => isUserInput x = false) post ->
    findUserInputDown (pre ++ p :: post) (length (pre ++ p :: post))
    = Some (length pre).
Proof.
  intros pre p post Hp Hpost.
  assert (G : forall k, k <= length post ->
            findUserInputDown (pre ++ p :: post) (length pre + 1 + k)
            = Some (length pre)).
  { induction k as [|k IH]; intros Hk.
    - replace (length pre + 1 + 0) with (S (length pre)) by lia.
      cbn [findUserInputDown]. rewrite nth_middle.
      unfold isUserInput in Hp. rewrite Hp. reflexivity.
    - replace (length pre + 1 + S k) with (S (length pre + 1 + k)) by lia.
      cbn [findUserInputDown].
      rewrite app_nth2 by lia.
      replace (length pre + 1 + k - length pre) with (S k) by lia.
      cbn [nth].
      assert (Hn : isUserInput (nth k post []) = false).
      { rewrite Forall_forall in Hpost. apply Hpost. apply nth_In. lia. }
      unfold isUserInput in Hn. rewrite Hn. apply IH. lia. }
  replace (length (pre ++ p :: post)) with (length pre + 1 + length post)
    by (rewrite length_app; simpl; lia).
  apply G. lia.
Qed.

Lemma filterByTimestamp_located :
  forall content pre p post,
    split LF content = pre ++ p :: post ->
    isUserInput p = true ->
    Forall (fun x => isUserInput x = false) post ->
    _filterByTimestamp content = join LF (p :: post).
Proof.
  intros content pre p post E Hp Hpost. unfold _filterByTimestamp. rewrite E.
  rewrite (findUserInputDown_last pre p post Hp Hpost).
  rewrite skipn_app, skipn_all, Nat.sub_diag. reflexivity.
Qed.

(** X10.  [_filterByTimestamp] keeps the content from the last line it takes
    for user input on; when there is no such line it keeps the last hundred
    lines. *)
Theorem filterByTimestamp_keeps_from_the_last_user_input :
  forall content,
    (forall pre p post,
       split LF content = pre ++ p :: post ->
       isUserInput p = true ->
       Forall (fun x => isUserInput x = false) post ->
       _filterByTimestamp content = join LF (p :: post))
    /\ (Forall (fun x => isUserInput x = false) (split LF content) ->
        _filterByTimestamp content = join LF (sliceLast 100 (split LF content))).
Proof.
  intros content. split.
  - intros pre p post E Hp Hpost. unfold _filterByTimestamp. rewrite E.
    assert (I : findUserInputDown (pre ++ p :: post)
                  (length (pre ++ p :: post)) = Some (length pre))
      by now apply findUserInputDown_last.
    rewrite I. f_equal.
    rewrite skipn_app, skipn_all, Nat.sub_diag. reflexivity.
  - intros H. unfold _filterByTimestamp.
    assert (N : findUserInputDown (split LF content)
                  (length (split LF content)) = None)
      by (apply findUserInputDown_none; [apply Nat.le_refl | exact H]).
    rewrite N. reflexivity.
Qed.

(** What the loop of [_cleanExecutionTrace] never pushes: a prompt line, the
    top of the prompt box, an empty prompt box. *)
Definition pushable (line : jsstring) : bool :=
  negb (_isPromptLine line)
  && negb (includes s_boxTopLeft line && includes s_boxTopRight line)
  && negb (test re_emptyPromptBox line).

Lemma cleanLoop_pushes :
  forall ls start i inUserInput skipNextEmptyLine,
    Forall (fun l => In l ls /\ pushable l = true)
      (cleanLoop start i inUserInput skipNextEmptyLine ls).
Proof.
  induction ls as [|line rest IH]; intros start i f1 f2; [constructor|].
  assert (W : forall j a b,
            Forall (fun l => In l (line :: rest) /\ pushable l = true)
              (cleanLoop start j a b rest)).
  { intros j a b. eapply Forall_impl; [|apply IH].
    intros l [I P]. split; [now right | exact P]. }
  cbn [cleanLoop].
  destruct (reachedResponse start i); [constructor|].
  destruct (_isPromptLine line) eqn:P; [apply W|].
  destruct (f1 && negb _); [apply W|].
  destruct (f1 && _); [apply W|].
  destruct (includes s_boxTopLeft line && includes s_boxTopRight line) eqn:B;
    [constructor|].
  destruct (test re_emptyPromptBox line) eqn:T; [constructor|].
  constructor; [|apply W].
  split; [now left|]. unfold pushable. now rewrite P, B, T.
Qed.

Lemma dropBlankLines_suffix :
  forall ls, exists pre, ls = pre ++ dropBlankLines ls.
Proof.
  induction ls as [|l ls [pre E]]; [exists []; reflexivity|].
  cbn [dropBlankLines]. destruct (isBlank l).
  - exists (l :: pre). cbn [app]. now f_equal.
  - exists []. reflexivity.
Qed.

Lemma dropBlankLines_head :
  forall ls a r, dropBlankLines ls = a :: r -> isBlank a = false.
Proof.
  induction ls as [|l ls IH]; intros a r H; [discriminate H|].
  cbn [dropBlankLines] in H. destruct (isBlank l) eqn:B.
  - now apply (IH a r).
  - injection H as <- _. exact B.
Qed.

(** Removing the blank lines at both ends leaves, unless nothing is left, a
    first and a last line that are not blank. *)
Lemma trimmed_of_blank_lines :
  forall ls,
    let t := rev (dropBlankLines (rev (dropBlankLines ls))) in
    t <> [] -> isBlank (hd [] t) = false /\ isBlank (last t []) = false.
Proof.
  intros ls t Ht. subst t.
  destruct (dropBlankLines (rev (dropBlankLines ls))) as [|b r] eqn:Y;
    [now contradiction Ht|].
  assert (Hb := dropBlankLines_head _ _ _ Y).
  destruct (dropBlankLines_suffix (rev (dropBlankLines ls))) as [pre E].
  rewrite Y in E.
  assert (R : dropBlankLines ls = rev r ++ b :: rev pre).
  { rewrite <- (rev_involutive (dropBlankLines ls)), E, rev_app_distr.
    cbn [rev]. rewrite <- app_assoc. reflexivity. }
  cbn [rev]. split; [|now rewrite last_last].
  destruct (rev r) as [|a r'] eqn:Q; cbn [app hd]; [exact Hb|].
  cbn [app] in R. exact (dropBlankLines_head _ _ _ R).
Qed.

(** X11.  The lines of a cleaned trace are lines of the trace; none of them
    is a prompt line, the top of the prompt box or an empty prompt box; and
    neither the first nor the last of them is blank. *)
Theorem cleaned_trace_has_no_prompt_and_no_blank_ends :
  forall trace,
    _cleanExecutionTrace trace = join LF (cleanedLines trace)
    /\ Forall (fun l => In l (split LF trace) /\ pushable l = true)
         (cleanedLines trace)
    /\ (cleanedLines trace <> [] ->
        isBlank (hd [] (cleanedLines trace)) = false
        /\ isBlank (last (cleanedLines trace) []) = false).
Proof.
  intros trace. split; [reflexivity|]. split.
  - unfold cleanedLines.
    set (lines := split LF trace).
    set (pushed := cleanLoop _ 0 false false lines).
    assert (P : Forall (fun l => In l lines /\ pushable l = true) pushed)
      by apply cleanLoop_pushes.
    rewrite Forall_forall in *. intros l Hl. apply P.
    apply in_rev in Hl.
    destruct (dropBlankLines_suffix (rev (dropBlankLines pushed))) as [a Ea].
    assert (I1 : In l (rev (dropBlankLines pushed)))
      by (rewrite Ea; apply in_or_app; now right).
    apply in_rev in I1.
    destruct (dropBlankLines_suffix pushed) as [b Eb].
    rewrite Eb. apply in_or_app. now right.
  - unfold cleanedLines. apply trimmed_of_blank_lines.
Qed.


(** *** The trace read from a capture *)

Lemma split_lines_without_LF :
  forall s, Forall (fun l => ~ In LF l) (split LF s).
Proof.
  induction s as [|c s IH]; [repeat constructor; intros []|].
  cbn [split]. destruct (c =? LF)%N eqn:E.
  - constructor; [intros []|exact IH].
  - destruct (split LF s) as [|h t]; [repeat constructor|].
    + intros [I|[]]. subst c. discriminate E.
    + inversion IH as [|? ? Hh Ht]; subst. constructor; [|exact Ht].
      intros [I|I]; [subst c; discriminate E | exact (Hh I)].
Qed.

Lemma blank_is_space :
  forall l, isBlank l = true -> Forall (fun c => isSpace c = true) l.
Proof.
  intros l H. unfold isBlank in H.
  destruct (trim_decompose l) as [a [b [E [Fa Fb]]]].
  destruct (trim l); [|discriminate H]. rewrite E. cbn [app].
  apply Forall_app. split; assumption.
Qed.

Lemma blank_not_prompt : forall l, isBlank l = true -> _isPromptLine l = false.
Proof.
  intros l H. apply blank_is_space in H. unfold _isPromptLine.
  rewrite stripAnsi_plain.
  - rewrite test_promptLine. unfold afterBorder.
    rewrite (dropWhile_all isSpace l H). reflexivity.
  - intros I. rewrite Forall_forall in H. specialize (H _ I). discriminate H.
Qed.

Lemma blank_not_record :
  forall l, isBlank l = true -> startsWith s_recordSpace l = false.
Proof.
  intros l H. apply blank_is_space in H. destruct l as [|c l]; [reflexivity|].
  inversion H as [|? ? Hc _]; subst. cbn [startsWith s_recordSpace].
  destruct (9210 =? c)%N eqn:E; [|reflexivity].
  apply N.eqb_eq in E. subst c. discriminate Hc.
Qed.

Lemma prompt_not_record :
  forall l, _isPromptLine l = true -> startsWith s_recordSpace l = false.
Proof.
  intros l H. destruct l as [|c l]; [reflexivity|].
  cbn [startsWith s_recordSpace].
  destruct (9210 =? c)%N eqn:E; [|reflexivity].
  apply N.eqb_eq in E. subst c. exfalso.
  unfold _isPromptLine, _stripAnsi, replaceAll in H.
  cbn [replaceAllFrom] in H.
  rewrite (run_needs_first re_ansi (N.eqb ESC) eq_refl) in H by reflexivity.
  rewrite test_promptLine in H.
  assert (A : forall x, afterBorder (9210%N :: x) = 9210%N :: x) by reflexivity.
  rewrite A in H.
  match type of H with
  | match ?x with _ => _ end = true => destruct x; [discriminate H|]
  end.
  change (c_prompt =? 9210)%N with false in H. discriminate H.
Qed.

Lemma record_prefix :
  forall l, startsWith s_record l = false -> startsWith s_recordSpace l = false.
Proof.
  intros [|c l] H; [reflexivity|]. cbn [startsWith s_record s_recordSpace] in *.
  destruct (9210 =? c)%N; [|reflexivity]. destruct l; discriminate H.
Qed.

Lemma findResponseStartDown_none :
  forall lines n,
    n <= length lines ->
    Forall (fun x => startsWith s_recordSpace x = false) lines ->
    findResponseStartDown lines n = None.
Proof.
  intros lines. induction n as [|n IH]; intros Hn H; [reflexivity|].
  cbn [findResponseStartDown].
  assert (P : startsWith s_recordSpace (nth n lines []) = false).
  { rewrite Forall_forall in H. apply H. apply nth_In. lia. }
  rewrite P. apply IH; [lia | exact H].
Qed.

(** A line that goes on with the user input: it is not a prompt line, not
    blank, and does not begin with the record glyph. *)
Definition continuesInput (l : jsstring) : bool :=
  negb (_isPromptLine l) && negb (isBlank l) && negb (startsWith s_record l).

(** A line of the answer that is kept: it can be pushed and does not start a
    response in the Claude format. *)
Definition keptLine (l : jsstring) : bool :=
  pushable l && negb (startsWith s_recordSpace l).

Lemma cleanLoop_kept :
  forall body i skipNextEmptyLine,
    Forall (fun l => keptLine l = true) body ->
    cleanLoop None i false skipNextEmptyLine body = body.
Proof.
  induction body as [|l body IH]; intros i f H; [reflexivity|].
  inversion H as [|? ? Hl Hb]; subst. cbn [cleanLoop reachedResponse andb].
  unfold keptLine, pushable in Hl.
  destruct (_isPromptLine l); [discriminate Hl|].
  destruct (includes s_boxTopLeft l && includes s_boxTopRight l);
    [discriminate Hl|].
  destruct (test re_emptyPromptBox l); [discriminate Hl|].
  f_equal. now apply IH.
Qed.

Lemma cleanLoop_input :
  forall more blank body i,
    Forall (fun l => continuesInput l = true) more ->
    isBlank blank = true ->
    Forall (fun l => keptLine l = true) body ->
    cleanLoop None i true true (more ++ blank :: body) = body.
Proof.
  induction more as [|l more IH]; intros blank body i Hc Hb Hbody.
  - cbn [app cleanLoop reachedResponse].
    rewrite (blank_not_prompt blank Hb), Hb. cbn [andb orb negb].
    now apply cleanLoop_kept.
  - inversion Hc as [|? ? Hl Hm']; subst. cbn [app cleanLoop reachedResponse].
    unfold continuesInput in Hl.
    destruct (_isPromptLine l); [discriminate Hl|].
    destruct (isBlank l); [discriminate Hl|].
    destruct (startsWith s_record l); [discriminate Hl|].
    cbn [andb orb negb]. now apply IH.
Qed.

(** X12.  When the capture file of the session, or the tmux buffer when
    there is no file, holds a last line of user input, lines that go on with
    it, a blank line and then lines that are kept, the full execution trace
    is made of these last lines, without the blank ones at their beginning
    and at their end. *)
Theorem full_trace_is_what_follows_the_last_user_input :
  forall e content pre p more blank body,
    (captureFile e = Some (Some content)
     \/ captureFile e = None /\ tmuxBuffer e = Some content) ->
    split LF content = pre ++ p :: more ++ blank :: body ->
    isUserInput p = true ->
    Forall (fun l => continuesInput l = true) more ->
    isBlank blank = true ->
    Forall (fun l => keptLine l = true) body ->
    getFullExecutionTrace e
    = join LF (rev (dropBlankLines (rev (dropBlankLines body)))).
Proof.
  intros e content pre p more blank body He E Hp Hc Hb Hbody.
  assert (G : getFullExecutionTrace e
              = _cleanExecutionTrace (_filterByTimestamp content)).
  { unfold getFullExecutionTrace, getFullTraceFromTmuxBuffer.
    destruct He as [-> | [-> ->]]; reflexivity. }
  rewrite G. clear G He.
  assert (P : _isPromptLine p = true).
  { unfold isUserInput in Hp. now apply andb_true_iff in Hp as [Hp _]. }
  assert (F : _filterByTimestamp content = join LF (p :: more ++ blank :: body)).
  { apply (filterByTimestamp_located content pre p (more ++ blank :: body)
             E Hp).
    apply Forall_app. split.
    - eapply Forall_impl; [|exact Hc]. intros l Hl. unfold isUserInput.
      unfold continuesInput in Hl. now destruct (_isPromptLine l).
    - constructor.
      + unfold isUserInput. now rewrite (blank_not_prompt blank Hb).
      + eapply Forall_impl; [|exact Hbody]. intros l Hl. unfold isUserInput.
        unfold keptLine, pushable in Hl. now destruct (_isPromptLine l). }
  rewrite F. unfold _cleanExecutionTrace, cleanedLines.
  assert (L : Forall (fun l => ~ In LF l) (p :: more ++ blank :: body)).
  { assert (A := split_lines_without_LF content). rewrite E in A.
    apply Forall_app in A. tauto. }
  rewrite (split_join (p :: more ++ blank :: body)) by (discriminate || exact L).
  rewrite findResponseStartDown_none.
  - cbn [cleanLoop reachedResponse]. rewrite P.
    rewrite (cleanLoop_input more blank body 1 Hc Hb Hbody). reflexivity.
  - apply Nat.le_refl.
  - constructor; [now apply prompt_not_record|].
    apply Forall_app. split.
    + eapply Forall_impl; [|exact Hc]. intros l Hl. apply record_prefix.
      unfold continuesInput in Hl. now destruct (startsWith s_record l);
        [rewrite andb_false_r in Hl|].
    + constructor; [now apply blank_not_record|].
      eapply Forall_impl; [|exact Hbody]. intros l Hl.
      unfold keptLine in Hl. destruct (startsWith s_recordSpace l);
        [now rewrite andb_false_r in Hl | reflexivity].
Qed.

End TraceFacts.

(* ================================================================== *)
(** ** What the autopilot sends *)
(* ================================================================== *)

Section AutopilotFacts.
Import JS.
Import Injector.

Variable session : jsstring.

(** The keys the confirmation loop answers with. *)
Definition autopilotKeys : list jsstring := [u "2"; u "1"; u "y"; u "Enter"].

(** The actions of the confirmation loop: its waits, its pane capture, and
    one of its four keys sent in single quotes. *)
Definition autopilotStep (a : Action) : Prop :=
  In a [Sleep 1500; Sleep 300; Sleep 2000; Exec (captureCommand session)]
  \/ exists key,
       In key autopilotKeys
       /\ a = Exec (sendKeysCommand session (quoted key)).

(** The attempt at which the loop ended. *)
Definition attemptsOf (e : LoopEnd) : nat :=
  match e with Exited n => n | Suspended n => n end.

(** From [w] to [w'] steps of the autopilot were added and nothing was
    written to the injection log. *)
Definition addsSteps (w w' : World) : Prop :=
  (exists l, added w w' l /\ Forall autopilotStep l)
  /\ logScript w' = logScript w.

Lemma addsSteps_refl : forall w, addsSteps w w.
Proof.
  intros w. split; [|reflexivity]. exists [].
  split; [unfold added; now rewrite app_nil_r | constructor].
Qed.

Lemma addsSteps_trans :
  forall a b c, addsSteps a b -> addsSteps b c -> addsSteps a c.
Proof.
  intros a b c [[l1 [A1 F1]] L1] [[l2 [A2 F2]] L2].
  split; [|congruence]. exists (l1 ++ l2).
  split; [eapply added_trans; eassumption | now apply Forall_app].
Qed.

Lemma sleep_step :
  forall ms w, In ms [1500; 300; 2000] -> addsSteps w (sleep ms w).
Proof.
  intros ms w H. split; [|reflexivity]. exists [Sleep ms].
  split; [reflexivity|]. constructor; [|constructor]. left.
  destruct H as [<-|[<-|[<-|[]]]]; cbn; tauto.
Qed.

Lemma getCaptureOutput_keeps_log :
  forall w, logScript (snd (getCaptureOutput session w)) = logScript w.
Proof.
  intros w. unfold getCaptureOutput. destruct (captureScript w); reflexivity.
Qed.

Lemma execSend_keeps_log :
  forall keys w, logScript (snd (execSend session keys w)) = logScript w.
Proof.
  intros keys w. unfold execSend. destruct (sendScript w); reflexivity.
Qed.

Lemma capture_step :
  forall w, addsSteps w (snd (getCaptureOutput session w)).
Proof.
  intros w. split; [|apply getCaptureOutput_keeps_log].
  exists [Exec (captureCommand session)].
  split; [exact (getCaptureOutput_trace session w)|].
  constructor; [|constructor]. left. cbn. tauto.
Qed.

Lemma key_step :
  forall key w, In key autopilotKeys ->
    addsSteps w (snd (execSend session (quoted key) w)).
Proof.
  intros key w H. split; [|apply execSend_keeps_log].
  exists [Exec (sendKeysCommand session (quoted key))].
  split; [exact (execSend_trace session (quoted key) w)|].
  constructor; [|constructor]. right. exists key. split; [exact H | reflexivity].
Qed.

Lemma option_step :
  forall key w, In key autopilotKeys ->
    addsSteps w (snd (sendOptionThenEnter session key w)).
Proof.
  intros key w H. unfold sendOptionThenEnter.
  assert (K := key_step key w H).
  destruct (execSend session (quoted key) w) as [[msg|] w1]; cbn [snd] in *;
    [exact K|].
  assert (E := key_step (u "Enter") (sleep 300 w1) ltac:(cbn; tauto)).
  destruct (execSend session (quoted (u "Enter")) (sleep 300 w1)) as [e w2].
  cbn [snd] in *.
  eapply addsSteps_trans; [exact K|].
  eapply addsSteps_trans; [|exact E]. apply sleep_step. cbn. tauto.
Qed.

(** The loop adds steps of the autopilot only; it ends at an attempt that
    is not beyond the last one it may make, and that is past the one it was
    entered with unless no attempt was left. *)
Lemma confirmLoop_steps :
  forall remaining attempts w,
    addsSteps w (snd (confirmLoop session remaining attempts w))
    /\ attempts + Nat.min 1 remaining
       <= attemptsOf (fst (confirmLoop session remaining attempts w))
    /\ attemptsOf (fst (confirmLoop session remaining attempts w))
       <= attempts + remaining.
Proof.
  induction remaining as [|r IH]; intros attempts w.
  - cbn. split; [apply addsSteps_refl | lia].
  - cbn [confirmLoop].
    assert (W0 : addsSteps w (sleep 1500 w)) by (apply sleep_step; cbn; tauto).
    assert (C := capture_step (sleep 1500 w)).
    destruct (getCaptureOutput session (sleep 1500 w)) as [c w1]. cbn [snd] in C.
    assert (W1 : addsSteps w w1) by (eapply addsSteps_trans; eassumption).
    assert (K : forall w2, addsSteps w1 w2 ->
              addsSteps w (snd (confirmLoop session r (S attempts) w2))
              /\ attempts + Nat.min 1 (S r)
                 <= attemptsOf (fst (confirmLoop session r (S attempts) w2))
              /\ attemptsOf (fst (confirmLoop session r (S attempts) w2))
                 <= attempts + S r).
    { intros w2 H2. destruct (IH (S attempts) w2) as (A & B & D).
      split; [|lia].
      eapply addsSteps_trans; [exact W1|]. eapply addsSteps_trans; eassumption. }
    assert (K0 : forall (e : nat -> LoopEnd) w2,
              (e = Exited \/ e = Suspended) -> addsSteps w1 w2 ->
              addsSteps w (snd (e (S attempts), w2))
              /\ attempts + Nat.min 1 (S r)
                 <= attemptsOf (fst (e (S attempts), w2))
              /\ attemptsOf (fst (e (S attempts), w2)) <= attempts + S r).
    { intros e w2 [-> | ->] H2; cbn [fst snd attemptsOf]; (split; [|lia]);
        eapply addsSteps_trans; eassumption. }
    destruct c as [output|];
      [|apply (K0 Exited); [now left | apply addsSteps_refl]].
    destruct (isMultiOption output).
    { assert (O := option_step (u "2") w1 ltac:(cbn; tauto)).
      destruct (sendOptionThenEnter session (u "2") w1) as [[|] w2];
        cbn [snd] in O.
      - apply K. eapply addsSteps_trans; [exact O|]. apply sleep_step.
        cbn; tauto.
      - apply (K0 Suspended); [now right | exact O]. }
    destruct (isSingleOption output).
    { assert (O := option_step (u "1") w1 ltac:(cbn; tauto)).
      destruct (sendOptionThenEnter session (u "1") w1) as [[|] w2];
        cbn [snd] in O.
      - apply K. exact O.
      - apply (K0 Suspended); [now right | exact O]. }
    destruct (isYesNo output).
    { assert (O := option_step (u "y") w1 ltac:(cbn; tauto)).
      destruct (sendOptionThenEnter session (u "y") w1) as [[|] w2];
        cbn [snd] in O.
      - apply K. exact O.
      - apply (K0 Suspended); [now right | exact O]. }
    destruct (isEnterPrompt output).
    { assert (O := key_step (u "Enter") w1 ltac:(cbn; tauto)).
      destruct (execSend session (quoted (u "Enter")) w1) as [e w2].
      cbn [snd] in O. apply K. exact O. }
    destruct (isExecuting output); [apply K; apply addsSteps_refl|].
    destruct (isIdlePrompt output);
      [apply (K0 Exited); [now left | apply addsSteps_refl]|].
    destruct (isErrorOutput output);
      [apply (K0 Exited); [now left | apply addsSteps_refl]|].
    destruct (S attempts <? maxAttempts).
    + apply K. apply sleep_step. cbn; tauto.
    + apply K. apply addsSteps_refl.
Qed.

Lemma handleConfirmations_steps :
  forall w, addsSteps w (snd (handleConfirmations session w)).
Proof.
  intros w. unfold handleConfirmations.
  destruct (confirmLoop_steps maxAttempts 0 w) as (A & _ & _).
  destruct (confirmLoop session maxAttempts 0 w) as [[n|n] w1];
    cbn [fst snd] in *; [|exact A].
  assert (C := capture_step w1).
  destruct (getCaptureOutput session w1) as [c w2]. cbn [fst snd] in *.
  eapply addsSteps_trans; eassumption.
Qed.

(** X13.  Whatever the pane shows and whatever tmux answers, the
    confirmation loop does nothing but wait, capture the pane and send one
    of its four keys, and it ends, returning or suspended, in one of its
    [maxAttempts] attempts. *)
Theorem autopilot_only_waits_captures_and_sends_its_keys :
  forall w,
    (exists l,
       trace (snd (handleConfirmations session w)) = trace w ++ l
       /\ Forall autopilotStep l)
    /\ 1 <= attemptsOf (fst (handleConfirmations session w)) <= maxAttempts.
Proof.
  intros w. split; [exact (proj1 (handleConfirmations_steps w))|].
  unfold handleConfirmations.
  destruct (confirmLoop_steps maxAttempts 0 w) as (_ & B & D).
  change (0 + Nat.min 1 maxAttempts) with 1 in B.
  destruct (confirmLoop session maxAttempts 0 w) as [[n|n] w1];
    cbn [fst snd attemptsOf] in *; [|lia].
  destruct (getCaptureOutput session w1) as [c w2]. cbn [fst attemptsOf]. lia.
Qed.

(** *** An injection whose keystrokes are accepted *)

Lemma execSend_accepted :
  forall keys w, sendsSucceed w ->
    exists w',
      execSend session keys w = (None, w')
      /\ trace w' = trace w ++ [Exec (sendKeysCommand session keys)]
      /\ logScript w' = logScript w
      /\ sendsSucceed w'.
Proof.
  intros keys w H.
  destruct (execSend_succeeds session keys w H) as [E S'].
  assert (T := execSend_trace session keys w).
  assert (L := execSend_keeps_log keys w).
  destruct (execSend session keys w) as [e w']. cbn [fst snd] in *. subst e.
  exists w'. repeat split; assumption.
Qed.

Lemma handleConfirmations_returns :
  forall w, sendsSucceed w ->
    exists n, fst (handleConfirmations session w) = Exited n.
Proof.
  intros w H. unfold handleConfirmations.
  destruct (confirmLoop_exits_when_sends_succeed session maxAttempts 0 w H)
    as (n & w' & E & _ & _).
  rewrite E. destruct (getCaptureOutput session w') as [c w2].
  exists n. reflexivity.
Qed.

(** The next write to the injection log fails. *)
Definition appendFails (w : World) : bool :=
  match logScript w with
  | Some _ :: _ => true
  | _ => false
  end.

Lemma logInjection_trace :
  forall command w,
    trace (logInjection command w)
    = trace w ++ (if appendFails w then [] else [LogInjection command]).
Proof.
  intros command w. unfold logInjection, appendFails.
  destruct (logScript w) as [|[msg|] rest]; cbn [trace act];
    [reflexivity | now rewrite app_nil_r | reflexivity].
Qed.

(** What the replacement of the source does to the units of a command: a
    single quote becomes quote, double quote, quote, double quote, quote. *)
Lemma escapeQuotes_by_unit :
  forall command,
    escapeQuotes command
    = flat_map (fun c => if (c =? 39)%N then [39; 34; 39; 34; 39]%N else [c])
        command.
Proof.
  induction command as [|c command IH]; [reflexivity|].
  cbn [escapeQuotes flat_map]. rewrite IH. now destruct (c =? 39)%N.
Qed.

(** X14.  When tmux accepts every keystroke, [injectCommand] resolves with a
    success, whatever the pane shows before, during and after the
    confirmation loop, and whether or not the injection log can be written.
    What it has done by then is: clear the input field, send the command
    text in single quotes with each of its single quotes replaced, send
    Enter, look at the pane, let the confirmation loop take its steps, and,
    last, write the command to the injection log, which leaves a line there
    unless the write fails. *)
Theorem injection_succeeds_when_the_keystrokes_are_accepted :
  forall command w,
    sendsSucceed w ->
    exists l,
      fst (injectCommand session command w)
      = Some {| success := true; error := None |}
      /\ trace (snd (injectCommand session command w))
         = trace w
           ++ [Exec (u "tmux send-keys -t " ++ session ++ u " C-u"); Sleep 200;
               Exec (u "tmux send-keys -t " ++ session ++ u " '"
                     ++ flat_map (fun c => if (c =? 39)%N
                                           then [39; 34; 39; 34; 39]%N
                                           else [c]) command
                     ++ u "'");
               Sleep 200;
               Exec (u "tmux send-keys -t " ++ session ++ u " C-m"); Sleep 1000;
               Exec (u "tmux capture-pane -t " ++ session ++ u " -p")]
           ++ l
           ++ (if appendFails w then [] else [LogInjection command])
      /\ Forall autopilotStep l.
Proof.
  intros command w H. unfold injectCommand.
  destruct (execSend_accepted (u "C-u") w H) as (w1 & E1 & T1 & L1 & S1).
  rewrite E1.
  destruct (execSend_accepted (quoted (escapeQuotes command)) (sleep 200 w1) S1)
    as (w2 & E2 & T2 & L2 & S2).
  rewrite E2.
  destruct (execSend_accepted (u "C-m") (sleep 200 w2) S2)
    as (w3 & E3 & T3 & L3 & S3).
  rewrite E3.
  assert (T4 := getCaptureOutput_trace session (sleep 1000 w3)).
  assert (S4 := getCaptureOutput_keeps_sends session (sleep 1000 w3)).
  assert (L4 := getCaptureOutput_keeps_log (sleep 1000 w3)).
  destruct (getCaptureOutput session (sleep 1000 w3)) as [c w4].
  cbn [snd] in T4, S4, L4.
  assert (H4 : sendsSucceed w4) by (unfold sendsSucceed; rewrite S4; exact S3).
  destruct (handleConfirmations_returns w4 H4) as [n R].
  destruct (handleConfirmations_steps w4) as [[l [A F]] L5].
  destruct (handleConfirmations session w4) as [e w5]. cbn [fst snd] in *.
  subst e. exists l. split; [reflexivity|]. split; [|exact F].
  cbn [snd]. rewrite logInjection_trace.
  assert (Q : appendFails w5 = appendFails w).
  { unfold appendFails. rewrite L5, L4. cbn [logScript sleep act].
    rewrite L3. cbn [logScript sleep act]. rewrite L2.
    cbn [logScript sleep act]. rewrite L1. reflexivity. }
  rewrite Q. unfold added in A. rewrite A, T4.
  cbn [trace sleep act]. rewrite T3. cbn [trace sleep act]. rewrite T2.
  cbn [trace sleep act]. rewrite T1.
  rewrite (sendKeysCommand_quoted session), escapeQuotes_by_unit.
  rewrite (captureCommand_text session).
  rewrite <- !app_assoc. reflexivity.
Qed.

(** *** A task that keeps running *)




End AutopilotFacts.

(* ================================================================== *)
(** ** The complete injection workflow: facts *)
(* ================================================================== *)

Section WorkflowFacts.
Import JS Injector Workflow.

Variable session : jsstring.

(** No line was written to the injection log. *)
Definition noLog (l : list Action) : Prop :=
  Forall (fun a => forall c, a <> LogInjection c) l.

Lemma autopilotStep_noLog :
  forall l, Forall (autopilotStep session) l -> noLog l.
Proof.
  intros l H. unfold noLog. eapply Forall_impl; [|exact H].
  intros a [I | [key [_ ->]]] c; [|discriminate].
  cbn in I. intros ->. repeat (destruct I as [I|I]; [discriminate I|]).
  exact I.
Qed.

(** [injectCommand] writes to the injection log only when it resolves with
    a success, and then once, as its last action, unless the write fails. *)
Lemma injectCommand_log :
  forall command w,
    exists l,
      trace (snd (injectCommand session command w)) = trace w ++ l
      /\ match fst (injectCommand session command w) with
         | Some r =>
           if success r
           then exists l0,
                  l = l0 ++ (if appendFails w then []
                             else [LogInjection command])
                  /\ noLog l0
           else noLog l
         | None => noLog l
         end.
Proof.
  intros command w. unfold injectCommand.
  assert (T1 := execSend_trace session (u "C-u") w).
  assert (L1 := execSend_keeps_log session (u "C-u") w).
  destruct (execSend session (u "C-u") w) as [[msg|] w1]; cbn [snd] in T1, L1.
  { eexists. split; [exact T1|]. cbn. repeat constructor. discriminate. }
  assert (T2 := execSend_trace session (quoted (escapeQuotes command))
                  (sleep 200 w1)).
  assert (L2 := execSend_keeps_log session (quoted (escapeQuotes command))
                  (sleep 200 w1)).
  destruct (execSend session (quoted (escapeQuotes command)) (sleep 200 w1))
    as [[msg|] w2]; cbn [snd trace logScript sleep act] in T2, L2;
    rewrite T1 in T2; rewrite L1 in L2.
  { eexists. split; [rewrite <- !app_assoc in T2; exact T2|]. cbn.
    repeat constructor; discriminate. }
  assert (T3 := execSend_trace session (u "C-m") (sleep 200 w2)).
  assert (L3 := execSend_keeps_log session (u "C-m") (sleep 200 w2)).
  destruct (execSend session (u "C-m") (sleep 200 w2)) as [[msg|] w3];
    cbn [snd trace logScript sleep act] in T3, L3;
    rewrite T2 in T3; rewrite L2 in L3.
  { eexists. split; [rewrite <- !app_assoc in T3; exact T3|]. cbn.
    repeat constructor; discriminate. }
  assert (T4 := getCaptureOutput_trace session (sleep 1000 w3)).
  assert (L4 := getCaptureOutput_keeps_log session (sleep 1000 w3)).
  destruct (getCaptureOutput session (sleep 1000 w3)) as [c w4].
  cbn [snd trace logScript sleep act] in T4, L4.
  rewrite T3 in T4. rewrite L3 in L4.
  destruct (handleConfirmations_steps session w4) as [[l [A F]] L5].
  apply autopilotStep_noLog in F. unfold added in A. rewrite T4 in A.
  rewrite L4 in L5.
  rewrite <- !app_assoc in A. cbn [app] in A.
  destruct (handleConfirmations session w4) as [[n|n] w5]; cbn [fst snd] in *.
  - eexists. split.
    + rewrite logInjection_trace, A.
      assert (Q : appendFails w5 = appendFails w)
        by (unfold appendFails; now rewrite L5).
      rewrite Q. rewrite <- !app_assoc. cbn [app]. reflexivity.
    + cbn [success]. eexists. split.
      * change (?a :: ?b :: ?c :: ?d :: ?e :: ?f :: ?g :: l ++ ?x)
          with ((a :: b :: c :: d :: e :: f :: g :: l) ++ x).
        reflexivity.
      * unfold noLog in *. repeat (constructor; [discriminate|]). exact F.
  - eexists. split; [exact A|]. unfold noLog in *.
    repeat (constructor; [discriminate|]). exact F.
Qed.

(** X16.  The workflow writes to the injection log only when it reports a
    success: then the line for the command, unless the write fails, and
    after it the success notification are the last things it does, and the
    session it reports is the injector's.  A failure carries one of four
    error codes and leaves the log untouched, as does a workflow whose
    injection is never resolved. *)
Theorem workflow_writes_the_log_only_when_it_succeeds :
  forall h command w,
    exists l,
      trace (snd (injectCommandFull session h command w)) = trace w ++ l
      /\ match fst (injectCommandFull session h command w) with
         | Some (Success message name) =>
           name = session
           /\ exists l0,
                l = l0
                    ++ (if appendFails w then [] else [LogInjection command])
                    ++ [Exec (notificationCommand command)]
                /\ noLog l0
         | Some (Failure code message) =>
           In code [s_tmuxNotInstalled; s_sessionCreationFailed;
                    s_injectionFailed; s_unexpectedError]
           /\ noLog l
         | None => noLog l
         end.
Proof.
  intros h command w.
  unfold injectCommandFull, checkTmuxAvailable, checkCodexSession,
    createCodexSession.
  destruct (tmuxAvailable h); cbn [negb].
  2:{ eexists. split; [reflexivity|]. cbn [fst]. split; [cbn; tauto|].
      repeat constructor. discriminate. }
  assert (G : forall w3 l3,
            trace w3 = trace w ++ l3 -> logScript w3 = logScript w ->
            noLog l3 ->
            exists l,
              trace (snd (match injectCommand session command w3 with
                          | (None, w4) => (None, w4)
                          | (Some r, w4) =>
                            if success r
                            then (Some (Success s_injected session),
                                  sendSuccessNotification command w4)
                            else (Some (Failure s_injectionFailed (error r)), w4)
                          end)) = trace w ++ l
              /\ match fst (match injectCommand session command w3 with
                            | (None, w4) => (None, w4)
                            | (Some r, w4) =>
                              if success r
                              then (Some (Success s_injected session),
                                    sendSuccessNotification command w4)
                              else (Some (Failure s_injectionFailed (error r)),
                                    w4)
                            end) with
                 | Some (Success message name) =>
                   name = session
                   /\ exists l0,
                        l = l0
                            ++ (if appendFails w then []
                                else [LogInjection command])
                            ++ [Exec (notificationCommand command)]
                        /\ noLog l0
                 | Some (Failure code message) =>
                   In code [s_tmuxNotInstalled; s_sessionCreationFailed;
                            s_injectionFailed; s_unexpectedError]
                   /\ noLog l
                 | None => noLog l
                 end).
  { intros w3 l3 T3 L3 N3.
    assert (Q : appendFails w3 = appendFails w)
      by (unfold appendFails; now rewrite L3).
    destruct (injectCommand_log command w3) as [l [T L]]. rewrite Q in L.
    destruct (injectCommand session command w3) as [[r|] w4];
      cbn [fst snd] in *.
    - destruct (success r).
      + destruct L as [l0 [-> N0]]. eexists. split.
        * cbn [snd sendSuccessNotification trace act]. rewrite T, T3.
          rewrite <- !app_assoc. reflexivity.
        * cbn [fst]. split; [reflexivity|]. exists (l3 ++ l0). split.
          -- rewrite <- !app_assoc. reflexivity.
          -- now apply Forall_app.
      + eexists. split; [cbn [snd]; rewrite T, T3, <- app_assoc; reflexivity|].
        cbn [fst]. split; [cbn; tauto | now apply Forall_app].
    - eexists. split; [rewrite T, T3, <- app_assoc; reflexivity|].
      now apply Forall_app. }
  destruct (sessionExists h); cbn [negb].
  - apply (G _ [Exec s_whichTmux; Exec (hasSessionCommand session)]).
    + cbn [trace act]. rewrite <- app_assoc. reflexivity.
    + reflexivity.
    + repeat constructor; discriminate.
  - destruct (workingDirectory h) as [directory|message].
    + destruct (createError h) as [msg|].
      * eexists. split;
          [cbn [snd trace act]; rewrite <- !app_assoc; reflexivity|].
        cbn [fst]. split; [cbn; tauto|]. repeat constructor; discriminate.
      * apply (G _ [Exec s_whichTmux; Exec (hasSessionCommand session);
                    Exec (newSessionCommand session directory h); Sleep 3000]).
        -- cbn [trace act sleep]. rewrite <- !app_assoc. reflexivity.
        -- reflexivity.
        -- repeat constructor; discriminate.
    + eexists. split;
        [cbn [snd trace act]; rewrite <- !app_assoc; reflexivity|].
      cbn [fst]. split; [cbn; tauto|]. repeat constructor; discriminate.
Qed.

(** X17.  The workflow sends keys to the session only when tmux is installed
    and the session is there, found or just created. *)
Theorem keys_are_sent_only_to_a_session_that_is_there :
  forall h command w l keys,
    trace (snd (injectCommandFull session h command w)) = trace w ++ l ->
    In (Exec (sendKeysCommand session keys)) l ->
    tmuxAvailable h = true
    /\ (sessionExists h = true
        \/ createError h = None
           /\ exists directory, workingDirectory h = Returns directory).
Proof.
  intros h command w l keys T I. revert T.
  unfold injectCommandFull, checkTmuxAvailable, checkCodexSession,
    createCodexSession.
  destruct (tmuxAvailable h); cbn [negb].
  - destruct (sessionExists h); cbn [negb]; [intros _; split; [|left]; reflexivity|].
    destruct (workingDirectory h) as [directory|message].
    + destruct (createError h) as [msg|].
      * cbn [snd trace act]. rewrite <- !app_assoc. intros T.
        apply app_inv_head in T. subst l. exfalso.
        cbn [app In] in I. destruct I as [I|[I|[I|[]]]]; inversion I.
      * intros _. split; [reflexivity|]. right. split; [reflexivity|].
        exists directory. reflexivity.
    + cbn [snd trace act]. rewrite <- !app_assoc. intros T.
      apply app_inv_head in T. subst l. exfalso.
      cbn [app In] in I. destruct I as [I|[I|[]]]; inversion I.
  - cbn [snd trace act]. intros T. apply app_inv_head in T. subst l. exfalso.
    destruct I as [I|[]]. inversion I.
Qed.

End WorkflowFacts.

(* ================================================================== *)
(** ** The text put into the notification mail: facts *)
(* ================================================================== *)

Section EmailFacts.
Import JS Email.

(** The units that open or close markup or an attribute value. *)
Definition isMarkup (c : char) : bool :=
  ((c =? lessThan) || (c =? greaterThan) || (c =? doubleQuote)
   || (c =? singleQuote))%N.

Definition entities : list jsstring :=
  [u "&amp;"; u "&lt;"; u "&gt;"; u "&quot;"; u "&#39;"].

(** Every ampersand of the text begins one of the five entities. *)
Fixpoint ampersandsBeginEntities (s : jsstring) : bool :=
  match s with
  | [] => true
  | c :: rest =>
    (negb (c =? ampersand)%N || existsb (fun e => startsWith e s) entities)
    && ampersandsBeginEntities rest
  end.

(** X18.  The text [_escapeHtml] returns has no angle bracket and no quote,
    and each of its ampersands begins one of the five entities; a text
    without the five characters is returned as it is. *)
Theorem escaped_text_has_no_markup :
  forall text,
    forallb (fun c => negb (isMarkup c)) (_escapeHtml text) = true
    /\ ampersandsBeginEntities (_escapeHtml text) = true
    /\ (forallb (fun c => negb (isMarkup c || (c =? ampersand)%N)) text = true ->
        _escapeHtml text = text).
Proof.
  induction text as [|c text (IH1 & IH2 & IH3)]; [repeat split|].
  assert (K : forall x,
            forallb (fun c => negb (isMarkup c || (c =? ampersand)%N))
              (x :: text) = true ->
            negb (isMarkup x || (x =? ampersand)%N) = true).
  { intros x F. cbn [forallb] in F. now apply andb_true_iff in F as [F _]. }
  cbn [_escapeHtml]. unfold htmlEntities.
  destruct (c =? ampersand)%N eqn:E1.
  { apply N.eqb_eq in E1. subst c.
    repeat split; [exact IH1 | exact IH2 | intros F; discriminate (K _ F)]. }
  destruct (c =? lessThan)%N eqn:E2.
  { apply N.eqb_eq in E2. subst c.
    repeat split; [exact IH1 | exact IH2 | intros F; discriminate (K _ F)]. }
  destruct (c =? greaterThan)%N eqn:E3.
  { apply N.eqb_eq in E3. subst c.
    repeat split; [exact IH1 | exact IH2 | intros F; discriminate (K _ F)]. }
  destruct (c =? doubleQuote)%N eqn:E4.
  { apply N.eqb_eq in E4. subst c.
    repeat split; [exact IH1 | exact IH2 | intros F; discriminate (K _ F)]. }
  destruct (c =? singleQuote)%N eqn:E5.
  { apply N.eqb_eq in E5. subst c.
    repeat split; [exact IH1 | exact IH2 | intros F; discriminate (K _ F)]. }
  assert (M : isMarkup c = false).
  { unfold isMarkup. now rewrite E2, E3, E4, E5. }
  repeat split.
  - cbn [forallb]. now rewrite M, IH1.
  - cbn [ampersandsBeginEntities]. now rewrite E1, IH2.
  - intros F. cbn [forallb] in F. apply andb_true_iff in F as [_ F].
    now rewrite (IH3 F).
Qed.

End EmailFacts.

(* ================================================================== *)
(** ** The done marker *)
(* ================================================================== *)

Section DoneMarkerFacts.
Import JS Regex Monitor.

Lemma findDoneDown_last :
  forall pre p post,
    test re_telegramDone p = true ->
    Forall (fun l => test re_telegramDone l = false) post ->
    findDoneDown (pre ++ p :: post) (length (pre ++ p :: post))
    = Some (length pre).
Proof.
  intros pre p post Hp Hpost.
  assert (G : forall k, k <= length post ->
            findDoneDown (pre ++ p :: post) (length pre + 1 + k)
            = Some (length pre)).
  { induction k as [|k IH]; intros Hk.
    - replace (length pre + 1 + 0) with (S (length pre)) by lia.
      cbn [findDoneDown]. rewrite nth_middle, Hp. reflexivity.
    - replace (length pre + 1 + S k) with (S (length pre + 1 + k)) by lia.
      cbn [findDoneDown].
      rewrite app_nth2 by lia.
      replace (length pre + 1 + k - length pre) with (S k) by lia.
      cbn [nth].
      assert (Hn : test re_telegramDone (nth k post []) = false).
      { rewrite Forall_forall in Hpost. apply Hpost. apply nth_In. lia. }
      rewrite Hn. apply IH. lia. }
  replace (length (pre ++ p :: post)) with (length pre + 1 + length post)
    by (rewrite length_app; simpl; lia).
  apply G. lia.
Qed.

(** X19.  The done marker counts wherever it stands.  When the last line of
    the pane that carries it is a prompt line, that is, when the marker is
    part of what the user typed, the detector reports a completion for that
    very prompt, unless the key made of the prompt text and of the line is
    the one recorded, and it records the key. *)
Theorem done_marker_in_the_prompt_line_is_reported :
  forall m paneText pre p post,
    split LF paneText = pre ++ p :: post ->
    _isPromptLine p = true ->
    test re_telegramDone p = true ->
    Forall (fun l => test re_telegramDone l = false) post ->
    let question := trim (replaceFirst re_promptPrefix (_stripAnsi p)) in
    let key := question ++ s_sep ++ trim (_stripAnsi p) in
    key <> lastTelegramDoneKey m ->
    exists conv,
      _detectTelegramDoneCompletion m paneText
      = (Some conv, set_lastTelegramDoneKey key m)
      /\ userQuestion conv = question.
Proof.
  intros m paneText pre p post E Hp Hd Hpost question key Hk.
  assert (T : truthy paneText = true).
  { destruct paneText as [|c r]; [|reflexivity]. exfalso.
    cbn [split] in E. destruct pre as [|x pre].
    - injection E as <- _. discriminate Hp.
    - injection E as _ E. destruct pre; discriminate E. }
  assert (Q : truthy question = true).
  { unfold question. unfold _isPromptLine in Hp.
    destruct (replace_promptPrefix_on_prompt _ Hp) as [R Tq]. now rewrite R. }
  unfold _detectTelegramDoneCompletion. rewrite T. cbn [negb]. rewrite E.
  rewrite (findDoneDown_last pre p post Hd Hpost).
  cbn [findKeyPromptDown]. rewrite nth_middle, Hp.
  fold question. rewrite Q. fold key.
  destruct (JS.eqb key (lastTelegramDoneKey m)) eqn:K.
  { apply eqb_eq in K. contradiction. }
  eexists. split; [reflexivity|]. cbn [userQuestion].
  now apply orElse_truthy.
Qed.

End DoneMarkerFacts.

(* ================================================================== *)
(** ** Scenarios for the further properties *)
(* ================================================================== *)

Section FurtherScenarios.
Import JS Regex Monitor Trace.

Lemma Forall_true_of_forallb :
  forall (A : Type) (f : A -> bool) l,
    forallb f l = true -> Forall (fun x => f x = true) l.
Proof.
  intros A f l H. apply Forall_forall. intros x Hx.
  rewrite forallb_forall in H. now apply H.
Qed.

Lemma Forall_false_of_forallb :
  forall (A : Type) (f : A -> bool) l,
    forallb (fun x => negb (f x)) l = true -> Forall (fun x => f x = false) l.
Proof.
  intros A f l H. apply Forall_forall. intros x Hx.
  rewrite forallb_forall in H. specialize (H x Hx).
  now destruct (f x).
Qed.

(** The monitor has seen the finished tests, and the pane stays as it is for
    two polls before the linter runs. *)
Definition watchingTests : Monitor := set_lastPaneContent testsPane runningMonitor.

Definition testsThenLint : World :=
  worldWith (Some codexReal) [Some testsPane; Some testsPane; Some lintPane].

Lemma unchanged_pane_witness :
  fst (polls 2 (watchingTests, testsThenLint)) = watchingTests
  /\ emitted (snd (polls 2 (watchingTests, testsThenLint)))
     = emitted testsThenLint
  /\ captures (snd (polls 2 (watchingTests, testsThenLint))) = [Some lintPane]
  /\ calls (snd (polls 2 (watchingTests, testsThenLint)))
     = calls testsThenLint ++ repeat (CapturePane (sessionName watchingTests)) 2.
Proof.
  exact (unchanged_pane_is_polled_silently 2 watchingTests testsThenLint
           [Some lintPane] eq_refl).
Defined.

Definition startedAndPolled : list Op := [OpStart; OpTick 0].

Definition testsWorld : World :=
  worldWith (Some codexReal) [Some []; Some testsPane; Some testsPane].

Lemma stop_ends_polling_witness :
  let st := runOps startedAndPolled (create codexReal, testsWorld) in
  let st' := stop (fst st) (snd st) in
  isMonitoring (fst st') = false
  /\ monitorInterval (fst st') = None
  /\ timers (snd st') = []
  /\ emitted (snd st') = emitted (snd st)
  /\ calls (snd st') = calls (snd st)
  /\ (forall t, tick t (fst st') (snd st') = st')
  /\ stop (fst st') (snd st') = st'.
Proof.
  exact (stop_ends_polling startedAndPolled codexReal testsWorld eq_refl).
Defined.

Definition shortPane : jsstring :=
  Eval vm_compute in pane ["› run the tests"; "working"]%string.

Definition grownPane : jsstring :=
  Eval vm_compute in
    pane ["› run the tests!"; "working"; ""; "12 tests pass"]%string.

(** The pane has grown by two rows, one of them blank; the change in its
    first row is not reported. *)
Lemma getNewLines_witness : _getNewLines shortPane grownPane = [u "12 tests pass"].
Proof.
  exact (proj1 (getNewLines_by_row_count shortPane grownPane)
           ltac:(vm_compute; lia)).
Defined.

Definition askedPane : jsstring :=
  Eval vm_compute in pane ["› run the tests"]%string.

Definition thinkingPane : jsstring :=
  Eval vm_compute in
    pane ["› run the tests"; "thinking about it"; "›"]%string.

Definition askedMonitor : Monitor := set_lastPaneContent askedPane runningMonitor.

Definition thinkingWorld : World :=
  worldWith (Some codexReal) [Some thinkingPane; Some thinkingPane].

Lemma change_beside_an_idle_prompt_witness :
  exists e,
    emitted (snd (_checkForChanges askedMonitor thinkingWorld))
    = emitted thinkingWorld ++ [e]
    /\ kind e = TaskCompleted
    /\ newOutput e = _getNewLines (lastPaneContent askedMonitor) thinkingPane
    /\ evSession e = sessionName askedMonitor.
Proof.
  apply (change_beside_an_idle_prompt_is_a_completion askedMonitor
           thinkingWorld thinkingPane).
  - reflexivity.
  - vm_compute. discriminate.
  - vm_compute. reflexivity.
Defined.

(** A prompt line in bold green. *)
Lemma stripAnsi_witness :
  _stripAnsi (u "  " ++ colourSequence (u "1;32") ++ u "› fix the bug")
  = u "  " ++ _stripAnsi (u "› fix the bug").
Proof.
  apply (stripAnsi_removes_a_colour_sequence (u "  ") (u "1;32")
           (u "› fix the bug")).
  - cbv. intros [H|[H|[]]]; discriminate H.
  - vm_compute. reflexivity.
Defined.

Definition buildLog : jsstring :=
  Eval vm_compute in
    pane ["Build finished"; "2 warnings"; ""; "  98% context left"]%string.

Lemma extraction_without_a_prompt_witness :
  claudeResponse (extractConversation buildLog) = s_noResponse
  /\ userQuestion (extractConversation buildLog) = trim (u "2 warnings").
Proof.
  assert (H : Forall (fun x => isPromptText x = false) (split LF buildLog))
    by (apply Forall_false_of_forallb; vm_compute; reflexivity).
  destruct (extraction_without_a_prompt_line buildLog H) as (A & B & _).
  split; [exact A|].
  apply (B [u "Build finished"] (u "2 warnings") [[]; u "  98% context left"]).
  - reflexivity.
  - vm_compute. reflexivity.
  - apply Forall_false_of_forallb. vm_compute. reflexivity.
Defined.

Lemma recent_extraction_without_a_prompt_witness :
  let lines := recentLines (create codexReal) buildLog in
  let conv := _extractRecentConversation (create codexReal) buildLog in
  claudeResponse conv
  = match contentLines (skipn (length lines - 40) lines) with
    | [] => s_taskCompleted
    | _ :: _ => join LF (contentLines (skipn (length lines - 40) lines))
    end
  /\ (length lines <= 40 -> userQuestion conv = s_recentCommand)
  /\ fullContext conv = Some (join LF lines).
Proof.
  apply (recent_extraction_without_a_prompt_line (create codexReal) buildLog).
  apply Forall_false_of_forallb. vm_compute. reflexivity.
Defined.

Definition sessionLog : jsstring :=
  Eval vm_compute in
    pane ["earlier output"; "› fix the bug"; "  in main.js"; "";
          "• Edited main.js"; "  one line changed"; ""]%string.

Lemma filterByTimestamp_witness :
  _filterByTimestamp sessionLog
  = join LF (map u ["› fix the bug"; "  in main.js"; "";
                    "• Edited main.js"; "  one line changed"; ""]%string).
Proof.
  apply (proj1 (filterByTimestamp_keeps_from_the_last_user_input sessionLog)
           [u "earlier output"] (u "› fix the bug")
           (map u ["  in main.js"; ""; "• Edited main.js";
                   "  one line changed"; ""]%string)).
  - reflexivity.
  - vm_compute. reflexivity.
  - apply Forall_false_of_forallb. vm_compute. reflexivity.
Defined.

Lemma cleaned_trace_witness :
  isBlank (hd [] (cleanedLines sessionLog)) = false
  /\ isBlank (last (cleanedLines sessionLog) []) = false.
Proof.
  apply (proj2 (proj2 (cleaned_trace_has_no_prompt_and_no_blank_ends sessionLog))).
  vm_compute. discriminate.
Defined.

Definition bufferOnly : Store :=
  {| captureFile := None; tmuxBuffer := Some sessionLog |}.

Lemma full_trace_witness :
  getFullExecutionTrace bufferOnly
  = join LF (rev (dropBlankLines (rev (dropBlankLines
               (map u ["• Edited main.js"; "  one line changed"; ""]%string))))).
Proof.
  apply (full_trace_is_what_follows_the_last_user_input bufferOnly sessionLog
           [u "earlier output"] (u "› fix the bug") [u "  in main.js"] []
           (map u ["• Edited main.js"; "  one line changed"; ""]%string)).
  - right. split; reflexivity.
  - reflexivity.
  - vm_compute. reflexivity.
  - apply Forall_true_of_forallb. vm_compute. reflexivity.
  - reflexivity.
  - apply Forall_true_of_forallb. vm_compute. reflexivity.
Defined.


(** The user asks for the marker; the prompt line is the only line that
    carries it. *)
Definition askedForMarker : jsstring :=
  Eval vm_compute in
    pane ["› fix the bug, then write Telegram done"; "Working on it"]%string.

Lemma done_marker_witness :
  exists conv,
    _detectTelegramDoneCompletion (create codexReal) askedForMarker
    = (Some conv,
       set_lastTelegramDoneKey
         (trim (replaceFirst re_promptPrefix
                  (_stripAnsi (u "› fix the bug, then write Telegram done")))
          ++ s_sep
          ++ trim (_stripAnsi (u "› fix the bug, then write Telegram done")))
         (create codexReal))
    /\ userQuestion conv
       = trim (replaceFirst re_promptPrefix
                 (_stripAnsi (u "› fix the bug, then write Telegram done"))).
Proof.
  apply (done_marker_in_the_prompt_line_is_reported (create codexReal)
           askedForMarker [] (u "› fix the bug, then write Telegram done")
           [u "Working on it"]).
  - reflexivity.
  - vm_compute. reflexivity.
  - vm_compute. reflexivity.
  - apply Forall_false_of_forallb. vm_compute. reflexivity.
  - vm_compute. discriminate.
Defined.

End FurtherScenarios.

Section FurtherInjectorScenarios.
Import JS Injector Workflow Email.

(** The pane shows an error and tmux accepts every keystroke. *)
Definition errorPane : jsstring :=
  Eval vm_compute in u "Error: unknown command".

Definition acceptingKeys : World :=
  {| captureScript := [Some errorPane; Some errorPane; Some errorPane];
     sendScript := []; logScript := []; trace := [] |}.

(** The same pane on a machine where the injection log cannot be written. *)
Definition acceptingKeysWithoutLog : World :=
  {| captureScript := [Some errorPane; Some errorPane; Some errorPane];
     sendScript := []; logScript := [Some (u "EACCES: permission denied")];
     trace := [] |}.

(** A command with single quotes, [echo 'hi'], as tmux receives it. *)
Definition echoCommand : jsstring := Eval vm_compute in u "echo 'hi'".

Definition echoSent : jsstring :=
  Eval vm_compute in
    u "tmux send-keys -t codex-taskping 'echo '"
    ++ 34%N :: u "'" ++ 34%N :: u "'hi'" ++ 34%N :: u "'" ++ 34%N :: u "''".

Lemma injection_succeeds_witness :
  exists l,
    fst (injectCommand witnessSession echoCommand acceptingKeysWithoutLog)
    = Some {| success := true; error := None |}
    /\ trace (snd (injectCommand witnessSession echoCommand
                     acceptingKeysWithoutLog))
       = [Exec (u "tmux send-keys -t codex-taskping C-u"); Sleep 200;
          Exec echoSent; Sleep 200;
          Exec (u "tmux send-keys -t codex-taskping C-m"); Sleep 1000;
          Exec (u "tmux capture-pane -t codex-taskping -p")]
         ++ l ++ []
    /\ Forall (autopilotStep witnessSession) l.
Proof.
  apply (injection_succeeds_when_the_keystrokes_are_accepted witnessSession
           echoCommand acceptingKeysWithoutLog).
  constructor.
Defined.




(** A machine with tmux on which the session has to be created. *)
Definition freshHost : Host :=
  {| tmuxAvailable := true; sessionExists := false; createError := None;
     workingDirectory := Returns (u "/home/dev/project");
     codexCliPath := None |}.

Lemma keys_are_sent_witness :
  tmuxAvailable freshHost = true
  /\ (sessionExists freshHost = true
      \/ createError freshHost = None
         /\ exists directory, workingDirectory freshHost = Returns directory).
Proof.
  apply (keys_are_sent_only_to_a_session_that_is_there witnessSession freshHost
           (u "run the tests") acceptingKeys
           (trace (snd (injectCommandFull witnessSession freshHost
                          (u "run the tests") acceptingKeys)))
           (u "C-u")).
  - reflexivity.
  - vm_compute. do 4 right. left. reflexivity.
Defined.

(** The session is missing and the working directory of the process has
    been removed: nothing is run after the two checks, and the workflow
    reports an unexpected error with the message of [process.cwd()]. *)
Definition hostWithoutDirectory : Host :=
  {| tmuxAvailable := true; sessionExists := false; createError := None;
     workingDirectory :=
       Throws (u "ENOENT: no such file or directory, uv_cwd");
     codexCliPath := None |}.

Lemma vanished_directory_is_an_unexpected_error :
  injectCommandFull witnessSession hostWithoutDirectory (u "run the tests")
    acceptingKeys
  = (Some (Failure (u "unexpected_error")
             (Some (u "ENOENT: no such file or directory, uv_cwd"))),
     {| captureScript := captureScript acceptingKeys;
        sendScript := []; logScript := [];
        trace := [Exec (u "which tmux");
                  Exec (u "tmux has-session -t codex-taskping 2>/dev/null")] |}).
Proof.
  vm_compute. reflexivity.
Qed.

Lemma escaped_text_witness : _escapeHtml (u "build ok") = u "build ok".
Proof.
  apply (proj2 (proj2 (escaped_text_has_no_markup (u "build ok")))).
  vm_compute. reflexivity.
Defined.

End FurtherInjectorScenarios.
